(** * A contact book: fields, records, the address book, the upcoming
    birthdays report and the command handlers of [HW-1.py].

    The Python program is embedded shallowly.  A Python [str] is the list
    of its code points; Python exceptions are values of [exn] and a call
    that may raise returns an [outcome]; [Record] objects live in a heap of
    objects addressed by reference, and the address book maps names to
    references, in insertion order. *)

From Stdlib Require Import ZArith NArith List String Ascii Lia Bool.
From stdpp Require Import base list.
Import ListNotations.

Local Open Scope Z_scope.

(** ** Python strings *)

(** A [str] is a sequence of Unicode code points. *)
Definition str := list N.

(** An ASCII literal of the source as a [str]. *)
Definition lit (s : string) : str := map N_of_ascii (list_ascii_of_string s).

Fixpoint str_eqb (a b : str) : bool :=
  match a, b with
  | [], [] => true
  | x :: a', y :: b' => N.eqb x y && str_eqb a' b'
  | _, _ => false
  end.

(** [sep.join(parts)]. *)
Fixpoint join (sep : str) (parts : list str) : str :=
  match parts with
  | [] => []
  | [p] => p
  | p :: rest => p ++ sep ++ join sep rest
  end.

(** ** The Unicode character database, as far as digits go

    [str.isdigit], the regular expression class [\d] and [int()] consult
    the Unicode character database.  The tables are those of UCD 14.0.0
    (CPython 3.11). *)
Module Unicode.

(** Characters of category Nd come in runs of ten consecutive code
    points with the values 0 to 9; these are the first code points of
    the runs. *)
Definition decimal_runs : list N :=
  [ 0x30; 0x660; 0x6f0; 0x7c0; 0x966; 0x9e6; 0xa66; 0xae6; 0xb66; 0xbe6;
    0xc66; 0xce6; 0xd66; 0xde6; 0xe50; 0xed0; 0xf20; 0x1040; 0x1090;
    0x17e0; 0x1810; 0x1946; 0x19d0; 0x1a80; 0x1a90; 0x1b50; 0x1bb0;
    0x1c40; 0x1c50; 0xa620; 0xa8d0; 0xa900; 0xa9d0; 0xa9f0; 0xaa50;
    0xabf0; 0xff10; 0x104a0; 0x10d30; 0x11066; 0x110f0; 0x11136;
    0x111d0; 0x112f0; 0x11450; 0x114d0; 0x11650; 0x116c0; 0x11730;
    0x118e0; 0x11950; 0x11c50; 0x11d50; 0x11da0; 0x16a60; 0x16ac0;
    0x16b50; 0x1d7ce; 0x1d7d8; 0x1d7e2; 0x1d7ec; 0x1d7f6; 0x1e140;
    0x1e2f0; 0x1e950; 0x1fbf0 ]%N.

(** Characters with Numeric_Type=Digit that are not decimal: superscripts,
    subscripts, circled and parenthesised digits and the like, as
    inclusive ranges. *)
Definition other_digit_ranges : list (N * N) :=
  [ (0xb2, 0xb3); (0xb9, 0xb9); (0x1369, 0x1371); (0x19da, 0x19da);
    (0x2070, 0x2070); (0x2074, 0x2079); (0x2080, 0x2089);
    (0x2460, 0x2468); (0x2474, 0x247c); (0x2488, 0x2490);
    (0x24ea, 0x24ea); (0x24f5, 0x24fd); (0x24ff, 0x24ff);
    (0x2776, 0x277e); (0x2780, 0x2788); (0x278a, 0x2792);
    (0x10a40, 0x10a43); (0x10e60, 0x10e68); (0x11052, 0x1105a);
    (0x1f100, 0x1f10a) ]%N.

Fixpoint run_value (runs : list N) (c : N) : option N :=
  match runs with
  | [] => None
  | s :: rest =>
      if (N.leb s c && N.ltb c (s + 10))%N then Some (c - s)%N
      else run_value rest c
  end.

(** The decimal value of a character of category Nd. *)
Definition decimal_value (c : N) : option N := run_value decimal_runs c.

Definition isdecimal (c : N) : bool :=
  match decimal_value c with Some _ => true | None => false end.

Definition in_ranges (rs : list (N * N)) (c : N) : bool :=
  existsb (fun r => N.leb (fst r) c && N.leb c (snd r)) rs.

(** The per-character test of [str.isdigit]. *)
Definition isdigit (c : N) : bool :=
  isdecimal c || in_ranges other_digit_ranges c.

(** The ten code points ['0'] to ['9']. *)
Definition is_ascii_digit (c : N) : bool := (N.leb 0x30 c && N.leb c 0x39)%N.

End Unicode.

(** [s.isdigit()]: all characters are digits and there is at least one. *)
Definition str_isdigit (s : str) : bool :=
  match s with
  | [] => false
  | _ => forallb Unicode.isdigit s
  end.

(** ** Values and exceptions *)

(** The Python values a field constructor may be handed. *)
Inductive pyval :=
| PyNone
| PyBool (b : bool)
| PyInt (z : Z)
| PyBytes (b : list N)
| PyStr (s : str).

(** The exceptions of the program, with the message of a [ValueError]. *)
Inductive exn :=
| ValueError (msg : str)
| TypeError
| KeyError
| IndexError
| OverflowError.

Inductive outcome (A : Type) :=
| Ret (a : A)
| Raise (e : exn).
Arguments Ret {A} a.
Arguments Raise {A} e.

Definition obind {A B} (m : outcome A) (k : A -> outcome B) : outcome B :=
  match m with
  | Ret a => k a
  | Raise e => Raise e
  end.

Notation "'try!' x ':=' m 'in' k" := (obind m (fun x => k))
  (at level 10, x name, m at level 100, k at level 200).

(** ** Fields *)

Record Name := { Name_value : str }.
Record Phone := { Phone_value : str }.

Definition phone_error : str :=
  lit "Phone number must be a string containing exactly 10 digits.".

(** [Phone.__init__]: [or] evaluates left to right and stops at the first
    true operand, so [isdigit] and [len] only see a [str]. *)
Definition Phone_init (value : pyval) : outcome Phone :=
  match value with
  | PyStr s =>
      if negb (str_isdigit s) || negb (Nat.eqb (length s) 10)
      then Raise (ValueError phone_error)
      else Ret {| Phone_value := s |}
  | _ => Raise (ValueError phone_error)
  end.

(** [str(phone)], from [Field.__str__]. *)
Definition Phone_str (p : Phone) : str := Phone_value p.

(** ** Calendar dates

    [datetime.date] after CPython's reference implementation
    ([Lib/_pydatetime.py]): the proleptic Gregorian calendar, years
    [MINYEAR] to [MAXYEAR], and day ordinals with 1 January of year 1 as
    day 1. *)
Module Calendar.

Definition MINYEAR : Z := 1.
Definition MAXYEAR : Z := 9999.

Record date := { year : Z; month : Z; day : Z }.

Definition _is_leap (y : Z) : bool :=
  (y mod 4 =? 0) && (negb (y mod 100 =? 0) || (y mod 400 =? 0)).

(** [_DAYS_IN_MONTH], indexed by month. *)
Definition _DAYS_IN_MONTH (m : Z) : Z :=
  match m with
  | 1 => 31 | 2 => 28 | 3 => 31 | 4 => 30 | 5 => 31 | 6 => 30
  | 7 => 31 | 8 => 31 | 9 => 30 | 10 => 31 | 11 => 30 | 12 => 31
  | _ => -1
  end.

(** [_DAYS_BEFORE_MONTH], the running sums of [_DAYS_IN_MONTH]. *)
Definition _DAYS_BEFORE_MONTH (m : Z) : Z :=
  match m with
  | 1 => 0 | 2 => 31 | 3 => 59 | 4 => 90 | 5 => 120 | 6 => 151
  | 7 => 181 | 8 => 212 | 9 => 243 | 10 => 273 | 11 => 304 | 12 => 334
  | _ => -1
  end.

Definition _days_before_year (y : Z) : Z :=
  let y := y - 1 in
  y * 365 + y / 4 - y / 100 + y / 400.

Definition _days_in_month (y m : Z) : Z :=
  if (m =? 2) && _is_leap y then 29 else _DAYS_IN_MONTH m.

Definition _days_before_month (y m : Z) : Z :=
  _DAYS_BEFORE_MONTH m + (if (2 <? m) && _is_leap y then 1 else 0).

Definition _ymd2ord (y m d : Z) : Z :=
  _days_before_year y + _days_before_month y m + d.

Definition _DI400Y : Z := Eval cbv in _days_before_year 401.
Definition _DI100Y : Z := Eval cbv in _days_before_year 101.
Definition _DI4Y : Z := Eval cbv in _days_before_year 5.

(** [_ord2ymd]: the date of an ordinal. *)
Definition _ord2ymd (n : Z) : Z * Z * Z :=
  let n := n - 1 in
  let n400 := n / _DI400Y in
  let n := n mod _DI400Y in
  let y := n400 * 400 + 1 in
  let n100 := n / _DI100Y in
  let n := n mod _DI100Y in
  let n4 := n / _DI4Y in
  let n := n mod _DI4Y in
  let n1 := n / 365 in
  let n := n mod 365 in
  let y := y + n100 * 100 + n4 * 4 + n1 in
  if (n1 =? 4) || (n100 =? 4) then (y - 1, 12, 31)
  else
    let leapyear := (n1 =? 3) && (negb (n4 =? 24) || (n100 =? 3)) in
    let m := Z.shiftr (n + 50) 5 in
    let preceding :=
      _DAYS_BEFORE_MONTH m + (if (2 <? m) && leapyear then 1 else 0) in
    if n <? preceding then
      let m := m - 1 in
      let preceding :=
        preceding
        - (_DAYS_IN_MONTH m + (if (m =? 2) && leapyear then 1 else 0)) in
      (y, m, n - preceding + 1)
    else (y, m, n - preceding + 1).

Definition _MAXORDINAL : Z := Eval cbv in _ymd2ord 9999 12 31.

(** The text of the [ValueError] of a date that does not exist.  CPython
    words it by the field at fault ('day is out of range for month',
    'year 10000 is out of range', ...); the program never reads the
    text, and one text stands for all of them here. *)
Definition date_error : str := lit "date value out of range".

(** [date(year, month, day)], with [_check_date_fields]. *)
Definition new_date (y m d : Z) : outcome date :=
  if negb ((MINYEAR <=? y) && (y <=? MAXYEAR)) then
    Raise (ValueError date_error)
  else if negb ((1 <=? m) && (m <=? 12)) then
    Raise (ValueError date_error)
  else if negb ((1 <=? d) && (d <=? _days_in_month y m)) then
    Raise (ValueError date_error)
  else Ret {| year := y; month := m; day := d |}.

(** [d.replace(year=y)]. *)
Definition replace_year (d : date) (y : Z) : outcome date :=
  new_date y (month d) (day d).

Definition toordinal (d : date) : Z := _ymd2ord (year d) (month d) (day d).

Definition fromordinal (n : Z) : date :=
  let '(y, m, d) := _ord2ymd n in {| year := y; month := m; day := d |}.

(** [a < b]: dates compare as the triples (year, month, day). *)
Definition date_ltb (a b : date) : bool :=
  (year a <? year b)
  || ((year a =? year b)
      && ((month a <? month b)
          || ((month a =? month b) && (day a <? day b)))).

(** [(a - b).days]. *)
Definition sub_days (a b : date) : Z := toordinal a - toordinal b.

(** [d + timedelta(days=k)]. *)
Definition add_days (d : date) (k : Z) : outcome date :=
  let o := toordinal d + k in
  if (0 <? o) && (o <=? _MAXORDINAL) then Ret (fromordinal o)
  else Raise OverflowError.

(** [d.weekday()], Monday is 0. *)
Definition weekday (d : date) : Z := (toordinal d + 6) mod 7.

(** The invariant of the type [date]. *)
Definition valid_date (d : date) : Prop :=
  MINYEAR <= year d <= MAXYEAR /\ 1 <= month d <= 12
  /\ 1 <= day d <= _days_in_month (year d) (month d).

End Calendar.

(** ** Parsing and printing dates

    [datetime.strptime(value, "%d.%m.%Y")] after [Lib/_strptime.py]: the
    format is turned into a regular expression with one named group per
    directive, the expression is matched at the start of the text, the
    whole text has to be consumed, and the groups are converted with
    [int]. *)
Module Strptime.

(** The fragment of [re] the format's pattern uses. *)
Inductive regex :=
| Chr (c : N)                      (* a literal character *)
| Rng (lo hi : N)                  (* [lo-hi] *)
| Dig                              (* \d *)
| Cat (r1 r2 : regex)              (* r1 r2 *)
| Alt (r1 r2 : regex)              (* r1|r2 *)
| Grp (name : string) (r : regex). (* (?P<name>r) *)

(** The groups matched so far, the latest first. *)
Definition groupdict := list (string * str).

(** A backtracking matcher: [k] is tried on the rest of the text after
    each way of matching [r], alternatives from left to right, and the
    first success wins. *)
Fixpoint re_match {A} (r : regex) (s : str) (g : groupdict)
    (k : str -> groupdict -> option A) : option A :=
  match r with
  | Chr c =>
      match s with
      | x :: s' => if N.eqb x c then k s' g else None
      | [] => None
      end
  | Rng lo hi =>
      match s with
      | x :: s' => if N.leb lo x && N.leb x hi then k s' g else None
      | [] => None
      end
  | Dig =>
      match s with
      | x :: s' => if Unicode.isdecimal x then k s' g else None
      | [] => None
      end
  | Cat r1 r2 => re_match r1 s g (fun s' g' => re_match r2 s' g' k)
  | Alt r1 r2 =>
      match re_match r1 s g k with
      | Some a => Some a
      | None => re_match r2 s g k
      end
  | Grp name r =>
      re_match r s g
        (fun s' g' => k s' ((name, take (length s - length s') s) :: g'))
  end.

(** [pattern.match(s)]: the rest of the text and the groups. *)
Definition pattern_match (r : regex) (s : str) : option (str * groupdict) :=
  re_match r s [] (fun s' g => Some (s', g)).

Definition c0 : N := 0x30.
Definition c1 : N := 0x31.
Definition c2 : N := 0x32.
Definition c3 : N := 0x33.
Definition c9 : N := 0x39.
Definition dot : N := 0x2e.
Definition space : N := 0x20.

(** [3[0-1]|[1-2]\d|0[1-9]|[1-9]| [1-9]], the pattern of [%d]. *)
Definition re_d : regex :=
  Alt (Cat (Chr c3) (Rng c0 c1))
    (Alt (Cat (Rng c1 c2) Dig)
       (Alt (Cat (Chr c0) (Rng c1 c9))
          (Alt (Rng c1 c9) (Cat (Chr space) (Rng c1 c9))))).

(** [1[0-2]|0[1-9]|[1-9]], the pattern of [%m]. *)
Definition re_m : regex :=
  Alt (Cat (Chr c1) (Rng c0 c2))
    (Alt (Cat (Chr c0) (Rng c1 c9)) (Rng c1 c9)).

(** [\d\d\d\d], the pattern of [%Y]. *)
Definition re_Y : regex := Cat Dig (Cat Dig (Cat Dig Dig)).

(** The pattern of the format [%d.%m.%Y]:
    [(?P<d>...)\.(?P<m>...)\.(?P<Y>\d\d\d\d)]. *)
Definition format_regex : regex :=
  Cat (Grp "d" re_d)
    (Cat (Chr dot) (Cat (Grp "m" re_m) (Cat (Chr dot) (Grp "Y" re_Y)))).

Fixpoint group (name : string) (g : groupdict) : option str :=
  match g with
  | [] => None
  | (n, v) :: g' => if String.eqb n name then Some v else group name g'
  end.

Fixpoint digits_value (acc : Z) (s : str) : option Z :=
  match s with
  | [] => Some acc
  | c :: s' =>
      match Unicode.decimal_value c with
      | Some v => digits_value (10 * acc + Z.of_N v) s'
      | None => None
      end
  end.

Fixpoint lstrip (s : str) : str :=
  match s with
  | c :: s' => if N.eqb c space then lstrip s' else s
  | [] => []
  end.

(** [int(s)] on the texts the groups can hold: decimal digits of any
    script, after blanks. *)
Definition py_int (s : str) : option Z :=
  match lstrip s with
  | [] => None
  | ds => digits_value 0 ds
  end.

Definition no_match : str := lit "time data does not match format".
Definition unconverted : str := lit "unconverted data remains".

(** [datetime.strptime(value, "%d.%m.%Y")].  The time of day of the
    result is midnight and nothing reads it: the result is kept as the
    date. *)
Definition strptime (data_string : str) : outcome Calendar.date :=
  match pattern_match format_regex data_string with
  | None => Raise (ValueError no_match)
  | Some (rest, found_dict) =>
      if negb (Nat.eqb (length rest) 0) then Raise (ValueError unconverted)
      else
        match group "Y" found_dict, group "m" found_dict,
              group "d" found_dict with
        | Some tY, Some tm, Some td =>
            match py_int tY, py_int tm, py_int td with
            | Some y, Some m, Some d => Calendar.new_date y m d
            | _, _, _ => Raise (ValueError no_match)
            end
        | _, _, _ => Raise (ValueError no_match)
        end
  end.

End Strptime.

(** [strftime] hands [%Y] to the C library.  glibc prints the year as it
    is ([datetime(999, 1, 1).strftime("%Y")] is ["999"] under CPython 3.11
    on Linux); other C libraries, and CPython versions that normalise the
    year themselves, fill it with zeros to four digits. *)
Inductive year_style := Y_zero_filled | Y_plain.

Module Strftime.

Definition digit (n : Z) : N := Z.to_N (0x30 + n).

(** [%d] and [%m]: two digits. *)
Definition two_digits (n : Z) : str := [digit (n / 10); digit (n mod 10)].

Definition four_digits (n : Z) : str :=
  [digit (n / 1000); digit (n / 100 mod 10); digit (n / 10 mod 10);
   digit (n mod 10)].

(** The decimal numeral of a year. *)
Definition numeral (n : Z) : str :=
  if n <? 10 then [digit n]
  else if n <? 100 then two_digits n
  else if n <? 1000 then digit (n / 100) :: two_digits (n mod 100)
  else four_digits n.

(** [%Y]. *)
Definition year_text (ys : year_style) (y : Z) : str :=
  match ys with
  | Y_zero_filled => four_digits y
  | Y_plain => numeral y
  end.

(** [d.strftime("%d.%m.%Y")]. *)
Definition strftime (ys : year_style) (d : Calendar.date) : str :=
  two_digits (Calendar.day d) ++ [Strptime.dot]
  ++ two_digits (Calendar.month d) ++ [Strptime.dot]
  ++ year_text ys (Calendar.year d).

End Strftime.

Record Birthday := { Birthday_value : Calendar.date }.

Definition birthday_error : str := lit "Invalid date format. Use DD.MM.YYYY".

(** [Birthday.__init__]: every [ValueError] of [strptime] is replaced. *)
Definition Birthday_init (value : str) : outcome Birthday :=
  match Strptime.strptime value with
  | Ret datetime_obj => Ret {| Birthday_value := datetime_obj |}
  | Raise (ValueError _) => Raise (ValueError birthday_error)
  | Raise e => Raise e
  end.

(** [Birthday.__str__]. *)
Definition Birthday_str (ys : year_style) (b : Birthday) : str :=
  Strftime.strftime ys (Birthday_value b).

(** ** Records *)

(** A [Record] object: [self.name], [self.phones], [self.birthday]. *)
Record RecordObj := {
  name : Name;
  phones : list Phone;
  birthday : option Birthday
}.

Definition set_phones (ps : list Phone) (self : RecordObj) : RecordObj :=
  {| name := name self; phones := ps; birthday := birthday self |}.

Definition set_birthday (b : option Birthday) (self : RecordObj) : RecordObj :=
  {| name := name self; phones := phones self; birthday := b |}.

(** A method runs on its object, may change it and returns or raises:
    it yields the outcome and the object as the call leaves it. *)
Definition method (A : Type) := RecordObj -> outcome A * RecordObj.

(** [Record.__init__]: the fields of the new object. *)
Definition Record_init (nm : str) : RecordObj :=
  {| name := {| Name_value := nm |}; phones := []; birthday := None |}.

(** [list.remove(p)]: the first element equal to [p] is dropped.  A
    [Phone] is compared by identity and the loop of [remove_phone] hands
    over the first element with its value, so the element dropped is the
    first one with the value of [p]. *)
Fixpoint list_remove (p : Phone) (l : list Phone) : list Phone :=
  match l with
  | [] => []
  | x :: l' =>
      if str_eqb (Phone_value x) (Phone_value p) then l'
      else x :: list_remove p l'
  end.

Definition phone_not_found : str := lit "Phone number not found.".
Definition old_phone_not_found : str := lit "Old phone number not found.".
Definition invalid_new_phone : str := lit "Invalid new phone number: ".

(** The [for] loop of [remove_phone] over the phones still to visit. *)
Fixpoint remove_phone_loop (phone : str) (todo : list Phone) : method unit :=
  fun self =>
    match todo with
    | [] => (Raise (ValueError phone_not_found), self)
    | p :: todo' =>
        if str_eqb (Phone_value p) phone
        then (Ret tt, set_phones (list_remove p (phones self)) self)
        else remove_phone_loop phone todo' self
    end.

Definition remove_phone (phone : str) : method unit :=
  fun self => remove_phone_loop phone (phones self) self.

Definition add_phone (phone : str) : method unit :=
  fun self =>
    match Phone_init (PyStr phone) with
    | Ret p => (Ret tt, set_phones (phones self ++ [p]) self)
    | Raise e => (Raise e, self)
    end.

(** [find_phone]: the first phone with the value, or [None]. *)
Fixpoint find_phone_loop (phone_number : str) (todo : list Phone)
    : option Phone :=
  match todo with
  | [] => None
  | phone :: todo' =>
      if str_eqb (Phone_value phone) phone_number then Some phone
      else find_phone_loop phone_number todo'
  end.

Definition find_phone (phone_number : str) (self : RecordObj) : option Phone :=
  find_phone_loop phone_number (phones self).

Definition edit_phone (old_phone new_phone : str) : method unit :=
  fun self =>
    match find_phone old_phone self with
    | None => (Raise (ValueError old_phone_not_found), self)
    | Some _ =>
        match Phone_init (PyStr new_phone) with
        | Raise (ValueError e) =>
            (Raise (ValueError (invalid_new_phone ++ e)), self)
        | Raise e => (Raise e, self)
        | Ret new_phone_obj =>
            match remove_phone old_phone self with
            | (Raise e, self1) => (Raise e, self1)
            | (Ret _, self1) =>
                (Ret tt, set_phones (phones self1 ++ [new_phone_obj]) self1)
            end
        end
    end.

Definition add_birthday_method (value : str) : method unit :=
  fun self =>
    match Birthday_init value with
    | Ret b => (Ret tt, set_birthday (Some b) self)
    | Raise e => (Raise e, self)
    end.

(** ** The address book and the objects it refers to *)

(** A reference to a [Record] object. *)
Definition ref := nat.

(** The insertion-ordered dictionary [book.data]: a key occurs once;
    assigning to a key that is there keeps its place. *)
Definition dict := list (str * ref).

Fixpoint dict_get (d : dict) (k : str) : option ref :=
  match d with
  | [] => None
  | (k', v) :: d' => if str_eqb k' k then Some v else dict_get d' k
  end.

Fixpoint dict_set (d : dict) (k : str) (v : ref) : dict :=
  match d with
  | [] => [(k, v)]
  | (k', v') :: d' =>
      if str_eqb k' k then (k', v) :: d' else (k', v') :: dict_set d' k v
  end.

Definition dict_del (d : dict) (k : str) : dict :=
  List.filter (fun kv => negb (str_eqb (fst kv) k)) d.

Definition dict_contains (d : dict) (k : str) : bool :=
  match dict_get d k with Some _ => true | None => false end.

(** The objects of a run and the book: [heap] holds the [Record] objects
    by reference, [data] is [book.data]. *)
Record world := { heap : list RecordObj; data : dict }.

#[global] Instance RecordObj_inhabited : Inhabited RecordObj :=
  populate (Record_init []).

(** A command runs on the world and returns or raises. *)
Definition M (A : Type) := world -> outcome A * world.

Definition mbind_world {A B} (m : M A) (k : A -> M B) : M B :=
  fun w =>
    match m w with
    | (Ret a, w') => k a w'
    | (Raise e, w') => (Raise e, w')
    end.

Notation "'do!' x ':=' m 'in' k" := (mbind_world m (fun x => k))
  (at level 10, x name, m at level 100, k at level 200).

Definition ret {A} (a : A) : M A := fun w => (Ret a, w).

(** The object behind a reference.  References come from [new_record]
    only, so they are below the length of the heap. *)
Definition deref (w : world) (r : ref) : RecordObj := heap w !!! r.

(** [Record(name)]: a new object. *)
Definition new_record (nm : str) : M ref :=
  fun w =>
    (Ret (length (heap w)),
     {| heap := heap w ++ [Record_init nm]; data := data w |}).

(** A method call [record.m(...)] on the object behind [r]. *)
Definition call {A} (r : ref) (m : method A) : M A :=
  fun w =>
    let '(a, self') := m (deref w r) in
    (a, {| heap := <[r := self']> (heap w); data := data w |}).

Definition add_record (record : ref) : M unit :=
  fun w =>
    (Ret tt,
     {| heap := heap w;
        data :=
          dict_set (data w) (Name_value (name (deref w record))) record |}).

Definition find (nm : str) : M (option ref) :=
  fun w => (Ret (dict_get (data w) nm), w).

Definition delete (nm : str) : M unit :=
  fun w =>
    if dict_contains (data w) nm
    then (Ret tt, {| heap := heap w; data := dict_del (data w) nm |})
    else (Ret tt, w).

(** [book.data.values()], as objects. *)
Definition values (w : world) : list RecordObj :=
  map (fun kv => deref w (snd kv)) (data w).

(** ** Upcoming birthdays *)

(** An element of the result: [{"name": ..., "congratulation_date": ...}]. *)
Record greeting := { greeting_name : str; congratulation_date : str }.

(** The [for] loop of [get_upcoming_birthdays] over the records still to
    visit, with the list built so far. *)
Fixpoint upcoming_loop (ys : year_style) (today : Calendar.date)
    (todo : list RecordObj) (upcoming_birthdays : list greeting)
    : outcome (list greeting) :=
  match todo with
  | [] => Ret upcoming_birthdays
  | record :: todo' =>
      match birthday record with
      | None => upcoming_loop ys today todo' upcoming_birthdays
      | Some b =>
          let birthday := Birthday_value b in
          try! birthday_this_year :=
            Calendar.replace_year birthday (Calendar.year today) in
          try! birthday_this_year :=
            (if Calendar.date_ltb birthday_this_year today
             then Calendar.replace_year birthday_this_year
                    (Calendar.year today + 1)
             else Ret birthday_this_year) in
          let days_until_birthday :=
            Calendar.sub_days birthday_this_year today in
          if days_until_birthday <=? 7 then
            try! congratulation_date :=
              (if 5 <=? Calendar.weekday birthday_this_year
               then Calendar.add_days birthday_this_year
                      (7 - Calendar.weekday birthday_this_year)
               else Ret birthday_this_year) in
            upcoming_loop ys today todo'
              (upcoming_birthdays
               ++ [{| greeting_name := Name_value (name record);
                      congratulation_date :=
                        Strftime.strftime ys congratulation_date |}])
          else upcoming_loop ys today todo' upcoming_birthdays
      end
  end.

(** [get_upcoming_birthdays(book)]; [today] is what
    [datetime.today().date()] returns. *)
Definition get_upcoming_birthdays (ys : year_style) (today : Calendar.date)
    : M (list greeting) :=
  fun w => (upcoming_loop ys today (values w) [], w).

(** ** Command handlers *)

Definition give_me : str := lit "Give me name and phone please.".
Definition contact_not_found : str := lit "Contact not found.".
Definition invalid_format : str :=
  lit "Invalid command format. Use: [command] [name] [phone]".

(** The decorator [input_error]; an exception of another class goes
    through. *)
Definition input_error (func : M pyval) : M pyval :=
  fun w =>
    match func w with
    | (Ret v, w') => (Ret v, w')
    | (Raise (ValueError _), w') => (Ret (PyStr give_me), w')
    | (Raise KeyError, w') => (Ret (PyStr contact_not_found), w')
    | (Raise IndexError, w') => (Ret (PyStr invalid_format), w')
    | (Raise e, w') => (Raise e, w')
    end.

(** The functions under the decorator; a function that ends without
    [return] returns [None]. *)
Definition add_contact_func (args : list str) : M pyval :=
  match args with
  | [nm; phone] =>
      do! record := find nm in
      match record with
      | Some record =>
          do! _ := call record (add_phone phone) in
          ret (PyStr (lit "Phone added to existing contact."))
      | None =>
          do! record := new_record nm in
          do! _ := call record (add_phone phone) in
          do! _ := add_record record in
          ret (PyStr (lit "New contact added."))
      end
  | _ => ret PyNone
  end.

Definition change_contact_func (args : list str) : M pyval :=
  match args with
  | [nm; old_phone; new_phone] =>
      do! record := find nm in
      match record with
      | Some record =>
          do! _ := call record (edit_phone old_phone new_phone) in
          ret (PyStr (lit "Contact updated."))
      | None => ret (PyStr contact_not_found)
      end
  | _ => ret PyNone
  end.

Definition newline : str := [0x0a%N].

Definition show_phone_func (args : list str) : M pyval :=
  match args with
  | [nm] =>
      do! record := find nm in
      match record with
      | Some record =>
          fun w =>
            (Ret (PyStr (join newline
                           (map Phone_str (phones (deref w record))))),
             w)
      | None => ret PyNone
      end
  | _ => ret PyNone
  end.

Definition add_birthday_func (args : list str) : M pyval :=
  match args with
  | [nm; birthday] =>
      do! record := find nm in
      match record with
      | Some record =>
          do! _ := call record (add_birthday_method birthday) in
          ret (PyStr (lit "Birthday added."))
      | None => ret (PyStr contact_not_found)
      end
  | _ => ret PyNone
  end.

Definition show_birthday_func (ys : year_style) (args : list str) : M pyval :=
  match args with
  | [nm] =>
      do! record := find nm in
      fun w =>
        match record with
        | Some record =>
            match birthday (deref w record) with
            | Some b => (Ret (PyStr (Birthday_str ys b)), w)
            | None => (Ret (PyStr (lit "Birthday not found.")), w)
            end
        | None => (Ret (PyStr (lit "Birthday not found.")), w)
        end
  | _ => ret PyNone
  end.

Definition birthdays_func (ys : year_style) (today : Calendar.date)
    (args : list str) : M pyval :=
  do! upcoming_birthdays := get_upcoming_birthdays ys today in
  match upcoming_birthdays with
  | [] => ret (PyStr (lit "No upcoming birthdays in the next week."))
  | _ =>
      ret (PyStr
             (join newline
                (map (fun b => greeting_name b ++ lit ": "
                               ++ congratulation_date b)
                   upcoming_birthdays)))
  end.

Definition add_contact args := input_error (add_contact_func args).
Definition change_contact args := input_error (change_contact_func args).
Definition show_phone args := input_error (show_phone_func args).
Definition add_birthday args := input_error (add_birthday_func args).
Definition show_birthday ys args := input_error (show_birthday_func ys args).
Definition birthdays ys today args :=
  input_error (birthdays_func ys today args).

(** The world at the start of a run with no saved book. *)
Definition empty_world : world := {| heap := []; data := [] |}.

(** ** Notions of the specification *)

(** The text has the shape DD.MM.YYYY: two digits, a dot, two digits, a
    dot, four digits, all digits from ['0'] to ['9']. *)
Definition is_DDMMYYYY (s : str) : Prop :=
  exists d1 d2 m1 m2 y1 y2 y3 y4,
    s = [d1; d2; Strptime.dot; m1; m2; Strptime.dot; y1; y2; y3; y4]
    /\ forallb Unicode.is_ascii_digit [d1; d2; m1; m2; y1; y2; y3; y4] = true.

(** The month and day of [b] in the year [y], when that is a date. *)
Definition occurrence_in (y : Z) (b : Calendar.date) : option Calendar.date :=
  if (Calendar.MINYEAR <=? y) && (y <=? Calendar.MAXYEAR)
     && (1 <=? Calendar.month b) && (Calendar.month b <=? 12)
     && (1 <=? Calendar.day b)
     && (Calendar.day b <=? Calendar._days_in_month y (Calendar.month b))
  then Some {| Calendar.year := y; Calendar.month := Calendar.month b;
               Calendar.day := Calendar.day b |}
  else None.

(** The next occurrence of the birthday [b]: its month and day in the
    year of [today], or in the year after when that day is before
    [today]. *)
Definition next_occurrence (today b : Calendar.date) : option Calendar.date :=
  match occurrence_in (Calendar.year today) b with
  | Some d =>
      if Calendar.toordinal d <? Calendar.toordinal today
      then occurrence_in (Calendar.year today + 1) b
      else Some d
  | None => None
  end.

(** [d] is today or one of the seven days after it. *)
Definition within_week (today d : Calendar.date) : bool :=
  (0 <=? Calendar.toordinal d - Calendar.toordinal today)
  && (Calendar.toordinal d - Calendar.toordinal today <=? 7).

(** [m] is the following Monday of [d]: the one Monday among the seven
    days after [d]. *)
Definition following_monday (d m : Calendar.date) : Prop :=
  Calendar.valid_date m /\ Calendar.weekday m = 0
  /\ Calendar.toordinal d < Calendar.toordinal m <= Calendar.toordinal d + 7.

(** The day to congratulate on: a Saturday moves two days on and a Sunday
    one day, any other day stays. *)
Definition congratulation_day (d : Calendar.date) : Calendar.date :=
  if Calendar.weekday d =? 5
  then Calendar.fromordinal (Calendar.toordinal d + 2)
  else if Calendar.weekday d =? 6
       then Calendar.fromordinal (Calendar.toordinal d + 1)
       else d.

(** What the report says about one record, if anything. *)
Definition greeting_of (ys : year_style) (today : Calendar.date)
    (record : RecordObj) : option greeting :=
  match birthday record with
  | None => None
  | Some b =>
      match next_occurrence today (Birthday_value b) with
      | None => None
      | Some d =>
          if within_week today d
          then Some {| greeting_name := Name_value (name record);
                       congratulation_date :=
                         Strftime.strftime ys (congratulation_day d) |}
          else None
      end
  end.

(** No phone of the list has the value [v]. *)
Definition no_phone (v : str) (ps : list Phone) : Prop :=
  Forall (fun p => Phone_value p <> v) ps.

(** The invariant of a run: a name is a key of the book once, and every
    reference of the book is to an object of the heap. *)
Definition world_ok (w : world) : Prop :=
  NoDup (map fst (data w))
  /\ Forall (fun kv => (snd kv < length (heap w))%nat) (data w).

(** Ten Arabic-Indic digits, U+0660 to U+0669. *)
Definition arabic_indic_phone : str :=
  [0x660; 0x661; 0x662; 0x663; 0x664; 0x665; 0x666; 0x667; 0x668; 0x669]%N.

(** A record with three phones, the first and the last alike. *)
Definition sample_record : RecordObj :=
  {| name := {| Name_value := lit "ann" |};
     phones := [ {| Phone_value := lit "0501234567" |};
                 {| Phone_value := lit "0670000000" |};
                 {| Phone_value := lit "0501234567" |} ];
     birthday := None |}.

(** A book with the one contact of [sample_record]. *)
Definition sample_world : world :=
  {| heap := [sample_record]; data := [(lit "ann", 0%nat)] |}.

(** The value of the ASCII digit [c]. *)
Definition dv (c : N) : Z := Z.of_N (c - 0x30).

(** A contact with a name, phones and a birthday, and the book that
    holds this one contact. *)
Definition contact (nm : str) (ps : list Phone) (y m d : Z) : RecordObj :=
  {| name := {| Name_value := nm |}; phones := ps;
     birthday :=
       Some {| Birthday_value :=
                 {| Calendar.year := y; Calendar.month := m;
                    Calendar.day := d |} |} |}.

Definition book_of (record : RecordObj) : world :=
  {| heap := [record]; data := [(Name_value (name record), 0%nat)] |}.

Definition mkdate (y m d : Z) : Calendar.date :=
  {| Calendar.year := y; Calendar.month := m; Calendar.day := d |}.

(** The book after [add bob 0991112233] and
    [add-birthday bob 29.02.2024] on an empty book. *)
Definition leap_day_book : world :=
  snd (add_birthday [lit "bob"; lit "29.02.2024"]
         (snd (add_contact [lit "bob"; lit "0991112233"] empty_world))).

(** A book of three contacts, in the order ann, cid, bob: ann was born
    on 16.03.1990, cid has no birthday and bob was born on 12.03.1985. *)
Definition march_book : world :=
  {| heap := [ contact (lit "ann") [] 1990 3 16;
               {| name := {| Name_value := lit "cid" |}; phones := [];
                  birthday := None |};
               contact (lit "bob") [] 1985 3 12 ];
     data := [(lit "ann", 0%nat); (lit "cid", 1%nat); (lit "bob", 2%nat)] |}.

(** ** The rest of the program *)

(** [Record.__str__]. *)
Definition Record_str (ys : year_style) (self : RecordObj) : str :=
  lit "Contact name: " ++ Name_value (name self) ++ lit ", phones: "
  ++ join (lit "; ") (map Phone_value (phones self))
  ++ match birthday self with
     | Some b => lit ", birthday: " ++ Birthday_str ys b
     | None => []
     end.

Definition book_is_empty : str := lit "Address book is empty.".

(** [show_all]: [if book] asks for [len(book.data)]. *)
Definition show_all_func (ys : year_style) : M pyval :=
  fun w =>
    if negb (Nat.eqb (length (data w)) 0)
    then (Ret (PyStr (join newline (map (Record_str ys) (values w)))), w)
    else (Ret (PyStr book_is_empty), w).

Definition show_all ys := input_error (show_all_func ys).

(** The characters [str.isspace] takes for whitespace (UCD 14.0.0), as
    inclusive ranges; [str.split()] and [str.strip()] use the same set. *)
Definition whitespace_ranges : list (N * N) :=
  [ (0x9, 0xd); (0x1c, 0x20); (0x85, 0x85); (0xa0, 0xa0); (0x1680, 0x1680);
    (0x2000, 0x200a); (0x2028, 0x2029); (0x202f, 0x202f); (0x205f, 0x205f);
    (0x3000, 0x3000) ]%N.

Definition isspace (c : N) : bool := Unicode.in_ranges whitespace_ranges c.

(** [s.split()]: the maximal runs of characters that are not whitespace;
    [word] is the run being read. *)
Fixpoint split_loop (s : str) (word : str) : list str :=
  match s with
  | [] => match word with [] => [] | _ => [word] end
  | c :: s' =>
      if isspace c
      then match word with
           | [] => split_loop s' []
           | _ => word :: split_loop s' []
           end
      else split_loop s' (word ++ [c])
  end.

Definition split (s : str) : list str := split_loop s [].

Fixpoint str_lstrip (s : str) : str :=
  match s with
  | c :: s' => if isspace c then str_lstrip s' else s
  | [] => []
  end.

Definition str_rstrip (s : str) : str := rev (str_lstrip (rev s)).

(** [s.strip()]. *)
Definition str_strip (s : str) : str := str_rstrip (str_lstrip s).

Definition unpack_error : str :=
  lit "not enough values to unpack (expected at least 1, got 0)".

(** [parse_input]; [lower] is [str.lower], whose table of the Unicode
    character database is not spelled out. *)
Definition parse_input (lower : str -> str) (user_input : str)
    : outcome (str * list str) :=
  match split user_input with
  | [] => Raise (ValueError unpack_error)
  | cmd :: args => Ret (lower (str_strip cmd), args)
  end.

(** What the program does towards the terminal: it asks for a line with
    [input("Enter a command: ")] or calls [print] on a value. *)
Inductive event :=
| Prompt
| Print (v : pyval).

(** How [main] ends: the loop is left and [save_data(book)] runs; an
    exception leaves [main] and nothing is saved; or there is no line
    left to read, [input] raises [EOFError] and nothing is saved. *)
Inductive session_end :=
| Saved (book : world)
| Crashed (e : exn) (book : world)
| EndOfInput (book : world).

Definition say (v : pyval) (r : list event * session_end)
    : list event * session_end :=
  (Prompt :: Print v :: fst r, snd r).

(** [print(handler(args, book))] and the next turn of the loop. *)
Definition run_handler (h : M pyval) (book : world)
    (continue : world -> list event * session_end)
    : list event * session_end :=
  match h book with
  | (Ret v, book') => say v (continue book')
  | (Raise e, book') => ([Prompt], Crashed e book')
  end.

Definition good_bye : str := lit "Good bye!".
Definition invalid_command : str := lit "Invalid command.".

(** The [while True] loop of [main].  Each line typed comes with the date
    [datetime.today()] gives while the line is handled. *)
Fixpoint main_loop (lower : str -> str) (ys : year_style)
    (inputs : list (str * Calendar.date)) (book : world)
    : list event * session_end :=
  match inputs with
  | [] => ([Prompt], EndOfInput book)
  | (line, today) :: rest =>
      let user_input := lower (str_strip line) in
      match parse_input lower user_input with
      | Raise e => ([Prompt], Crashed e book)
      | Ret (command, args) =>
          if str_eqb command (lit "close") || str_eqb command (lit "exit")
          then ([Prompt; Print (PyStr good_bye)], Saved book)
          else if str_eqb command (lit "hello")
          then say (PyStr (lit "How can I help you?"))
                 (main_loop lower ys rest book)
          else if str_eqb command (lit "add")
          then run_handler (add_contact args) book (main_loop lower ys rest)
          else if str_eqb command (lit "change")
          then run_handler (change_contact args) book
                 (main_loop lower ys rest)
          else if str_eqb command (lit "phone")
          then run_handler (show_phone args) book (main_loop lower ys rest)
          else if str_eqb command (lit "all")
          then run_handler (show_all ys) book (main_loop lower ys rest)
          else if str_eqb command (lit "add-birthday")
          then run_handler (add_birthday args) book
                 (main_loop lower ys rest)
          else if str_eqb command (lit "show-birthday")
          then run_handler (show_birthday ys args) book
                 (main_loop lower ys rest)
          else if str_eqb command (lit "birthdays")
          then run_handler (birthdays ys today args) book
                 (main_loop lower ys rest)
          else say (PyStr invalid_command) (main_loop lower ys rest book)
      end
  end.

(** [main], from the book that [load_data()] returned. *)
Definition main (lower : str -> str) (ys : year_style)
    (inputs : list (str * Calendar.date)) (book : world)
    : list event * session_end :=
  let r := main_loop lower ys inputs book in
  (Print (PyStr (lit "Welcome to the assistant bot!")) :: fst r, snd r).

(** Every birthday kept in an object of the heap is a calendar date. *)
Definition birthdays_valid (w : world) : Prop :=
  Forall (fun record =>
            forall b, birthday record = Some b ->
                      Calendar.valid_date (Birthday_value b))
    (heap w).

(** A line is blank: it has whitespace only. *)
Definition blank (s : str) : Prop := forallb isspace s = true.

(** What [str.lower] does to a text of ASCII characters: the letters A
    to Z are lowered, other characters stay.  It stands for [lower] in
    the examples. *)
Definition ascii_lower (s : str) : str :=
  map (fun c => if N.leb 0x41 c && N.leb c 0x5a then (c + 0x20)%N else c) s.

(** A command answers: it returns, and what it returns is a [str] or
    [None]. *)
Definition answers (r : outcome pyval * world) : Prop :=
  match fst r with
  | Ret PyNone | Ret (PyStr _) => True
  | _ => False
  end.


(** A phone holds ten digits. *)
Definition phone_ok (p : Phone) : Prop :=
  length (Phone_value p) = 10%nat
  /\ forallb Unicode.isdigit (Phone_value p) = true.

(** Every phone kept in an object of the heap holds ten digits. *)
Definition phones_valid (w : world) : Prop :=
  Forall (fun record => Forall phone_ok (phones record)) (heap w).

(** A well-formed world. *)
Definition book_ok (w : world) : Prop :=
  world_ok w /\ birthdays_valid w /\ phones_valid w.

(** A word of [split]: not empty, and no character is whitespace. *)
Definition is_token (t : str) : Prop :=
  t <> [] /\ forallb (fun c => negb (isspace c)) t = true.

(** [command in ["close", "exit"]]. *)
Definition is_exit (c : str) : bool :=
  str_eqb c (lit "close") || str_eqb c (lit "exit").


(** The book a session ends with. *)
Definition final_book (e : session_end) : world :=
  match e with
  | Saved book | Crashed _ book | EndOfInput book => book
  end.

(** * Properties *)

(** ** Strings *)

Lemma str_eqb_eq (a b : str) : str_eqb a b = true <-> a = b.
Proof.
  revert b. induction a as [|x a IH]; intros [|y b]; simpl; try easy.
  rewrite andb_true_iff, N.eqb_eq, IH. split.
  - intros [-> ->]. reflexivity.
  - intros H. injection H as -> ->. auto.
Qed.

Lemma str_eqb_refl (a : str) : str_eqb a a = true.
Proof. apply str_eqb_eq. reflexivity. Qed.

Lemma str_eqb_neq (a b : str) : str_eqb a b = false <-> a <> b.
Proof.
  rewrite <- str_eqb_eq. destruct (str_eqb a b); split; congruence.
Qed.

(** ** Digits *)

Lemma ascii_digit_decimal_value (c : N) :
  Unicode.is_ascii_digit c = true ->
  Unicode.decimal_value c = Some (c - 0x30)%N.
Proof.
  unfold Unicode.is_ascii_digit. rewrite andb_true_iff, !N.leb_le.
  intros [Hlo Hhi].
  unfold Unicode.decimal_value, Unicode.decimal_runs, Unicode.run_value.
  replace (N.leb 0x30 c) with true by (symmetry; apply N.leb_le; exact Hlo).
  replace (N.ltb c (0x30 + 10)) with true by (symmetry; apply N.ltb_lt; lia).
  reflexivity.
Qed.

Lemma ascii_digit_isdigit (c : N) :
  Unicode.is_ascii_digit c = true -> Unicode.isdigit c = true.
Proof.
  intros H. unfold Unicode.isdigit, Unicode.isdecimal.
  rewrite (ascii_digit_decimal_value c H). reflexivity.
Qed.

Lemma ascii_digits_isdigit (s : str) :
  forallb Unicode.is_ascii_digit s = true -> forallb Unicode.isdigit s = true.
Proof.
  induction s as [|c s IH]; simpl; [reflexivity|].
  rewrite !andb_true_iff. intros [Hc Hs].
  split; [apply ascii_digit_isdigit; exact Hc | apply IH; exact Hs].
Qed.

Lemma str_isdigit_forallb (s : str) :
  length s = 10%nat -> str_isdigit s = forallb Unicode.isdigit s.
Proof. destruct s; [discriminate | reflexivity]. Qed.

(** ** Phone *)

Lemma Phone_init_str (s : str) :
  Phone_init (PyStr s)
  = if forallb Unicode.isdigit s && Nat.eqb (length s) 10
    then Ret {| Phone_value := s |}
    else Raise (ValueError phone_error).
Proof.
  unfold Phone_init. destruct (Nat.eqb (length s) 10) eqn:Hlen.
  - apply Nat.eqb_eq in Hlen. rewrite (str_isdigit_forallb s Hlen).
    destruct (forallb Unicode.isdigit s); reflexivity.
  - rewrite orb_true_r, andb_false_r. reflexivity.
Qed.

Lemma Phone_init_total (v : pyval) :
  (exists s, v = PyStr s /\ Phone_init v = Ret {| Phone_value := s |})
  \/ Phone_init v = Raise (ValueError phone_error).
Proof.
  destruct v as [| b | z | b | s]; try (right; reflexivity).
  rewrite Phone_init_str.
  destruct (forallb Unicode.isdigit s && Nat.eqb (length s) 10);
    [left; exists s; split; reflexivity | right; reflexivity].
Qed.

(** C3, as the code has it: [Phone(v)] succeeds if and only if [v] is a
    [str] of exactly 10 characters that [str.isdigit] takes for digits,
    which every ASCII digit is and other characters are too; on success
    the phone wraps [v] unchanged and renders as [v]; in every other case
    the constructor raises the [ValueError] with the message "Phone
    number must be a string containing exactly 10 digits.".  The
    constructor is a function of its argument alone. *)
Theorem Phone_init_spec (v : pyval) :
  ((exists p, Phone_init v = Ret p)
   <-> exists s, v = PyStr s /\ length s = 10%nat
                 /\ forallb Unicode.isdigit s = true)
  /\ (forall p, Phone_init v = Ret p ->
        v = PyStr (Phone_value p) /\ Phone_str p = Phone_value p)
  /\ ((~ exists p, Phone_init v = Ret p) ->
        Phone_init v = Raise (ValueError phone_error))
  /\ (forall s, v = PyStr s -> length s = 10%nat ->
        forallb Unicode.is_ascii_digit s = true ->
        Phone_init v = Ret {| Phone_value := s |}).
Proof.
  split; [|split; [|split]].
  - split.
    + intros [p Hp]. destruct v as [| b | z | b | s]; try discriminate.
      exists s. rewrite Phone_init_str in Hp.
      destruct (forallb Unicode.isdigit s) eqn:Hd; [|discriminate].
      destruct (Nat.eqb (length s) 10) eqn:Hl; [|discriminate].
      apply Nat.eqb_eq in Hl. auto.
    + intros (s & -> & Hl & Hd). exists {| Phone_value := s |}.
      rewrite Phone_init_str, Hd, Hl. reflexivity.
  - intros p Hp. destruct (Phone_init_total v) as [(s & -> & Hs) | Hr].
    + rewrite Hs in Hp. injection Hp as <-. auto.
    + rewrite Hr in Hp. discriminate.
  - intros Hno. destruct (Phone_init_total v) as [(s & -> & Hs) | Hr].
    + exfalso. apply Hno. eauto.
    + exact Hr.
  - intros s -> Hl Hd. rewrite Phone_init_str, Hl.
    rewrite (ascii_digits_isdigit s Hd). reflexivity.
Qed.

Lemma Phone_init_spec_witness :
  Phone_init (PyStr (lit "0501234567"))
  = Ret {| Phone_value := lit "0501234567" |}.
Proof.
  apply (proj2 (proj2 (proj2 (Phone_init_spec (PyStr (lit "0501234567")))))).
  - reflexivity.
  - reflexivity.
  - reflexivity.
Defined.

(** C3 as stated fails: a string of ten Arabic-Indic digits holds no
    ASCII digit and yet makes a [Phone]. *)
Lemma Phone_init_accepts_non_ascii_digits :
  Phone_init (PyStr arabic_indic_phone)
  = Ret {| Phone_value := arabic_indic_phone |}
  /\ length arabic_indic_phone = 10%nat
  /\ forallb (fun c => negb (Unicode.is_ascii_digit c)) arabic_indic_phone
     = true.
Proof. repeat split. Qed.

(** ** Record *)

(** The phones split at the first one with the value [v], if there is
    one. *)
Lemma first_phone_split (v : str) (ps : list Phone) :
  no_phone v ps
  \/ exists pre p post,
       ps = pre ++ p :: post /\ no_phone v pre /\ Phone_value p = v.
Proof.
  induction ps as [|q ps IH].
  - left. constructor.
  - destruct (str_eqb (Phone_value q) v) eqn:Hq.
    + right. exists [], q, ps. apply str_eqb_eq in Hq.
      split; [reflexivity | split; [constructor | exact Hq]].
    + apply str_eqb_neq in Hq.
      destruct IH as [Hno | (pre & p & post & -> & Hpre & Hp)].
      * left. constructor; assumption.
      * right. exists (q :: pre), p, post.
        split; [reflexivity | split; [constructor; assumption | exact Hp]].
Qed.

Lemma list_remove_first (p : Phone) (pre post : list Phone) :
  no_phone (Phone_value p) pre ->
  list_remove p (pre ++ p :: post) = pre ++ post.
Proof.
  induction pre as [|q pre IH]; intros Hno; simpl.
  - rewrite str_eqb_refl. reflexivity.
  - inversion Hno as [|? ? Hq Hpre]; subst.
    apply str_eqb_neq in Hq. rewrite Hq. f_equal. apply IH. exact Hpre.
Qed.

Lemma remove_phone_loop_none (v : str) (todo : list Phone) (self : RecordObj) :
  no_phone v todo ->
  remove_phone_loop v todo self = (Raise (ValueError phone_not_found), self).
Proof.
  induction todo as [|q todo IH]; intros Hno; simpl; [reflexivity|].
  inversion Hno as [|? ? Hq Hrest]; subst.
  apply str_eqb_neq in Hq. rewrite Hq. apply IH. exact Hrest.
Qed.

Lemma remove_phone_loop_first (v : str) (pre post : list Phone) (p : Phone)
    (self : RecordObj) :
  no_phone v pre -> Phone_value p = v ->
  remove_phone_loop v (pre ++ p :: post) self
  = (Ret tt, set_phones (list_remove p (phones self)) self).
Proof.
  intros Hno Hp. induction pre as [|q pre IH]; simpl.
  - rewrite Hp, str_eqb_refl. reflexivity.
  - inversion Hno as [|? ? Hq Hpre]; subst.
    apply str_eqb_neq in Hq. rewrite Hq. apply IH. exact Hpre.
Qed.

Lemma remove_phone_none (v : str) (self : RecordObj) :
  no_phone v (phones self) ->
  remove_phone v self = (Raise (ValueError phone_not_found), self).
Proof. apply remove_phone_loop_none. Qed.

Lemma remove_phone_first (v : str) (pre post : list Phone) (p : Phone)
    (self : RecordObj) :
  phones self = pre ++ p :: post -> no_phone v pre -> Phone_value p = v ->
  remove_phone v self = (Ret tt, set_phones (pre ++ post) self).
Proof.
  intros Hps Hno Hp. unfold remove_phone. rewrite Hps at 1.
  rewrite (remove_phone_loop_first v pre post p self Hno Hp).
  rewrite Hps, list_remove_first by (rewrite Hp; exact Hno). reflexivity.
Qed.

Lemma find_phone_none (v : str) (self : RecordObj) :
  no_phone v (phones self) <-> find_phone v self = None.
Proof.
  unfold find_phone. induction (phones self) as [|q ps IH]; simpl.
  - split; [reflexivity | constructor].
  - destruct (str_eqb (Phone_value q) v) eqn:Hq.
    + apply str_eqb_eq in Hq. split; [|discriminate].
      intros Hno. inversion Hno; subst. contradiction.
    + apply str_eqb_neq in Hq. rewrite <- IH. split.
      * intros Hno. inversion Hno; assumption.
      * intros Hno. constructor; assumption.
Qed.

Lemma find_phone_first (v : str) (pre post : list Phone) (p : Phone)
    (self : RecordObj) :
  phones self = pre ++ p :: post -> no_phone v pre -> Phone_value p = v ->
  find_phone v self = Some p.
Proof.
  intros Hps Hno Hp. unfold find_phone. rewrite Hps. clear Hps.
  induction pre as [|q pre IH]; simpl.
  - rewrite Hp, str_eqb_refl. reflexivity.
  - inversion Hno as [|? ? Hq Hpre]; subst.
    apply str_eqb_neq in Hq. rewrite Hq. apply IH. exact Hpre.
Qed.

(** C9: [remove_phone(v)] drops exactly the first phone with the value
    [v]: the phones of the record after the call are the phones before
    it and the phones after it (later phones with the value [v] among
    them) in their order, and the name and the birthday stay; when no
    phone has the value it raises the [ValueError] "Phone number not
    found." and leaves the record as it was.  One of the two cases always
    applies. *)
Theorem remove_phone_spec (v : str) (self : RecordObj) :
  (forall pre p post,
      phones self = pre ++ p :: post -> no_phone v pre -> Phone_value p = v ->
      remove_phone v self = (Ret tt, set_phones (pre ++ post) self)
      /\ fst (remove_phone v self) = Ret tt
      /\ phones (snd (remove_phone v self)) = pre ++ post
      /\ name (snd (remove_phone v self)) = name self
      /\ birthday (snd (remove_phone v self)) = birthday self)
  /\ (no_phone v (phones self) ->
      remove_phone v self = (Raise (ValueError phone_not_found), self))
  /\ (no_phone v (phones self)
      \/ exists pre p post,
           phones self = pre ++ p :: post /\ no_phone v pre
           /\ Phone_value p = v)
  /\ phone_not_found = lit "Phone number not found.".
Proof.
  split; [|split; [|split]].
  - intros pre p post Hps Hpre Hp.
    rewrite (remove_phone_first v pre post p self Hps Hpre Hp).
    cbn [fst snd set_phones phones name birthday]. repeat split.
  - apply remove_phone_none.
  - apply first_phone_split.
  - reflexivity.
Qed.

Lemma remove_phone_spec_witness :
  (remove_phone (lit "0670000000") sample_record
   = (Ret tt,
      set_phones ([ {| Phone_value := lit "0501234567" |} ]
                  ++ [ {| Phone_value := lit "0501234567" |} ])
        sample_record)
   /\ fst (remove_phone (lit "0670000000") sample_record) = Ret tt
   /\ phones (snd (remove_phone (lit "0670000000") sample_record))
      = [ {| Phone_value := lit "0501234567" |} ]
        ++ [ {| Phone_value := lit "0501234567" |} ]
   /\ name (snd (remove_phone (lit "0670000000") sample_record))
      = name sample_record
   /\ birthday (snd (remove_phone (lit "0670000000") sample_record))
      = birthday sample_record)
  /\ phones (snd (remove_phone (lit "0501234567") sample_record))
     = [] ++ [ {| Phone_value := lit "0670000000" |};
               {| Phone_value := lit "0501234567" |} ]
  /\ remove_phone (lit "0000000000") sample_record
     = (Raise (ValueError phone_not_found), sample_record).
Proof.
  split; [|split].
  - apply (proj1 (remove_phone_spec (lit "0670000000") sample_record)
             [ {| Phone_value := lit "0501234567" |} ]
             {| Phone_value := lit "0670000000" |}
             [ {| Phone_value := lit "0501234567" |} ]).
    + reflexivity.
    + repeat constructor. intros H. vm_compute in H. discriminate.
    + reflexivity.
  - apply (proj1 (remove_phone_spec (lit "0501234567") sample_record)
             [] {| Phone_value := lit "0501234567" |}
             [ {| Phone_value := lit "0670000000" |};
               {| Phone_value := lit "0501234567" |} ]).
    + reflexivity.
    + constructor.
    + reflexivity.
  - apply (proj1 (proj2 (remove_phone_spec (lit "0000000000") sample_record))).
    repeat constructor; intros H; vm_compute in H; discriminate.
Defined.

(** A failed [edit_phone] leaves the record as it was. *)
Lemma edit_phone_raise_unchanged (old_phone new_phone : str)
    (self self' : RecordObj) (e : exn) :
  edit_phone old_phone new_phone self = (Raise e, self') -> self' = self.
Proof.
  unfold edit_phone. destruct (find_phone old_phone self) as [p|] eqn:Hf.
  - destruct (Phone_init (PyStr new_phone)) as [q | [msg | | | |]].
    + destruct (first_phone_split old_phone (phones self))
        as [Hno | (pre & p' & post & Hps & Hpre & Hp)].
      * apply find_phone_none in Hno. congruence.
      * rewrite (remove_phone_first _ _ _ _ _ Hps Hpre Hp). discriminate.
    + intros H. injection H as _ <-. reflexivity.
    + intros H. injection H as _ <-. reflexivity.
    + intros H. injection H as _ <-. reflexivity.
    + intros H. injection H as _ <-. reflexivity.
    + intros H. injection H as _ <-. reflexivity.
  - intros H. injection H as _ <-. reflexivity.
Qed.

(** C2: [edit_phone(old, new)] raises the [ValueError] "Old phone number
    not found." when no stored phone has the value [old], whatever [new]
    is; when [old] is stored and [new] does not make a [Phone] it raises
    the [ValueError] "Invalid new phone number: " followed by the message
    of the constructor; whenever it raises, the record (name, phones and
    birthday) is as before the call; a call that changes the record had
    [new] accepted by the constructor first, and then the first phone
    with the value [old] is dropped and the new phone is put at the
    end. *)
Theorem edit_phone_spec (old_phone new_phone : str) (self : RecordObj) :
  (no_phone old_phone (phones self) ->
     edit_phone old_phone new_phone self
     = (Raise (ValueError old_phone_not_found), self))
  /\ (~ no_phone old_phone (phones self) ->
      (~ exists p, Phone_init (PyStr new_phone) = Ret p) ->
      edit_phone old_phone new_phone self
      = (Raise (ValueError (invalid_new_phone ++ phone_error)), self))
  /\ (forall e self',
        edit_phone old_phone new_phone self = (Raise e, self') -> self' = self)
  /\ (forall r self',
        edit_phone old_phone new_phone self = (r, self') -> self' <> self ->
        exists p, Phone_init (PyStr new_phone) = Ret p)
  /\ (forall pre p post q,
        phones self = pre ++ p :: post -> no_phone old_phone pre ->
        Phone_value p = old_phone -> Phone_init (PyStr new_phone) = Ret q ->
        edit_phone old_phone new_phone self
        = (Ret tt, set_phones (pre ++ post ++ [q]) self)).
Proof.
  split; [|split; [|split; [|split]]].
  - intros Hno. unfold edit_phone.
    apply find_phone_none in Hno. rewrite Hno. reflexivity.
  - intros Hsome Hbad. unfold edit_phone.
    destruct (find_phone old_phone self) as [p|] eqn:Hf.
    + destruct (Phone_init_total (PyStr new_phone)) as [(s & _ & Hs) | Hr].
      * exfalso. apply Hbad. eauto.
      * rewrite Hr. reflexivity.
    + exfalso. apply Hsome. apply find_phone_none. exact Hf.
  - intros e self'. apply edit_phone_raise_unchanged.
  - intros r self' Hrun Hne.
    destruct (Phone_init_total (PyStr new_phone)) as [(s & _ & Hs) | Hr];
      [eauto|].
    exfalso. apply Hne. revert Hrun. unfold edit_phone.
    destruct (find_phone old_phone self); rewrite ?Hr;
      intros H; injection H as _ <-; reflexivity.
  - intros pre p post q Hps Hpre Hp Hq. unfold edit_phone.
    rewrite (find_phone_first _ _ _ _ _ Hps Hpre Hp), Hq.
    rewrite (remove_phone_first _ _ _ _ _ Hps Hpre Hp).
    unfold set_phones. simpl. rewrite <- app_assoc. reflexivity.
Qed.

Lemma edit_phone_spec_witness :
  edit_phone (lit "0000000000") (lit "0991112233") sample_record
  = (Raise (ValueError old_phone_not_found), sample_record)
  /\ edit_phone (lit "0670000000") (lit "12ab") sample_record
     = (Raise (ValueError (invalid_new_phone ++ phone_error)), sample_record)
  /\ edit_phone (lit "0501234567") (lit "0991112233") sample_record
     = (Ret tt,
        set_phones [ {| Phone_value := lit "0670000000" |};
                     {| Phone_value := lit "0501234567" |};
                     {| Phone_value := lit "0991112233" |} ] sample_record).
Proof.
  split; [|split].
  - apply (proj1 (edit_phone_spec (lit "0000000000") (lit "0991112233")
                    sample_record)).
    repeat constructor; intros H; vm_compute in H; discriminate.
  - apply (proj1 (proj2 (edit_phone_spec (lit "0670000000") (lit "12ab")
                           sample_record))).
    + intros Hno. inversion Hno as [|? ? _ Hrest]; subst.
      inversion Hrest as [|? ? Hq _]; subst. apply Hq. reflexivity.
    + intros [p Hp]. vm_compute in Hp. discriminate.
  - apply (proj2 (proj2 (proj2 (proj2
             (edit_phone_spec (lit "0501234567") (lit "0991112233")
                sample_record))))
             [] {| Phone_value := lit "0501234567" |}
             [ {| Phone_value := lit "0670000000" |};
               {| Phone_value := lit "0501234567" |} ]
             {| Phone_value := lit "0991112233" |}).
    + reflexivity.
    + constructor.
    + reflexivity.
    + reflexivity.
Defined.

(** ** The dictionary of the book *)

Lemma dict_get_None (d : dict) (k : str) :
  dict_get d k = None <-> ~ In k (map fst d).
Proof.
  induction d as [|[k' v] d IH]; simpl.
  - split; [intros _ [] | reflexivity].
  - destruct (str_eqb k' k) eqn:Hk.
    + apply str_eqb_eq in Hk. split; [discriminate | intros H; exfalso; auto].
    + apply str_eqb_neq in Hk. rewrite IH. split.
      * intros H [Heq | Hin]; auto.
      * intros H Hin. auto.
Qed.

Lemma dict_get_set_eq (d : dict) (k : str) (v : ref) :
  dict_get (dict_set d k v) k = Some v.
Proof.
  induction d as [|[k' v'] d IH]; simpl.
  - rewrite str_eqb_refl. reflexivity.
  - destruct (str_eqb k' k) eqn:Hk; simpl; rewrite Hk; [reflexivity | exact IH].
Qed.

Lemma dict_get_set_ne (d : dict) (k k' : str) (v : ref) :
  k' <> k -> dict_get (dict_set d k v) k' = dict_get d k'.
Proof.
  intros Hne. induction d as [|[k0 v0] d IH]; simpl.
  - apply str_eqb_neq in Hne.
    destruct (str_eqb k k') eqn:Hk; [|reflexivity].
    apply str_eqb_eq in Hk. apply str_eqb_neq in Hne. congruence.
  - destruct (str_eqb k0 k) eqn:Hk; simpl.
    + apply str_eqb_eq in Hk. subst k0.
      destruct (str_eqb k k') eqn:Hk'; [|reflexivity].
      apply str_eqb_eq in Hk'. congruence.
    + destruct (str_eqb k0 k'); [reflexivity | exact IH].
Qed.

Lemma dict_set_new (d : dict) (k : str) (v : ref) :
  dict_get d k = None -> dict_set d k v = d ++ [(k, v)].
Proof.
  induction d as [|[k' v'] d IH]; simpl; [reflexivity|].
  destruct (str_eqb k' k); [discriminate|]. intros H. rewrite IH by exact H.
  reflexivity.
Qed.

Lemma dict_set_keys (d : dict) (k : str) (v v0 : ref) :
  dict_get d k = Some v0 -> map fst (dict_set d k v) = map fst d.
Proof.
  induction d as [|[k' v'] d IH]; simpl; [discriminate|].
  destruct (str_eqb k' k); simpl; [reflexivity|].
  intros H. rewrite IH by exact H. reflexivity.
Qed.

Lemma dict_get_del_eq (d : dict) (k : str) : dict_get (dict_del d k) k = None.
Proof.
  unfold dict_del. induction d as [|[k' v'] d IH]; simpl; [reflexivity|].
  destruct (str_eqb k' k) eqn:Hk; simpl; [exact IH|]. rewrite Hk. exact IH.
Qed.

Lemma dict_get_del_ne (d : dict) (k k' : str) :
  k' <> k -> dict_get (dict_del d k) k' = dict_get d k'.
Proof.
  intros Hne. unfold dict_del.
  induction d as [|[k0 v0] d IH]; simpl; [reflexivity|].
  destruct (str_eqb k0 k) eqn:Hk; simpl.
  - apply str_eqb_eq in Hk. subst k0.
    destruct (str_eqb k k') eqn:Hk'; [|exact IH].
    apply str_eqb_eq in Hk'. congruence.
  - destruct (str_eqb k0 k'); [reflexivity | exact IH].
Qed.

Lemma dict_get_Some_In (d : dict) (k : str) (v : ref) :
  dict_get d k = Some v -> In k (map fst d).
Proof.
  induction d as [|[k' v'] d IH]; simpl; [discriminate|].
  destruct (str_eqb k' k) eqn:Hk.
  - apply str_eqb_eq in Hk. auto.
  - auto.
Qed.

Lemma dict_contains_In (d : dict) (k : str) :
  dict_contains d k = true <-> In k (map fst d).
Proof.
  unfold dict_contains. destruct (dict_get d k) eqn:Hg.
  - split; [|reflexivity]. intros _. eapply dict_get_Some_In. exact Hg.
  - apply dict_get_None in Hg. split; [discriminate | contradiction].
Qed.

(** ** AddressBook *)

(** C8: [find(name)] returns [None] when no record is keyed by [name];
    [add_record(r)] stores the reference [r] under the name string of its
    record, leaving the objects and every other key alone (a key that is
    there is overwritten in its place, a new key comes last), and a
    [find] with that name then returns [r] itself; [delete(name)] takes
    the entry of a key that is there away, other keys alone, and does
    nothing and raises nothing when the key is not there. *)
Theorem AddressBook_spec (w : world) :
  (forall nm, ~ In nm (map fst (data w)) -> find nm w = (Ret None, w))
  /\ (forall r,
        let key := Name_value (name (deref w r)) in
        let w' := snd (add_record r w) in
        fst (add_record r w) = Ret tt
        /\ heap w' = heap w
        /\ find key w' = (Ret (Some r), w')
        /\ (forall nm, nm <> key ->
             dict_get (data w') nm = dict_get (data w) nm)
        /\ (In key (map fst (data w)) ->
            map fst (data w') = map fst (data w))
        /\ (~ In key (map fst (data w)) -> data w' = data w ++ [(key, r)]))
  /\ (forall nm, In nm (map fst (data w)) ->
        let w' := snd (delete nm w) in
        fst (delete nm w) = Ret tt
        /\ heap w' = heap w
        /\ find nm w' = (Ret None, w')
        /\ forall nm', nm' <> nm ->
             dict_get (data w') nm' = dict_get (data w) nm')
  /\ (forall nm, ~ In nm (map fst (data w)) -> delete nm w = (Ret tt, w)).
Proof.
  split; [|split; [|split]].
  - intros nm Hnm. unfold find. apply dict_get_None in Hnm. rewrite Hnm.
    reflexivity.
  - intros r key w'. subst key w'. unfold add_record, find. simpl.
    rewrite dict_get_set_eq. do 3 (split; [reflexivity|]).
    split; [intros nm Hne; apply dict_get_set_ne; exact Hne|]. split.
    + intros Hin. apply dict_contains_In in Hin. unfold dict_contains in Hin.
      destruct (dict_get (data w) (Name_value (name (deref w r))))
        as [v0|] eqn:Hg; [|discriminate].
      apply (dict_set_keys _ _ _ v0 Hg).
    + intros Hnot. apply dict_set_new. apply dict_get_None. exact Hnot.
  - intros nm Hin w'. subst w'. unfold delete, find.
    apply dict_contains_In in Hin. rewrite Hin. simpl.
    rewrite dict_get_del_eq. repeat split.
    intros nm' Hne. apply dict_get_del_ne. exact Hne.
  - intros nm Hnm. unfold delete.
    destruct (dict_contains (data w) nm) eqn:Hc; [|reflexivity].
    apply dict_contains_In in Hc. contradiction.
Qed.

Lemma AddressBook_spec_witness :
  find (lit "bob") sample_world = (Ret None, sample_world)
  /\ fst (delete (lit "ann") sample_world) = Ret tt
  /\ delete (lit "bob") sample_world = (Ret tt, sample_world).
Proof.
  split; [|split].
  - apply (proj1 (AddressBook_spec sample_world)).
    intros [H | []]. vm_compute in H. discriminate.
  - apply (proj1 (proj2 (proj2 (AddressBook_spec sample_world)))
             (lit "ann")).
    left. reflexivity.
  - apply (proj2 (proj2 (proj2 (AddressBook_spec sample_world)))).
    intros [H | []]. vm_compute in H. discriminate.
Defined.

(** ** Commands *)

(** C7: [add] with a name and a phone the constructor accepts.  When the
    name is a key of the book, the phone is put at the end of the phones
    of the record kept under it, and the book has the keys it had, in the
    order it had them; when it is not, a new record with the name and the
    one phone is made and kept under the name, after the keys that were
    there. *)
Theorem add_contact_spec (w : world) (nm phone : str) (p : Phone) :
  Phone_init (PyStr phone) = Ret p ->
  (forall r, dict_get (data w) nm = Some r ->
     let w' := snd (add_contact [nm; phone] w) in
     add_contact [nm; phone] w
     = (Ret (PyStr (lit "Phone added to existing contact.")),
        {| heap := <[r := set_phones (phones (deref w r) ++ [p]) (deref w r)]>
                     (heap w);
           data := data w |})
     /\ length (data w') = length (data w)
     /\ ((r < length (heap w))%nat ->
         phones (deref w' r) = phones (deref w r) ++ [p]
         /\ name (deref w' r) = name (deref w r)
         /\ birthday (deref w' r) = birthday (deref w r)))
  /\ (dict_get (data w) nm = None ->
      add_contact [nm; phone] w
      = (Ret (PyStr (lit "New contact added.")),
         {| heap := heap w
                    ++ [ {| name := {| Name_value := nm |}; phones := [p];
                            birthday := None |} ];
            data := data w ++ [(nm, length (heap w))] |})).
Proof.
  intros Hp. split.
  - intros r Hr w'.
    assert (Hrun : add_contact [nm; phone] w
      = (Ret (PyStr (lit "Phone added to existing contact.")),
         {| heap := <[r := set_phones (phones (deref w r) ++ [p]) (deref w r)]>
                      (heap w);
            data := data w |})).
    { unfold add_contact, input_error, add_contact_func, mbind_world, find,
        call, add_phone, ret.
      rewrite Hr, Hp. reflexivity. }
    subst w'. rewrite Hrun. simpl. split; [reflexivity|].
    split; [reflexivity|].
    intros Hlt. unfold deref. simpl.
    rewrite list_lookup_total_insert_eq by exact Hlt. auto.
  - intros Hnone.
    unfold add_contact, input_error, add_contact_func, mbind_world, find,
      new_record, call, add_phone, add_record, ret, deref.
    rewrite Hnone, Hp. simpl.
    rewrite list_lookup_total_middle by reflexivity.
    rewrite (insert_app_r_alt (heap w)) by reflexivity.
    rewrite Nat.sub_diag. simpl.
    rewrite list_lookup_total_middle by reflexivity. simpl.
    rewrite dict_set_new by exact Hnone. reflexivity.
Qed.

Lemma add_contact_spec_witness :
  add_contact [lit "bob"; lit "0991112233"] sample_world
  = (Ret (PyStr (lit "New contact added.")),
     {| heap := [ sample_record;
                  {| name := {| Name_value := lit "bob" |};
                     phones := [ {| Phone_value := lit "0991112233" |} ];
                     birthday := None |} ];
        data := [(lit "ann", 0%nat); (lit "bob", 1%nat)] |})
  /\ length (data (snd (add_contact [lit "ann"; lit "0991112233"]
                          sample_world)))
     = length (data sample_world).
Proof.
  split.
  - apply (proj2 (add_contact_spec sample_world (lit "bob")
                    (lit "0991112233")
                    {| Phone_value := lit "0991112233" |} eq_refl)).
    reflexivity.
  - apply (proj1 (add_contact_spec sample_world (lit "ann")
                    (lit "0991112233")
                    {| Phone_value := lit "0991112233" |} eq_refl)
             0%nat eq_refl).
Defined.

(** C10: [show_phone] with one argument that is no key of the book
    returns [None], not a message, and leaves the world alone; so does
    [add_contact] with any number of arguments other than two. *)
Theorem handlers_return_None (w : world) :
  (forall nm, ~ In nm (map fst (data w)) ->
     show_phone [nm] w = (Ret PyNone, w))
  /\ (forall args,
        length args <> 2%nat -> add_contact args w = (Ret PyNone, w)).
Proof.
  split.
  - intros nm Hnm. apply dict_get_None in Hnm.
    unfold show_phone, input_error, show_phone_func, mbind_world, find, ret.
    rewrite Hnm. reflexivity.
  - intros args Hlen. unfold add_contact, input_error, add_contact_func.
    destruct args as [|a [|b [|c args]]]; try reflexivity.
    exfalso. apply Hlen. reflexivity.
Qed.

Lemma handlers_return_None_witness :
  show_phone [lit "bob"] sample_world = (Ret PyNone, sample_world)
  /\ add_contact [lit "bob"] sample_world = (Ret PyNone, sample_world).
Proof.
  split.
  - apply (proj1 (handlers_return_None sample_world)).
    intros [H | []]. vm_compute in H. discriminate.
  - apply (proj2 (handlers_return_None sample_world)). simpl. lia.
Defined.

(** C6 on the code: with an argument list of the wrong length each of the
    five handlers returns [None]; the message for a wrong format is not
    what comes back. *)
Theorem wrong_arity_returns_None (w : world) (ys : year_style) :
  add_contact [] w = (Ret PyNone, w)
  /\ change_contact [lit "ann"] w = (Ret PyNone, w)
  /\ show_phone [] w = (Ret PyNone, w)
  /\ add_birthday [lit "ann"] w = (Ret PyNone, w)
  /\ show_birthday ys [] w = (Ret PyNone, w)
  /\ PyNone <> PyStr invalid_format.
Proof. repeat split. discriminate. Qed.

(** ** The invariant of a run *)

Lemma dict_set_keys_new (d : dict) (k : str) (v : ref) :
  dict_get d k = None -> map fst (dict_set d k v) = map fst d ++ [k].
Proof. intros H. rewrite dict_set_new by exact H. apply map_app. Qed.

Lemma dict_set_NoDup (d : dict) (k : str) (v : ref) :
  NoDup (map fst d) -> NoDup (map fst (dict_set d k v)).
Proof.
  intros Hnd. destruct (dict_get d k) as [v0|] eqn:Hg.
  - rewrite (dict_set_keys d k v v0 Hg). exact Hnd.
  - rewrite (dict_set_keys_new d k v Hg).
    apply NoDup_app. split; [exact Hnd|]. split.
    + intros x Hx Hk. apply list_elem_of_In in Hx.
      apply list_elem_of_singleton in Hk. subst x.
      apply dict_get_None in Hg. contradiction.
    + apply NoDup_singleton.
Qed.

Lemma dict_set_refs (d : dict) (k : str) (v : ref) (n : nat) :
  Forall (fun kv => (snd kv < n)%nat) d -> (v < n)%nat ->
  Forall (fun kv => (snd kv < n)%nat) (dict_set d k v).
Proof.
  intros Hd Hv. induction d as [|[k' v'] d IH]; simpl.
  - repeat constructor. exact Hv.
  - inversion Hd as [|? ? Hx Hrest]; subst.
    destruct (str_eqb k' k); constructor; auto.
Qed.

Lemma call_ok {A} (r : ref) (m : method A) (w : world) :
  world_ok w -> world_ok (snd (call r m w)).
Proof.
  intros [Hnd Hrefs]. unfold call. destruct (m (deref w r)) as [a self'].
  split; [exact Hnd|]. simpl. rewrite length_insert. exact Hrefs.
Qed.

Lemma new_record_ok (nm : str) (w : world) :
  world_ok w ->
  world_ok (snd (new_record nm w))
  /\ fst (new_record nm w) = Ret (length (heap w))
  /\ (length (heap w) < length (heap (snd (new_record nm w))))%nat.
Proof.
  intros [Hnd Hrefs]. unfold new_record. simpl. rewrite length_app. simpl.
  split; [|split; [reflexivity | lia]].
  split; [exact Hnd|]. simpl. rewrite length_app. simpl.
  eapply Forall_impl; [exact Hrefs|]. intros kv H. simpl in H. lia.
Qed.

Lemma add_record_ok (r : ref) (w : world) :
  world_ok w -> (r < length (heap w))%nat -> world_ok (snd (add_record r w)).
Proof.
  intros [Hnd Hrefs] Hr. unfold add_record. split; simpl.
  - apply dict_set_NoDup. exact Hnd.
  - apply dict_set_refs; assumption.
Qed.

Lemma input_error_world (f : M pyval) (w : world) :
  snd (input_error f w) = snd (f w).
Proof.
  unfold input_error. destruct (f w) as [[v | [msg | | | |]] w']; reflexivity.
Qed.

Lemma mbind_find_ok {A} (nm : str) (k : option ref -> M A) (w : world) :
  mbind_world (find nm) k w = k (dict_get (data w) nm) w.
Proof. reflexivity. Qed.

Lemma call_then_ret_ok {A} (r : ref) (m : method A) (v : pyval) (w : world) :
  world_ok w ->
  world_ok (snd (mbind_world (call r m) (fun _ => ret v) w)).
Proof.
  intros Hw. pose proof (call_ok r m w Hw) as Hc. unfold mbind_world.
  destruct (call r m w) as [[a | e] w']; exact Hc.
Qed.

(** Every command keeps the invariant. *)
Lemma handlers_keep_world_ok (ys : year_style) (today : Calendar.date)
    (args : list str) (w : world) :
  world_ok w ->
  world_ok (snd (add_contact args w))
  /\ world_ok (snd (change_contact args w))
  /\ world_ok (snd (show_phone args w))
  /\ world_ok (snd (add_birthday args w))
  /\ world_ok (snd (show_birthday ys args w))
  /\ world_ok (snd (birthdays ys today args w)).
Proof.
  intros Hw.
  unfold add_contact, change_contact, show_phone, add_birthday,
    show_birthday, birthdays.
  rewrite !input_error_world.
  split; [|split; [|split; [|split; [|split]]]].
  - unfold add_contact_func.
    destruct args as [|nm [|phone [|x args]]]; try exact Hw.
    rewrite mbind_find_ok. destruct (dict_get (data w) nm) as [r|].
    + apply call_then_ret_ok. exact Hw.
    + destruct (new_record_ok nm w Hw) as (Hw1 & Hr & Hlt).
      unfold mbind_world at 1.
      destruct (new_record nm w) as [o w1]. simpl in Hw1, Hr, Hlt.
      subst o. pose proof (call_ok (length (heap w)) (add_phone phone) w1 Hw1)
        as Hw2.
      unfold mbind_world at 1.
      destruct (call (length (heap w)) (add_phone phone) w1)
        as [[u | e] w2] eqn:Hcall; [|exact Hw2].
      simpl in Hw2. unfold mbind_world, ret. simpl.
      apply (add_record_ok _ w2 Hw2).
      assert (Hlen : length (heap w2) = length (heap w1)).
      { unfold call in Hcall.
        destruct (add_phone phone (deref w1 (length (heap w))))
          as [a self']. injection Hcall as _ <-. simpl.
        apply length_insert. }
      rewrite Hlen. exact Hlt.
  - unfold change_contact_func.
    destruct args as [|nm [|old [|new [|x args]]]]; try exact Hw.
    rewrite mbind_find_ok. destruct (dict_get (data w) nm) as [r|].
    + apply call_then_ret_ok. exact Hw.
    + exact Hw.
  - unfold show_phone_func. destruct args as [|nm [|x args]]; try exact Hw.
    rewrite mbind_find_ok. destruct (dict_get (data w) nm); exact Hw.
  - unfold add_birthday_func.
    destruct args as [|nm [|b [|x args]]]; try exact Hw.
    rewrite mbind_find_ok. destruct (dict_get (data w) nm) as [r|].
    + apply call_then_ret_ok. exact Hw.
    + exact Hw.
  - unfold show_birthday_func. destruct args as [|nm [|x args]]; try exact Hw.
    rewrite mbind_find_ok. destruct (dict_get (data w) nm) as [r|];
      [destruct (birthday (deref w r))|]; exact Hw.
  - unfold birthdays_func, mbind_world, get_upcoming_birthdays.
    destruct (upcoming_loop ys today (values w) []) as [[|g gs] | e];
      exact Hw.
Qed.

Lemma empty_world_ok : world_ok empty_world.
Proof. split; constructor. Qed.

(** ** The calendar *)

Section CalendarFacts.
Import Calendar.

Lemma is_leap_iff y :
  _is_leap y = true
  <-> (y mod 4 = 0 /\ (y mod 100 <> 0 \/ y mod 400 = 0)).
Proof.
  unfold _is_leap.
  rewrite andb_true_iff, orb_true_iff, negb_true_iff, !Z.eqb_eq, Z.eqb_neq.
  tauto.
Qed.

Lemma month_cases (m : Z) :
  1 <= m <= 12 ->
  m = 1 \/ m = 2 \/ m = 3 \/ m = 4 \/ m = 5 \/ m = 6 \/ m = 7 \/ m = 8
  \/ m = 9 \/ m = 10 \/ m = 11 \/ m = 12.
Proof. lia. Qed.

Ltac each_month H :=
  destruct (month_cases _ H)
    as [-> | [-> | [-> | [-> | [-> | [-> | [-> | [-> | [-> | [-> | [-> | ->
       ]]]]]]]]]]].

(** The month and the day that [_ord2ymd] finds for the day [n] of a
    year, counted from 0: the estimate [(n + 50) >> 5] of the month is
    right or one too large. *)
Lemma month_tail (leap : bool) (n : Z) :
  0 <= n < 365 + (if leap then 1 else 0) ->
  let m := Z.shiftr (n + 50) 5 in
  let preceding :=
    _DAYS_BEFORE_MONTH m + (if (2 <? m) && leap then 1 else 0) in
  let md :=
    if n <? preceding then
      (m - 1,
       n - (preceding
            - (_DAYS_IN_MONTH (m - 1)
               + (if (m - 1 =? 2) && leap then 1 else 0))) + 1)
    else (m, n - preceding + 1) in
  1 <= fst md <= 12
  /\ 1 <= snd md
     <= _DAYS_IN_MONTH (fst md) + (if (fst md =? 2) && leap then 1 else 0)
  /\ _DAYS_BEFORE_MONTH (fst md)
     + (if (2 <? fst md) && leap then 1 else 0) + snd md
     = n + 1.
Proof.
  intros Hn. cbv zeta. rewrite Z.shiftr_div_pow2 by lia.
  change (2 ^ 5) with 32. set (m := (n + 50) / 32).
  assert (Hm : 1 <= m <= 12)
    by (subst m; destruct leap; Z.div_mod_to_equations; lia).
  assert (Hb : 32 * m <= n + 50 < 32 * m + 32)
    by (subst m; Z.div_mod_to_equations; lia).
  clearbody m.
  each_month Hm; destruct leap;
    match goal with
    | |- context [Z.pos ?a - 1] =>
        let v := eval vm_compute in (Z.pos a - 1) in
        change (Z.pos a - 1) with v
    end;
    cbn;
    match goal with
    | |- context [?a <? ?b] => destruct (Z.ltb_spec a b)
    end;
    cbn in *; lia.
Qed.

Lemma year_part (n0 : Z) :
  0 <= n0 < _MAXORDINAL ->
  let q400 := n0 / 146097 in
  let r400 := n0 mod 146097 in
  let q100 := r400 / 36524 in
  let r100 := r400 mod 36524 in
  let q4 := r100 / 1461 in
  let r4 := r100 mod 1461 in
  let q1 := r4 / 365 in
  let r1 := r4 mod 365 in
  let y := q400 * 400 + 1 + q100 * 100 + q4 * 4 + q1 in
  (((q1 =? 4) || (q100 =? 4) = true) ->
     1 <= y - 1 <= 9999 /\ _is_leap (y - 1) = true
     /\ _days_before_year (y - 1) + 366 = n0 + 1)
  /\ (((q1 =? 4) || (q100 =? 4) = false) ->
     1 <= y <= 9999
     /\ _is_leap y = ((q1 =? 3) && (negb (q4 =? 24) || (q100 =? 3)))
     /\ _days_before_year y + r1 = n0 /\ 0 <= r1 < 365).
Proof.
  intros Hn. unfold _MAXORDINAL in Hn. cbv zeta. split.
  - intros Hc. apply orb_true_iff in Hc. rewrite !Z.eqb_eq in Hc.
    rewrite is_leap_iff. unfold _days_before_year.
    Z.div_mod_to_equations; lia.
  - intros Hc. apply orb_false_iff in Hc. rewrite !Z.eqb_neq in Hc.
    split; [Z.div_mod_to_equations; lia|].
    split.
    + apply eq_true_iff_eq. rewrite is_leap_iff.
      rewrite andb_true_iff, orb_true_iff, negb_true_iff, !Z.eqb_eq, Z.eqb_neq.
      Z.div_mod_to_equations; lia.
    + unfold _days_before_year. Z.div_mod_to_equations; lia.
Qed.

Lemma days_in_month_alt (y m : Z) :
  _days_in_month y m
  = _DAYS_IN_MONTH m + (if (m =? 2) && _is_leap y then 1 else 0).
Proof.
  unfold _days_in_month. destruct (Z.eqb_spec m 2) as [-> |]; simpl.
  - destruct (_is_leap y); reflexivity.
  - lia.
Qed.

Lemma fromordinal_toordinal (n : Z) :
  1 <= n <= _MAXORDINAL ->
  valid_date (fromordinal n) /\ toordinal (fromordinal n) = n.
Proof.
  intros Hn.
  assert (Hn0 : 0 <= n - 1 < _MAXORDINAL) by lia.
  pose proof (year_part (n - 1) Hn0) as Hy. cbv zeta in Hy.
  unfold fromordinal, _ord2ymd. cbv zeta. unfold _DI400Y, _DI100Y, _DI4Y.
  set (r1 := (((n - 1) mod 146097) mod 36524) mod 1461 mod 365) in *.
  set (q1 := (((n - 1) mod 146097) mod 36524) mod 1461 / 365) in *.
  set (q4 := (((n - 1) mod 146097) mod 36524) / 1461) in *.
  set (q100 := ((n - 1) mod 146097) / 36524) in *.
  set (y := (n - 1) / 146097 * 400 + 1 + q100 * 100 + q4 * 4 + q1) in *.
  destruct Hy as [Hedge Hnorm].
  destruct ((q1 =? 4) || (q100 =? 4)) eqn:Hc.
  - destruct (Hedge eq_refl) as (Hyr & Hleap & Hord).
    unfold valid_date, toordinal, _ymd2ord, _days_in_month,
      _days_before_month, MINYEAR, MAXYEAR.
    cbn [year month day]. rewrite Hleap. cbn. lia.
  - destruct (Hnorm eq_refl) as (Hyr & Hleap & Hord & Hr1).
    rewrite <- Hleap.
    assert (Hr1' : 0 <= r1 < 365 + (if _is_leap y then 1 else 0))
      by (destruct (_is_leap y); lia).
    pose proof (month_tail (_is_leap y) r1 Hr1') as Hm. cbv zeta in Hm.
    destruct (r1 <? _) eqn:Hlt in Hm |- *;
      cbn [fst snd] in Hm; destruct Hm as (Hm1 & Hd & Hsum);
      unfold valid_date, toordinal, _ymd2ord, _days_before_month, MINYEAR,
        MAXYEAR;
      cbn [year month day]; rewrite days_in_month_alt; lia.
Qed.

(** The months of a year follow one another. *)
Lemma month_order (y m1 m2 : Z) :
  1 <= m1 <= 12 -> 1 <= m2 <= 12 -> m1 < m2 ->
  _days_before_month y m1 + _days_in_month y m1 <= _days_before_month y m2.
Proof.
  intros H1 H2 Hlt. rewrite days_in_month_alt. unfold _days_before_month.
  each_month H1; each_month H2; try lia; destruct (_is_leap y); cbn; lia.
Qed.

Lemma year_length (y m : Z) :
  1 <= m <= 12 ->
  _days_before_month y m + _days_in_month y m
  <= 365 + (if _is_leap y then 1 else 0)
  /\ 0 <= _days_before_month y m.
Proof.
  intros H. rewrite days_in_month_alt. unfold _days_before_month.
  each_month H; destruct (_is_leap y); cbn; lia.
Qed.

Lemma days_before_year_succ y :
  _days_before_year (y + 1)
  = _days_before_year y + 365 + (if _is_leap y then 1 else 0).
Proof.
  unfold _days_before_year. replace (y + 1 - 1) with y by lia.
  destruct (_is_leap y) eqn:Hl.
  - apply is_leap_iff in Hl. Z.div_mod_to_equations; lia.
  - assert (~ (y mod 4 = 0 /\ (y mod 100 <> 0 \/ y mod 400 = 0)))
      by (rewrite <- is_leap_iff; congruence).
    Z.div_mod_to_equations; lia.
Qed.

Lemma days_before_year_mono y1 y2 :
  y1 <= y2 -> _days_before_year y1 <= _days_before_year y2.
Proof. unfold _days_before_year. intros. Z.div_mod_to_equations; lia. Qed.

(** The ordinal of a date lies within its year. *)
Lemma toordinal_in_year (d : date) :
  valid_date d ->
  _days_before_year (year d) < toordinal d <= _days_before_year (year d + 1).
Proof.
  intros (Hy & Hm & Hd). unfold toordinal, _ymd2ord.
  rewrite days_before_year_succ.
  pose proof (year_length (year d) (month d) Hm). lia.
Qed.

Lemma toordinal_range (d : date) :
  valid_date d -> 1 <= toordinal d <= _MAXORDINAL.
Proof.
  intros Hv. pose proof (toordinal_in_year d Hv) as H.
  destruct Hv as (Hy & _). unfold MINYEAR, MAXYEAR in Hy.
  pose proof (days_before_year_mono 1 (year d) ltac:(lia)).
  pose proof (days_before_year_mono (year d + 1) 10000 ltac:(lia)).
  change (_days_before_year 1) with 0 in *.
  change (_days_before_year 10000) with 3652059 in *.
  unfold _MAXORDINAL. lia.
Qed.

(** Dates compare as their ordinals do. *)
Lemma date_ltb_toordinal (a b : date) :
  valid_date a -> valid_date b ->
  date_ltb a b = (toordinal a <? toordinal b).
Proof.
  intros Ha Hb.
  pose proof (toordinal_in_year a Ha) as Ia.
  pose proof (toordinal_in_year b Hb) as Ib.
  destruct Ha as (Hya & Hma & Hda), Hb as (Hyb & Hmb & Hdb).
  unfold date_ltb.
  destruct (Z.ltb_spec (year a) (year b)) as [Hy | Hy]; cbn [orb].
  - pose proof (days_before_year_mono (year a + 1) (year b) ltac:(lia)).
    symmetry. apply Z.ltb_lt. lia.
  - destruct (Z.eqb_spec (year a) (year b)) as [Hyeq | Hyne]; cbn [andb].
    + unfold toordinal, _ymd2ord in *. rewrite Hyeq in *.
      destruct (Z.ltb_spec (month a) (month b)) as [Hm | Hm]; cbn [orb].
      * pose proof (month_order (year b) (month a) (month b) Hma Hmb Hm).
        symmetry. apply Z.ltb_lt. lia.
      * destruct (Z.eqb_spec (month a) (month b)) as [Hmeq | Hmne]; cbn [andb].
        -- rewrite Hmeq.
           destruct (Z.ltb_spec (day a) (day b));
             symmetry; [apply Z.ltb_lt | apply Z.ltb_ge]; lia.
        -- pose proof (month_order (year b) (month b) (month a) Hmb Hma
                         ltac:(lia)).
           symmetry. apply Z.ltb_ge. lia.
    + pose proof (days_before_year_mono (year b + 1) (year a) ltac:(lia)).
      symmetry. apply Z.ltb_ge. lia.
Qed.

End CalendarFacts.

(** ** Parsing and printing *)

Section ParsingFacts.
Import Strptime.
Import Calendar.

Lemma ascii_digit_cases (c : N) :
  Unicode.is_ascii_digit c = true ->
  (c = 48 \/ c = 49 \/ c = 50 \/ c = 51 \/ c = 52 \/ c = 53 \/ c = 54
   \/ c = 55 \/ c = 56 \/ c = 57)%N.
Proof.
  unfold Unicode.is_ascii_digit. rewrite andb_true_iff, !N.leb_le. lia.
Qed.

Ltac each_digit H :=
  destruct (ascii_digit_cases _ H)
    as [-> | [-> | [-> | [-> | [-> | [-> | [-> | [-> | [-> | ->]]]]]]]]].

Lemma re_d_two_digits {A} (d1 d2 : N) (rest : str) (g : groupdict)
    (k : str -> groupdict -> option A) :
  Unicode.is_ascii_digit d1 = true -> Unicode.is_ascii_digit d2 = true ->
  re_match re_d (d1 :: d2 :: rest) g k
  = match (if (1 <=? 10 * dv d1 + dv d2) && (10 * dv d1 + dv d2 <=? 31)
           then k rest g else None) with
    | Some a => Some a
    | None => if 1 <=? dv d1 then k (d2 :: rest) g else None
    end.
Proof.
  intros H1 H2. each_digit H1; each_digit H2; cbn;
    repeat match goal with
      | |- context [k ?s g] => destruct (k s g); try reflexivity
      end.
Qed.

Lemma re_m_two_digits {A} (m1 m2 : N) (rest : str) (g : groupdict)
    (k : str -> groupdict -> option A) :
  Unicode.is_ascii_digit m1 = true -> Unicode.is_ascii_digit m2 = true ->
  re_match re_m (m1 :: m2 :: rest) g k
  = match (if (1 <=? 10 * dv m1 + dv m2) && (10 * dv m1 + dv m2 <=? 12)
           then k rest g else None) with
    | Some a => Some a
    | None => if 1 <=? dv m1 then k (m2 :: rest) g else None
    end.
Proof.
  intros H1 H2. each_digit H1; each_digit H2; cbn;
    repeat match goal with
      | |- context [k ?s g] => destruct (k s g); try reflexivity
      end.
Qed.

Lemma ascii_digit_not_dot (c : N) :
  Unicode.is_ascii_digit c = true -> N.eqb c dot = false.
Proof.
  unfold Unicode.is_ascii_digit, dot. rewrite andb_true_iff, !N.leb_le.
  intros H. apply N.eqb_neq. lia.
Qed.

(** A two-digit group followed by a dot: the group is the two digits. *)
Lemma group_two_digits {A} (name : string) (r0 r : regex) (bound : Z)
    (c1 c2 : N) (rest : str) (g : groupdict)
    (k : str -> groupdict -> option A) :
  (forall B (k' : str -> groupdict -> option B) g',
     re_match r0 (c1 :: c2 :: dot :: rest) g' k'
     = match (if (1 <=? 10 * dv c1 + dv c2) && (10 * dv c1 + dv c2 <=? bound)
              then k' (dot :: rest) g' else None) with
       | Some a => Some a
       | None => if 1 <=? dv c1 then k' (c2 :: dot :: rest) g' else None
       end) ->
  Unicode.is_ascii_digit c2 = true ->
  re_match (Cat (Grp name r0) (Cat (Chr dot) r)) (c1 :: c2 :: dot :: rest) g k
  = if (1 <=? 10 * dv c1 + dv c2) && (10 * dv c1 + dv c2 <=? bound)
    then re_match r rest ((name, [c1; c2]) :: g) k
    else None.
Proof.
  intros Hr0 H2. cbn [re_match]. rewrite Hr0.
  rewrite (ascii_digit_not_dot c2 H2), N.eqb_refl.
  change (length (dot :: rest)) with (S (length rest)).
  replace (take (length (c1 :: c2 :: dot :: rest) - S (length rest))
             (c1 :: c2 :: dot :: rest)) with [c1; c2]
    by (replace (length (c1 :: c2 :: dot :: rest) - S (length rest))%nat
          with 2%nat by (simpl; lia); reflexivity).
  destruct ((1 <=? 10 * dv c1 + dv c2) && (10 * dv c1 + dv c2 <=? bound)).
  - destruct (re_match r rest ((name, [c1; c2]) :: g) k); [reflexivity|].
    destruct (1 <=? dv c1); reflexivity.
  - destruct (1 <=? dv c1); reflexivity.
Qed.

Lemma ascii_digit_isdecimal (c : N) :
  Unicode.is_ascii_digit c = true -> Unicode.isdecimal c = true.
Proof.
  intros H. unfold Unicode.isdecimal.
  rewrite (ascii_digit_decimal_value c H). reflexivity.
Qed.

Lemma group_year {A} (y1 y2 y3 y4 : N) (g : groupdict)
    (k : str -> groupdict -> option A) :
  forallb Unicode.is_ascii_digit [y1; y2; y3; y4] = true ->
  re_match (Grp "Y" re_Y) [y1; y2; y3; y4] g k
  = k [] (("Y"%string, [y1; y2; y3; y4]) :: g).
Proof.
  cbn [forallb]. rewrite !andb_true_iff. intros (H1 & H2 & H3 & H4 & _).
  cbn [re_match re_Y].
  rewrite !ascii_digit_isdecimal by assumption. reflexivity.
Qed.

Lemma lstrip_digit (c : N) (s : str) :
  Unicode.is_ascii_digit c = true -> lstrip (c :: s) = c :: s.
Proof.
  unfold Unicode.is_ascii_digit, lstrip, space.
  rewrite andb_true_iff, !N.leb_le. intros H.
  replace (N.eqb c 32) with false by (symmetry; apply N.eqb_neq; lia).
  reflexivity.
Qed.

Lemma digits_value_ascii (s : str) (acc : Z) :
  forallb Unicode.is_ascii_digit s = true ->
  digits_value acc s = Some (fold_left (fun a c => 10 * a + dv c) s acc).
Proof.
  revert acc. induction s as [|c s IH]; intros acc; cbn [forallb];
    [reflexivity|].
  rewrite andb_true_iff. intros [Hc Hs]. cbn [digits_value fold_left].
  rewrite (ascii_digit_decimal_value c Hc). apply IH. exact Hs.
Qed.

Lemma py_int_ascii (c : N) (s : str) :
  forallb Unicode.is_ascii_digit (c :: s) = true ->
  py_int (c :: s) = Some (fold_left (fun a c => 10 * a + dv c) (c :: s) 0).
Proof.
  intros H. unfold py_int.
  assert (Hc : Unicode.is_ascii_digit c = true)
    by (cbn [forallb] in H; apply andb_true_iff in H; tauto).
  rewrite (lstrip_digit c s Hc). apply digits_value_ascii. exact H.
Qed.

(** [strptime] on a text of the shape DD.MM.YYYY. *)
Lemma strptime_DDMMYYYY (d1 d2 m1 m2 y1 y2 y3 y4 : N) :
  forallb Unicode.is_ascii_digit [d1; d2; m1; m2; y1; y2; y3; y4] = true ->
  strptime [d1; d2; dot; m1; m2; dot; y1; y2; y3; y4]
  = if (1 <=? 10 * dv d1 + dv d2) && (10 * dv d1 + dv d2 <=? 31)
       && (1 <=? 10 * dv m1 + dv m2) && (10 * dv m1 + dv m2 <=? 12)
    then Calendar.new_date
           (1000 * dv y1 + 100 * dv y2 + 10 * dv y3 + dv y4)
           (10 * dv m1 + dv m2) (10 * dv d1 + dv d2)
    else Raise (ValueError no_match).
Proof.
  cbn [forallb]. rewrite !andb_true_iff.
  intros (Hd1 & Hd2 & Hm1 & Hm2 & Hy1 & Hy2 & Hy3 & Hy4 & _).
  unfold strptime, pattern_match, format_regex.
  rewrite (group_two_digits "d" re_d _ 31)
    by (intros; try apply re_d_two_digits; assumption).
  destruct ((1 <=? 10 * dv d1 + dv d2) && (10 * dv d1 + dv d2 <=? 31));
    cbn [andb]; [|reflexivity].
  rewrite (group_two_digits "m" re_m _ 12)
    by (intros; try apply re_m_two_digits; assumption).
  destruct ((1 <=? 10 * dv m1 + dv m2) && (10 * dv m1 + dv m2 <=? 12));
    [|reflexivity].
  rewrite group_year
    by (cbn [forallb]; rewrite Hy1, Hy2, Hy3, Hy4; reflexivity).
  cbn [length Nat.eqb negb group String.eqb Ascii.eqb Bool.eqb].
  cbn [andb].
  rewrite !py_int_ascii
    by (cbn [forallb]; rewrite ?Hd1, ?Hd2, ?Hm1, ?Hm2, ?Hy1, ?Hy2, ?Hy3, ?Hy4;
        reflexivity).
  cbn [fold_left]. f_equal; lia.
Qed.


Lemma new_date_Ret (y m d : Z) (x : date) :
  new_date y m d = Ret x <->
  x = {| year := y; month := m; day := d |} /\ valid_date x.
Proof.
  unfold new_date, valid_date.
  destruct (Z.leb_spec MINYEAR y), (Z.leb_spec y MAXYEAR),
    (Z.leb_spec 1 m), (Z.leb_spec m 12), (Z.leb_spec 1 d),
    (Z.leb_spec d (_days_in_month y m)); cbn [andb negb];
    (split; [intros HR; try discriminate; injection HR as <-; cbn;
                repeat split; lia
            | intros [-> HV]; cbn in HV; try reflexivity; lia]).
Qed.

Lemma new_date_valid (x : date) :
  valid_date x -> new_date (year x) (month x) (day x) = Ret x.
Proof.
  intros H. apply new_date_Ret. split; [destruct x; reflexivity | exact H].
Qed.

Lemma strptime_valid (s : str) (x : date) :
  Strptime.strptime s = Ret x -> valid_date x.
Proof.
  unfold strptime. destruct (pattern_match format_regex s) as [[rest g]|];
    [|discriminate].
  destruct (negb (Nat.eqb (length rest) 0)); [discriminate|].
  destruct (group "Y" g); [|discriminate].
  destruct (group "m" g); [|discriminate].
  destruct (group "d" g); [|discriminate].
  destruct (py_int s0); [|discriminate].
  destruct (py_int s1); [|discriminate].
  destruct (py_int s2); [|discriminate].
  intros H. apply new_date_Ret in H. tauto.
Qed.

Lemma Birthday_init_Ret (s : str) (b : Birthday) :
  Birthday_init s = Ret b <-> Strptime.strptime s = Ret (Birthday_value b).
Proof.
  unfold Birthday_init. destruct (Strptime.strptime s) as [x | [msg | | | |]];
    destruct b as [v]; cbn; split; intros H; try discriminate;
    injection H as ->; reflexivity.
Qed.

Lemma digit_ascii (n : Z) :
  0 <= n <= 9 ->
  Unicode.is_ascii_digit (Strftime.digit n) = true /\ dv (Strftime.digit n) = n.
Proof.
  intros H. unfold Unicode.is_ascii_digit, Strftime.digit, dv.
  rewrite andb_true_iff, !N.leb_le. lia.
Qed.

Lemma dv_digit (c : N) :
  Unicode.is_ascii_digit c = true ->
  0 <= dv c <= 9 /\ Strftime.digit (dv c) = c.
Proof.
  unfold Unicode.is_ascii_digit, Strftime.digit, dv.
  rewrite andb_true_iff, !N.leb_le. lia.
Qed.

Lemma two_digits_value (a b : Z) :
  0 <= a <= 9 -> 0 <= b <= 9 ->
  Strftime.two_digits (10 * a + b) = [Strftime.digit a; Strftime.digit b].
Proof.
  intros Ha Hb. unfold Strftime.two_digits.
  replace ((10 * a + b) / 10) with a by (Z.div_mod_to_equations; lia).
  replace ((10 * a + b) mod 10) with b by (Z.div_mod_to_equations; lia).
  reflexivity.
Qed.

Lemma four_digits_value (a b c d : Z) :
  0 <= a <= 9 -> 0 <= b <= 9 -> 0 <= c <= 9 -> 0 <= d <= 9 ->
  Strftime.four_digits (1000 * a + 100 * b + 10 * c + d)
  = [Strftime.digit a; Strftime.digit b; Strftime.digit c; Strftime.digit d].
Proof.
  intros Ha Hb Hc Hd. unfold Strftime.four_digits.
  set (n := 1000 * a + 100 * b + 10 * c + d).
  replace (n / 1000) with a by (subst n; Z.div_mod_to_equations; lia).
  replace (n / 100 mod 10) with b by (subst n; Z.div_mod_to_equations; lia).
  replace (n / 10 mod 10) with c by (subst n; Z.div_mod_to_equations; lia).
  replace (n mod 10) with d by (subst n; Z.div_mod_to_equations; lia).
  reflexivity.
Qed.

Lemma year_text_four (ys : year_style) (y : Z) :
  ys = Y_zero_filled \/ 1000 <= y ->
  Strftime.year_text ys y = Strftime.four_digits y.
Proof.
  intros [-> | Hy]; [reflexivity|]. destruct ys; [reflexivity|].
  unfold Strftime.year_text, Strftime.numeral.
  destruct (Z.ltb_spec y 10); [lia|]. destruct (Z.ltb_spec y 100); [lia|].
  destruct (Z.ltb_spec y 1000); [lia|]. reflexivity.
Qed.

Lemma Birthday_render_parse (ys : year_style) (s : str) (b : Birthday) :
  is_DDMMYYYY s -> Birthday_init s = Ret b ->
  ys = Y_zero_filled \/ 1000 <= year (Birthday_value b) ->
  Birthday_str ys b = s.
Proof.
  intros (d1 & d2 & m1 & m2 & y1 & y2 & y3 & y4 & -> & Hdig) Hb Hys.
  apply Birthday_init_Ret in Hb.
  rewrite (strptime_DDMMYYYY _ _ _ _ _ _ _ _ Hdig) in Hb.
  destruct (_ && _) in Hb; [|discriminate].
  apply new_date_Ret in Hb. destruct Hb as [Hv _].
  unfold Birthday_str, Strftime.strftime. rewrite Hv in *.
  cbn [year month day] in *.
  cbn [forallb] in Hdig. rewrite !andb_true_iff in Hdig.
  destruct Hdig as (Hd1 & Hd2 & Hm1 & Hm2 & Hy1 & Hy2 & Hy3 & Hy4 & _).
  rewrite (year_text_four ys _ Hys).
  destruct (dv_digit d1 Hd1) as [? E1], (dv_digit d2 Hd2) as [? E2],
    (dv_digit m1 Hm1) as [? E3], (dv_digit m2 Hm2) as [? E4],
    (dv_digit y1 Hy1) as [? E5], (dv_digit y2 Hy2) as [? E6],
    (dv_digit y3 Hy3) as [? E7], (dv_digit y4 Hy4) as [? E8].
  rewrite !two_digits_value, four_digits_value by assumption.
  rewrite E1, E2, E3, E4, E5, E6, E7, E8. reflexivity.
Qed.

Lemma days_in_month_bound (y m : Z) : _days_in_month y m <= 31.
Proof.
  unfold _days_in_month. destruct ((m =? 2) && _is_leap y); [lia|].
  unfold _DAYS_IN_MONTH.
  repeat match goal with
         | |- context [match ?p with _ => _ end] => destruct p
         end;
    lia.
Qed.

Lemma strptime_strftime (ys : year_style) (x : date) :
  valid_date x -> ys = Y_zero_filled \/ 1000 <= year x ->
  Strptime.strptime (Strftime.strftime ys x) = Ret x.
Proof.
  intros Hv Hys. unfold Strftime.strftime.
  rewrite (year_text_four ys _ Hys).
  pose proof Hv as (Hy & Hm & Hd). unfold MINYEAR, MAXYEAR in Hy.
  assert (Hd31 : day x <= 31).
  { pose proof (days_in_month_bound (year x) (month x)). lia. }
  unfold Strftime.two_digits, Strftime.four_digits. cbn [app].
  set (a := day x / 10). set (b := day x mod 10).
  set (c := month x / 10). set (e := month x mod 10).
  set (y1 := year x / 1000). set (y2 := year x / 100 mod 10).
  set (y3 := year x / 10 mod 10). set (y4 := year x mod 10).
  assert (Ha : 0 <= a <= 9) by (subst a; Z.div_mod_to_equations; lia).
  assert (Hb : 0 <= b <= 9) by (subst b; Z.div_mod_to_equations; lia).
  assert (Hc : 0 <= c <= 9) by (subst c; Z.div_mod_to_equations; lia).
  assert (He : 0 <= e <= 9) by (subst e; Z.div_mod_to_equations; lia).
  assert (H1 : 0 <= y1 <= 9) by (subst y1; Z.div_mod_to_equations; lia).
  assert (H2 : 0 <= y2 <= 9) by (subst y2; Z.div_mod_to_equations; lia).
  assert (H3 : 0 <= y3 <= 9) by (subst y3; Z.div_mod_to_equations; lia).
  assert (H4 : 0 <= y4 <= 9) by (subst y4; Z.div_mod_to_equations; lia).
  destruct (digit_ascii a Ha) as [Aa Va], (digit_ascii b Hb) as [Ab Vb],
    (digit_ascii c Hc) as [Ac Vc], (digit_ascii e He) as [Ae Ve],
    (digit_ascii y1 H1) as [A1 V1], (digit_ascii y2 H2) as [A2 V2],
    (digit_ascii y3 H3) as [A3 V3], (digit_ascii y4 H4) as [A4 V4].
  rewrite strptime_DDMMYYYY
    by (cbn [forallb]; rewrite Aa, Ab, Ac, Ae, A1, A2, A3, A4; reflexivity).
  rewrite Va, Vb, Vc, Ve, V1, V2, V3, V4.
  replace (10 * a + b) with (day x)
    by (subst a b; Z.div_mod_to_equations; lia).
  replace (10 * c + e) with (month x)
    by (subst c e; Z.div_mod_to_equations; lia).
  replace (1000 * y1 + 100 * y2 + 10 * y3 + y4) with (year x)
    by (subst y1 y2 y3 y4; Z.div_mod_to_equations; lia).
  replace ((1 <=? day x) && (day x <=? 31)
           && (1 <=? month x) && (month x <=? 12))
    with true by (symmetry; rewrite !andb_true_iff, !Z.leb_le; lia).
  apply new_date_valid. exact Hv.
Qed.

End ParsingFacts.

(** ** Upcoming birthdays *)

Section UpcomingFacts.
Import Calendar.

Lemma occurrence_in_Some (y : Z) (b d : date) :
  occurrence_in y b = Some d ->
  d = {| year := y; month := month b; day := day b |} /\ valid_date d.
Proof.
  unfold occurrence_in.
  destruct (_ && _) eqn:Hc; [|discriminate].
  intros H. injection H as <-. split; [reflexivity|].
  rewrite !andb_true_iff, !Z.leb_le in Hc. unfold valid_date. cbn. lia.
Qed.

Lemma replace_year_occurrence (b : date) (y : Z) :
  replace_year b y
  = match occurrence_in y b with
    | Some d => Ret d
    | None => Raise (ValueError date_error)
    end.
Proof.
  unfold replace_year, new_date, occurrence_in.
  destruct (MINYEAR <=? y), (y <=? MAXYEAR), (1 <=? month b),
    (month b <=? 12), (1 <=? day b),
    (day b <=? _days_in_month y (month b)); reflexivity.
Qed.

Lemma occurrence_in_same (y y' : Z) (b d : date) :
  occurrence_in y b = Some d -> occurrence_in y' d = occurrence_in y' b.
Proof.
  intros H. apply occurrence_in_Some in H. destruct H as [-> _]. reflexivity.
Qed.

Lemma weekday_range (d : date) : 0 <= weekday d <= 6.
Proof. unfold weekday. Z.div_mod_to_equations; lia. Qed.

(** A Saturday or Sunday is not among the last days a [date] can hold:
    the shift to Monday stays in range. *)
Lemma add_days_weekend (d : date) :
  valid_date d -> 5 <= weekday d ->
  add_days d (7 - weekday d) = Ret (congratulation_day d).
Proof.
  intros Hv Hw. pose proof (toordinal_range d Hv) as Hr.
  unfold add_days, congratulation_day. unfold weekday in *.
  unfold _MAXORDINAL in *.
  replace ((0 <? toordinal d + (7 - (toordinal d + 6) mod 7))
           && (toordinal d + (7 - (toordinal d + 6) mod 7) <=? 3652059))
    with true
    by (symmetry; rewrite andb_true_iff, Z.ltb_lt, Z.leb_le;
        Z.div_mod_to_equations; lia).
  destruct (Z.eqb_spec ((toordinal d + 6) mod 7) 5) as [E | E].
  - rewrite E. reflexivity.
  - destruct (Z.eqb_spec ((toordinal d + 6) mod 7) 6) as [E' | E'].
    + rewrite E'. reflexivity.
    + exfalso. Z.div_mod_to_equations; lia.
Qed.

Lemma congratulation_day_weekday (d : date) :
  weekday d < 5 -> congratulation_day d = d.
Proof.
  intros H. unfold congratulation_day.
  destruct (Z.eqb_spec (weekday d) 5); [lia|].
  destruct (Z.eqb_spec (weekday d) 6); [lia|]. reflexivity.
Qed.

Lemma congratulation_day_weekend (d : date) :
  valid_date d -> 5 <= weekday d -> following_monday d (congratulation_day d).
Proof.
  intros Hv Hw. pose proof (toordinal_range d Hv) as Hr.
  pose proof (weekday_range d) as Hwr.
  unfold following_monday, congratulation_day.
  assert (Hmax : toordinal d + (7 - weekday d) <= _MAXORDINAL).
  { unfold weekday, _MAXORDINAL in *. Z.div_mod_to_equations; lia. }
  destruct (Z.eqb_spec (weekday d) 5) as [E | E].
  - destruct (fromordinal_toordinal (toordinal d + 2) ltac:(lia)) as [Hv' Ho].
    split; [exact Hv'|]. unfold weekday in *. rewrite Ho.
    split; [Z.div_mod_to_equations; lia | lia].
  - destruct (Z.eqb_spec (weekday d) 6) as [E' | E']; [|lia].
    destruct (fromordinal_toordinal (toordinal d + 1) ltac:(lia)) as [Hv' Ho].
    split; [exact Hv'|]. unfold weekday in *. rewrite Ho.
    split; [Z.div_mod_to_equations; lia | lia].
Qed.

(** The next occurrence is not before today. *)
Lemma next_occurrence_not_before (today b d : date) :
  valid_date today -> next_occurrence today b = Some d ->
  valid_date d /\ toordinal today <= toordinal d.
Proof.
  intros Ht. unfold next_occurrence.
  destruct (occurrence_in (year today) b) as [d1|] eqn:H1; [|discriminate].
  destruct (Z.ltb_spec (toordinal d1) (toordinal today)) as [Hlt | Hge].
  - intros H2. apply occurrence_in_Some in H2. destruct H2 as [Hd Hv].
    split; [exact Hv|].
    pose proof (toordinal_in_year today Ht).
    pose proof (toordinal_in_year d Hv) as Hy. rewrite Hd in Hy at 1 3.
    cbn [year] in Hy. lia.
  - intros H. injection H as <-. apply occurrence_in_Some in H1.
    split; [tauto | lia].
Qed.

(** One turn of the loop of [get_upcoming_birthdays]. *)
Lemma upcoming_loop_step (ys : year_style) (today : date) (record : RecordObj)
    (todo : list RecordObj) (acc : list greeting) :
  valid_date today ->
  (forall b, birthday record = Some b ->
     is_Some (next_occurrence today (Birthday_value b))) ->
  upcoming_loop ys today (record :: todo) acc
  = upcoming_loop ys today todo
      (acc ++ match greeting_of ys today record with
              | Some g => [g]
              | None => []
              end).
Proof.
  intros Ht Hnext. cbn [upcoming_loop]. unfold greeting_of.
  destruct (birthday record) as [b|]; [|rewrite app_nil_r; reflexivity].
  destruct (Hnext b eq_refl) as [d Hd]. rewrite Hd.
  destruct (next_occurrence_not_before today _ d Ht Hd) as [Hv Hge].
  unfold next_occurrence in Hd. rewrite replace_year_occurrence.
  destruct (occurrence_in (year today) (Birthday_value b)) as [d1|] eqn:H1;
    [|discriminate].
  cbn [obind].
  pose proof (occurrence_in_Some _ _ _ H1) as [_ Hv1].
  rewrite (date_ltb_toordinal d1 today Hv1 Ht).
  rewrite replace_year_occurrence.
  rewrite (occurrence_in_same (year today) (year today + 1) _ d1 H1).
  assert (Hstep :
    (if toordinal d1 <? toordinal today
     then match occurrence_in (year today + 1) (Birthday_value b) with
          | Some d0 => Ret d0
          | None => Raise (ValueError date_error)
          end
     else Ret d1) = Ret d).
  { destruct (toordinal d1 <? toordinal today);
      [rewrite Hd | injection Hd as ->]; reflexivity. }
  rewrite Hstep. cbn [obind]. unfold sub_days, within_week.
  replace (0 <=? toordinal d - toordinal today) with true
    by (symmetry; apply Z.leb_le; lia).
  cbn [andb].
  destruct (toordinal d - toordinal today <=? 7);
    [|rewrite app_nil_r; reflexivity].
  destruct (Z.leb_spec 5 (weekday d)) as [Hw | Hw].
  - rewrite (add_days_weekend d Hv Hw). reflexivity.
  - rewrite (congratulation_day_weekday d Hw). reflexivity.
Qed.

Lemma upcoming_loop_spec (ys : year_style) (today : date)
    (todo : list RecordObj) (acc : list greeting) :
  valid_date today ->
  (forall record b, In record todo -> birthday record = Some b ->
     is_Some (next_occurrence today (Birthday_value b))) ->
  upcoming_loop ys today todo acc
  = Ret (acc ++ omap (greeting_of ys today) todo).
Proof.
  intros Ht. revert acc. induction todo as [|record todo IH]; intros acc Hnext.
  - cbn. rewrite app_nil_r. reflexivity.
  - rewrite upcoming_loop_step;
      [| exact Ht
       | intros b Hb; apply (Hnext record b); [left; reflexivity | exact Hb]].
    rewrite IH by (intros r b Hr; apply Hnext; right; exact Hr).
    rewrite <- app_assoc. f_equal. f_equal. cbn [omap list_omap].
    destruct (greeting_of ys today record); reflexivity.
Qed.

Lemma strftime_shape (ys : year_style) (x : date) :
  valid_date x -> ys = Y_zero_filled \/ 1000 <= year x ->
  is_DDMMYYYY (Strftime.strftime ys x).
Proof.
  intros Hv Hys. unfold Strftime.strftime.
  rewrite (year_text_four ys _ Hys).
  pose proof Hv as (Hy & Hm & Hd). unfold MINYEAR, MAXYEAR in Hy.
  pose proof (days_in_month_bound (year x) (month x)) as Hd31.
  unfold Strftime.two_digits, Strftime.four_digits. cbn [app].
  do 8 eexists. split; [reflexivity|]. cbn [forallb].
  rewrite !andb_true_iff.
  repeat split; apply digit_ascii; Z.div_mod_to_equations; lia.
Qed.

End UpcomingFacts.

(** C4, as the code has it.  A text of the shape DD.MM.YYYY that the
    constructor of [Birthday] accepts is rendered back unchanged, and a
    constructed [Birthday] is parsed back from its rendering, when the
    year is 1000 or later, or for every year where [%Y] is filled with
    zeros to four digits. *)
Theorem Birthday_round_trip (ys : year_style) :
  (forall s b,
     is_DDMMYYYY s -> Birthday_init s = Ret b ->
     ys = Y_zero_filled \/ 1000 <= Calendar.year (Birthday_value b) ->
     Birthday_str ys b = s)
  /\ (forall s b,
        Birthday_init s = Ret b ->
        ys = Y_zero_filled \/ 1000 <= Calendar.year (Birthday_value b) ->
        Birthday_init (Birthday_str ys b) = Ret b).
Proof.
  split.
  - intros s b. apply Birthday_render_parse.
  - intros s b Hb Hys. apply Birthday_init_Ret. unfold Birthday_str.
    apply strptime_strftime; [|exact Hys].
    apply Birthday_init_Ret in Hb. eapply strptime_valid. exact Hb.
Qed.

Lemma Birthday_round_trip_witness :
  Birthday_str Y_plain {| Birthday_value := mkdate 1990 3 12 |}
  = lit "12.03.1990"
  /\ Birthday_init
       (Birthday_str Y_plain {| Birthday_value := mkdate 1990 3 12 |})
     = Ret {| Birthday_value := mkdate 1990 3 12 |}.
Proof.
  split.
  - apply (proj1 (Birthday_round_trip Y_plain)).
    + do 8 eexists. split; reflexivity.
    + reflexivity.
    + right. simpl. lia.
  - apply (proj2 (Birthday_round_trip Y_plain) (lit "12.03.1990")).
    + reflexivity.
    + right. simpl. lia.
Defined.

(** C4 as stated fails where [%Y] is printed as it is: the text
    01.01.0999 has the shape DD.MM.YYYY and is accepted, it is rendered as
    01.01.999, and that rendering is not accepted. *)
Lemma Birthday_round_trip_fails_before_1000 :
  is_DDMMYYYY (lit "01.01.0999")
  /\ Birthday_init (lit "01.01.0999")
     = Ret {| Birthday_value := mkdate 999 1 1 |}
  /\ Birthday_str Y_plain {| Birthday_value := mkdate 999 1 1 |}
     = lit "01.01.999"
  /\ Birthday_str Y_plain {| Birthday_value := mkdate 999 1 1 |}
     <> lit "01.01.0999"
  /\ Birthday_init
       (Birthday_str Y_plain {| Birthday_value := mkdate 999 1 1 |})
     = Raise (ValueError birthday_error).
Proof.
  split; [do 8 eexists; split; reflexivity|].
  repeat split. discriminate.
Qed.

(** C1, as the code has it.  For every book and every [today] such that
    each stored birthday has a next occurrence (its month and day are a
    date in the year of [today] and, when that date is before [today],
    in the year after), [get_upcoming_birthdays] returns, in the order
    of the book, exactly the records whose next occurrence is today or
    one of the seven days after it, each with its name and with the date
    to congratulate on printed with [%d.%m.%Y]; that date is the
    occurrence itself on Monday to Friday and the following Monday on
    Saturday and Sunday, and its text has the shape DD.MM.YYYY for the
    years from 1000 on.  With today = 10.03.2024 a birthday on 12.03 of
    any year is reported as 12.03.2024 and one on 16.03, a Saturday, as
    18.03.2024. *)
Theorem get_upcoming_birthdays_spec (ys : year_style) :
  (forall today w,
     Calendar.valid_date today ->
     (forall record b,
        In record (values w) -> birthday record = Some b ->
        is_Some (next_occurrence today (Birthday_value b))) ->
     get_upcoming_birthdays ys today w
     = (Ret (omap (greeting_of ys today) (values w)), w))
  /\ (forall d,
        Calendar.valid_date d ->
        (Calendar.weekday d < 5 -> congratulation_day d = d)
        /\ (5 <= Calendar.weekday d ->
            following_monday d (congratulation_day d))
        /\ Calendar.valid_date (congratulation_day d)
        /\ (ys = Y_zero_filled
            \/ 1000 <= Calendar.year (congratulation_day d) ->
            is_DDMMYYYY (Strftime.strftime ys (congratulation_day d))))
  /\ (forall nm ps y,
        get_upcoming_birthdays ys (mkdate 2024 3 10)
          (book_of (contact nm ps y 3 12))
        = (Ret [ {| greeting_name := nm;
                    congratulation_date := lit "12.03.2024" |} ],
           book_of (contact nm ps y 3 12)))
  /\ (forall nm ps y,
        Calendar.weekday (mkdate 2024 3 16) = 5
        /\ get_upcoming_birthdays ys (mkdate 2024 3 10)
             (book_of (contact nm ps y 3 16))
           = (Ret [ {| greeting_name := nm;
                       congratulation_date := lit "18.03.2024" |} ],
              book_of (contact nm ps y 3 16))).
Proof.
  split; [|split; [|split]].
  - intros today w Ht Hnext. unfold get_upcoming_birthdays.
    rewrite (upcoming_loop_spec ys today (values w) [] Ht Hnext).
    reflexivity.
  - intros d Hv.
    assert (Hv' : Calendar.valid_date (congratulation_day d)).
    { destruct (Z.ltb_spec (Calendar.weekday d) 5) as [Hw | Hw].
      - rewrite congratulation_day_weekday by exact Hw. exact Hv.
      - apply (congratulation_day_weekend d Hv Hw). }
    split; [apply congratulation_day_weekday|].
    split; [apply congratulation_day_weekend; exact Hv|].
    split; [exact Hv'|]. apply strftime_shape. exact Hv'.
  - intros nm ps y. destruct ys; reflexivity.
  - intros nm ps y. split; [reflexivity|]. destruct ys; reflexivity.
Qed.

Lemma get_upcoming_birthdays_spec_witness :
  get_upcoming_birthdays Y_plain (mkdate 2024 3 10)
    (book_of (contact (lit "ann") [] 1990 3 12))
  = (Ret (omap (greeting_of Y_plain (mkdate 2024 3 10))
            (values (book_of (contact (lit "ann") [] 1990 3 12)))),
     book_of (contact (lit "ann") [] 1990 3 12)).
Proof.
  apply (proj1 (get_upcoming_birthdays_spec Y_plain)).
  - unfold Calendar.valid_date. cbv. repeat split; discriminate.
  - intros record b [<- | []] Hb. injection Hb as <-.
    exists (mkdate 2024 3 12). reflexivity.
Defined.

(** C1 as stated fails: the function does not return for every book and
    every day.  With a birthday on 29 February and a today in 2023, and
    with a birthday on 1 January and a today at the end of the year 9999,
    the year substitution raises. *)
Lemma get_upcoming_birthdays_raises :
  fst (get_upcoming_birthdays Y_plain (mkdate 2023 2 25)
         (book_of (contact (lit "ann") [] 2000 2 29)))
  = Raise (ValueError Calendar.date_error)
  /\ fst (get_upcoming_birthdays Y_plain (mkdate 9999 12 30)
            (book_of (contact (lit "ann") [] 2000 1 1)))
     = Raise (ValueError Calendar.date_error).
Proof. split; reflexivity. Qed.

(** C5: a book made with the commands [add] and [add-birthday] holds a
    birthday on 29 February of the leap year 2024; with a today in 2025,
    not a leap year, [get_upcoming_birthdays] raises the [ValueError] of
    the year substitution and returns no list. *)
Theorem leap_day_birthday_raises (ys : year_style) :
  exists (w : world) (today : Calendar.date) (record : RecordObj)
         (b : Birthday),
    w = leap_day_book
    /\ In record (values w) /\ birthday record = Some b
    /\ Calendar.month (Birthday_value b) = 2
    /\ Calendar.day (Birthday_value b) = 29
    /\ Calendar._is_leap (Calendar.year (Birthday_value b)) = true
    /\ Calendar.valid_date today
    /\ Calendar._is_leap (Calendar.year today) = false
    /\ get_upcoming_birthdays ys today w
       = (Raise (ValueError Calendar.date_error), w).
Proof.
  exists leap_day_book, (mkdate 2025 2 25),
    (contact (lit "bob") [ {| Phone_value := lit "0991112233" |} ] 2024 2 29),
    {| Birthday_value := mkdate 2024 2 29 |}.
  split; [reflexivity|]. split; [left; reflexivity|].
  do 4 (split; [reflexivity|]).
  split; [unfold Calendar.valid_date; cbv; repeat split; discriminate|].
  split; [reflexivity|]. destruct ys; reflexivity.
Qed.

(** * Further properties of the program *)

(** ** More on records *)

Lemma find_phone_Some (v : str) (self : RecordObj) (p : Phone) :
  find_phone v self = Some p ->
  exists pre post,
    phones self = pre ++ p :: post /\ no_phone v pre /\ Phone_value p = v.
Proof.
  intros Hp.
  destruct (first_phone_split v (phones self))
    as [Hno | (pre & q & post & Hps & Hpre & Hq)].
  - apply find_phone_none in Hno. congruence.
  - rewrite (find_phone_first v pre post q self Hps Hpre Hq) in Hp.
    injection Hp as <-. eauto.
Qed.

(** X1: [find_phone(v)] returns the first phone with the value [v], and
    [None] exactly when no phone has it. *)
Theorem find_phone_spec (v : str) (self : RecordObj) :
  (forall p, find_phone v self = Some p ->
     exists pre post,
       phones self = pre ++ p :: post /\ no_phone v pre /\ Phone_value p = v)
  /\ (find_phone v self = None <-> no_phone v (phones self)).
Proof.
  split.
  - intros p. apply find_phone_Some.
  - symmetry. apply find_phone_none.
Qed.

Lemma find_phone_spec_witness :
  exists pre post,
    phones sample_record
    = pre ++ {| Phone_value := lit "0670000000" |} :: post
    /\ no_phone (lit "0670000000") pre
    /\ Phone_value {| Phone_value := lit "0670000000" |} = lit "0670000000".
Proof.
  apply (proj1 (find_phone_spec (lit "0670000000") sample_record)).
  reflexivity.
Defined.

Lemma add_phone_Ret (v : str) (p : Phone) (self : RecordObj) :
  Phone_init (PyStr v) = Ret p ->
  p = {| Phone_value := v |}
  /\ add_phone v self = (Ret tt, set_phones (phones self ++ [p]) self).
Proof.
  intros Hp. unfold add_phone. rewrite Hp. split; [|reflexivity].
  destruct (Phone_init_total (PyStr v)) as [(s & Hs & Hr) | Hr].
  - injection Hs as <-. congruence.
  - congruence.
Qed.

Lemma find_phone_is_Some (v : str) (self : RecordObj) (p : Phone) :
  In p (phones self) -> Phone_value p = v ->
  exists q, find_phone v self = Some q.
Proof.
  intros Hin Hv. destruct (find_phone v self) as [q|] eqn:Hf; [eauto|].
  apply find_phone_none in Hf. unfold no_phone in Hf.
  rewrite Forall_forall in Hf. apply list_elem_of_In in Hin.
  exfalso. apply (Hf p Hin Hv).
Qed.

(** X2: [add_phone(v)] with a [v] that makes a [Phone] puts the phone at
    the end of the phones, one more than before and with no check for a
    phone already there, and [find_phone(v)] then finds a phone; with any
    other [v] it raises the [ValueError] of the constructor and the
    record is as before. *)
Theorem add_phone_spec (v : str) (self : RecordObj) :
  (forall p, Phone_init (PyStr v) = Ret p ->
     let self' := snd (add_phone v self) in
     fst (add_phone v self) = Ret tt
     /\ phones self' = phones self ++ [ {| Phone_value := v |} ]
     /\ name self' = name self /\ birthday self' = birthday self
     /\ length (phones self') = S (length (phones self))
     /\ exists q, find_phone v self' = Some q /\ Phone_value q = v)
  /\ ((~ exists p, Phone_init (PyStr v) = Ret p) ->
      add_phone v self = (Raise (ValueError phone_error), self)).
Proof.
  split.
  - intros p Hp self'. subst self'.
    destruct (add_phone_Ret v p self Hp) as [-> Hrun]. rewrite Hrun.
    cbn [fst snd set_phones phones name birthday].
    do 4 (split; [reflexivity|]).
    split; [rewrite length_app; simpl; lia|].
    destruct (find_phone_is_Some v
                (set_phones (phones self ++ [ {| Phone_value := v |} ]) self)
                {| Phone_value := v |}) as [q Hq].
    + simpl. apply in_or_app. right. left. reflexivity.
    + reflexivity.
    + exists q. split; [exact Hq|].
      destruct (find_phone_Some v _ q Hq) as (pre & post & _ & _ & H).
      exact H.
  - intros Hbad. unfold add_phone.
    destruct (Phone_init_total (PyStr v)) as [(s & _ & Hr) | Hr].
    + exfalso. apply Hbad. eauto.
    + rewrite Hr. reflexivity.
Qed.

Lemma add_phone_spec_witness :
  phones (snd (add_phone (lit "0991112233") sample_record))
  = phones sample_record ++ [ {| Phone_value := lit "0991112233" |} ]
  /\ add_phone (lit "12ab") sample_record
     = (Raise (ValueError phone_error), sample_record).
Proof.
  split.
  - apply (proj1 (add_phone_spec (lit "0991112233") sample_record)
             {| Phone_value := lit "0991112233" |} eq_refl).
  - apply (proj2 (add_phone_spec (lit "12ab") sample_record)).
    intros [p Hp]. vm_compute in Hp. discriminate.
Defined.

Lemma set_phones_same (self : RecordObj) : set_phones (phones self) self = self.
Proof. destruct self. reflexivity. Qed.

(** X3: [remove_phone(v)] after a successful [add_phone(v)] gives the
    record back as it was when no phone had the value [v] before; when
    one had, it is the earlier phone that goes and the added one
    stays. *)
Theorem add_then_remove_phone (v : str) (self : RecordObj) (p : Phone) :
  Phone_init (PyStr v) = Ret p ->
  (no_phone v (phones self) ->
     remove_phone v (snd (add_phone v self)) = (Ret tt, self))
  /\ (forall pre q post,
        phones self = pre ++ q :: post -> no_phone v pre ->
        Phone_value q = v ->
        remove_phone v (snd (add_phone v self))
        = (Ret tt, set_phones (pre ++ post ++ [p]) self)).
Proof.
  intros Hp. destruct (add_phone_Ret v p self Hp) as [Hpv Hrun].
  rewrite Hrun. cbn [snd]. split.
  - intros Hno.
    rewrite (remove_phone_first v (phones self) [] p
               (set_phones (phones self ++ [p]) self)).
    + rewrite app_nil_r. unfold set_phones. simpl. destruct self. reflexivity.
    + reflexivity.
    + exact Hno.
    + subst p. reflexivity.
  - intros pre q post Hps Hpre Hq.
    rewrite (remove_phone_first v pre (post ++ [p]) q
               (set_phones (phones self ++ [p]) self)).
    + reflexivity.
    + simpl. rewrite Hps, <- app_assoc. reflexivity.
    + exact Hpre.
    + exact Hq.
Qed.

Lemma add_then_remove_phone_witness :
  remove_phone (lit "0991112233")
    (snd (add_phone (lit "0991112233") sample_record))
  = (Ret tt, sample_record).
Proof.
  apply (proj1 (add_then_remove_phone (lit "0991112233") sample_record
                  {| Phone_value := lit "0991112233" |} eq_refl)).
  repeat constructor; intros H; vm_compute in H; discriminate.
Defined.

(** X4: an [edit_phone] that returns keeps the number of phones, the name
    and the birthday, and the new phone is the last one; so
    [edit_phone(v, v)] is no identity: it moves the first phone with the
    value [v] to the end. *)
Theorem edit_phone_keeps_count (old_phone new_phone : str)
    (self self' : RecordObj) :
  edit_phone old_phone new_phone self = (Ret tt, self') ->
  length (phones self') = length (phones self)
  /\ name self' = name self /\ birthday self' = birthday self
  /\ last (phones self') = Some {| Phone_value := new_phone |}
  /\ exists pre q post,
       phones self = pre ++ q :: post /\ no_phone old_phone pre
       /\ Phone_value q = old_phone
       /\ phones self' = pre ++ post ++ [ {| Phone_value := new_phone |} ].
Proof.
  intros Hrun.
  destruct (first_phone_split old_phone (phones self))
    as [Hno | (pre & q & post & Hps & Hpre & Hq)].
  - exfalso. revert Hrun. unfold edit_phone.
    apply find_phone_none in Hno. rewrite Hno. discriminate.
  - destruct (Phone_init_total (PyStr new_phone)) as [(s & Hs & Hr) | Hr].
    + injection Hs as <-. revert Hrun. unfold edit_phone.
      rewrite (find_phone_first _ _ _ _ _ Hps Hpre Hq), Hr.
      rewrite (remove_phone_first _ _ _ _ _ Hps Hpre Hq).
      intros Hrun. injection Hrun as <-.
      cbn [set_phones phones name birthday].
      split; [rewrite Hps; repeat (rewrite length_app; simpl); lia|].
      do 2 (split; [reflexivity|]).
      split; [apply last_snoc|].
      exists pre, q, post. rewrite <- app_assoc. auto.
    + exfalso. revert Hrun. unfold edit_phone.
      rewrite (find_phone_first _ _ _ _ _ Hps Hpre Hq), Hr. discriminate.
Qed.

Lemma edit_phone_keeps_count_witness :
  length (phones (set_phones
                    [ {| Phone_value := lit "0670000000" |};
                      {| Phone_value := lit "0501234567" |};
                      {| Phone_value := lit "0501234567" |} ] sample_record))
  = length (phones sample_record).
Proof.
  apply (proj1 (edit_phone_keeps_count (lit "0501234567") (lit "0501234567")
                  sample_record _ eq_refl)).
Defined.

(** ** More on birthdays *)

Lemma strptime_total (s : str) :
  (exists x, Strptime.strptime s = Ret x)
  \/ exists msg, Strptime.strptime s = Raise (ValueError msg).
Proof.
  unfold Strptime.strptime.
  destruct (Strptime.pattern_match Strptime.format_regex s) as [[rest g]|];
    [|right; eauto].
  destruct (negb (Nat.eqb (length rest) 0)); [right; eauto|].
  destruct (Strptime.group "Y" g); [|right; eauto].
  destruct (Strptime.group "m" g); [|right; eauto].
  destruct (Strptime.group "d" g); [|right; eauto].
  destruct (Strptime.py_int s0); [|right; eauto].
  destruct (Strptime.py_int s1); [|right; eauto].
  destruct (Strptime.py_int s2); [|right; eauto].
  unfold Calendar.new_date.
  repeat match goal with
         | |- context [if ?c then _ else _] => destruct c
         end; eauto.
Qed.

Lemma Birthday_init_total (s : str) :
  (exists b, Birthday_init s = Ret b)
  \/ Birthday_init s = Raise (ValueError birthday_error).
Proof.
  unfold Birthday_init.
  destruct (strptime_total s) as [[x ->] | [msg ->]]; eauto.
Qed.

(** X5: whatever text [Birthday] is made from, the birthday made holds a
    calendar date (a year from 1 to 9999, a month from 1 to 12, a day of
    that month in that year), and a text that makes none raises the
    [ValueError] "Invalid date format. Use DD.MM.YYYY" and no other
    exception. *)
Theorem Birthday_init_valid (s : str) :
  (forall b, Birthday_init s = Ret b ->
     Calendar.valid_date (Birthday_value b))
  /\ ((exists b, Birthday_init s = Ret b)
      \/ Birthday_init s = Raise (ValueError birthday_error))
  /\ birthday_error = lit "Invalid date format. Use DD.MM.YYYY".
Proof.
  split; [|split; [apply Birthday_init_total | reflexivity]].
  intros b Hb. apply Birthday_init_Ret in Hb.
  eapply strptime_valid. exact Hb.
Qed.

Lemma Birthday_init_valid_witness :
  Calendar.valid_date
    (Birthday_value {| Birthday_value := mkdate 2024 2 29 |}).
Proof.
  apply (proj1 (Birthday_init_valid (lit "29.02.2024"))). reflexivity.
Defined.

(** X6: a text of the shape DD.MM.YYYY makes a [Birthday] exactly when
    its three numbers are a calendar date, and the birthday then holds
    that date; 30.02.2024, 00.01.2024 and 01.01.0000 make none. *)
Theorem Birthday_init_DDMMYYYY (d1 d2 m1 m2 y1 y2 y3 y4 : N) :
  forallb Unicode.is_ascii_digit [d1; d2; m1; m2; y1; y2; y3; y4] = true ->
  let s := [d1; d2; Strptime.dot; m1; m2; Strptime.dot; y1; y2; y3; y4] in
  let x := mkdate (1000 * dv y1 + 100 * dv y2 + 10 * dv y3 + dv y4)
             (10 * dv m1 + dv m2) (10 * dv d1 + dv d2) in
  (Calendar.valid_date x -> Birthday_init s = Ret {| Birthday_value := x |})
  /\ (~ Calendar.valid_date x ->
      Birthday_init s = Raise (ValueError birthday_error)).
Proof.
  intros Hdig s x. subst s.
  assert (Hrun : Birthday_init
            [d1; d2; Strptime.dot; m1; m2; Strptime.dot; y1; y2; y3; y4]
          = match (if (1 <=? 10 * dv d1 + dv d2)
                      && (10 * dv d1 + dv d2 <=? 31)
                      && (1 <=? 10 * dv m1 + dv m2)
                      && (10 * dv m1 + dv m2 <=? 12)
                   then Calendar.new_date (Calendar.year x) (Calendar.month x)
                          (Calendar.day x)
                   else Raise (ValueError Strptime.no_match)) with
            | Ret d => Ret {| Birthday_value := d |}
            | Raise (ValueError _) => Raise (ValueError birthday_error)
            | Raise e => Raise e
            end).
  { unfold Birthday_init. rewrite (strptime_DDMMYYYY _ _ _ _ _ _ _ _ Hdig).
    reflexivity. }
  rewrite Hrun. clear Hrun. split.
  - intros Hv. pose proof Hv as (_ & Hm & Hd).
    pose proof (days_in_month_bound (Calendar.year x) (Calendar.month x)).
    cbn [Calendar.year Calendar.month Calendar.day x mkdate] in Hm, Hd, H.
    replace ((1 <=? 10 * dv d1 + dv d2) && (10 * dv d1 + dv d2 <=? 31)
             && (1 <=? 10 * dv m1 + dv m2) && (10 * dv m1 + dv m2 <=? 12))
      with true by (symmetry; rewrite !andb_true_iff, !Z.leb_le; lia).
    rewrite (new_date_valid x Hv). reflexivity.
  - intros Hnv. destruct (_ && _); [|reflexivity].
    destruct (Calendar.new_date _ _ _) as [d | e] eqn:Hn.
    + apply new_date_Ret in Hn. destruct Hn as [-> Hv]. contradiction.
    + unfold Calendar.new_date in Hn.
      repeat match type of Hn with
             | (if ?c then _ else _) = _ => destruct c
             end; try discriminate; injection Hn as <-; reflexivity.
Qed.

Lemma Birthday_init_DDMMYYYY_witness :
  Birthday_init (lit "29.02.2024")
  = Ret {| Birthday_value := mkdate 2024 2 29 |}
  /\ Birthday_init (lit "30.02.2024") = Raise (ValueError birthday_error).
Proof.
  split.
  - apply (proj1 (Birthday_init_DDMMYYYY 50 57 48 50 50 48 50 52 eq_refl)).
    unfold Calendar.valid_date. cbv. repeat split; discriminate.
  - apply (proj2 (Birthday_init_DDMMYYYY 51 48 48 50 50 48 50 52 eq_refl)).
    unfold Calendar.valid_date. cbv. intros (_ & _ & _ & H). apply H.
    reflexivity.
Defined.

(** ** More on the commands *)

Lemma insert_deref (w : world) (r : ref) :
  {| heap := <[r := deref w r]> (heap w); data := data w |} = w.
Proof.
  destruct w as [h d]. unfold deref. simpl. f_equal.
  destruct (Nat.lt_ge_cases r (length h)) as [Hlt | Hge].
  - apply list_insert_id. apply list_lookup_lookup_total_lt. exact Hlt.
  - apply list_insert_ge. exact Hge.
Qed.

(** A method that raises without touching its object leaves the world
    as it was. *)
Lemma call_raise {A} (r : ref) (m : method A) (w : world) (e : exn) :
  m (deref w r) = (Raise e, deref w r) -> call r m w = (Raise e, w).
Proof. intros H. unfold call. rewrite H, insert_deref. reflexivity. Qed.

Lemma call_Ret {A} (r : ref) (m : method A) (w : world) (a : A)
    (self' : RecordObj) :
  m (deref w r) = (Ret a, self') ->
  call r m w = (Ret a, {| heap := <[r := self']> (heap w); data := data w |}).
Proof. intros H. unfold call. rewrite H. reflexivity. Qed.

Lemma add_phone_cases (v : str) (self : RecordObj) :
  add_phone v self
  = (Ret tt, set_phones (phones self ++ [ {| Phone_value := v |} ]) self)
  \/ add_phone v self = (Raise (ValueError phone_error), self).
Proof.
  unfold add_phone.
  destruct (Phone_init_total (PyStr v)) as [(s & Hs & ->) | ->];
    [injection Hs as <-; left | right]; reflexivity.
Qed.

Lemma edit_phone_cases (old_phone new_phone : str) (self : RecordObj) :
  (exists self', edit_phone old_phone new_phone self = (Ret tt, self')
                 /\ birthday self' = birthday self)
  \/ exists msg,
       edit_phone old_phone new_phone self = (Raise (ValueError msg), self).
Proof.
  unfold edit_phone.
  destruct (first_phone_split old_phone (phones self))
    as [Hno | (pre & q & post & Hps & Hpre & Hq)].
  - apply find_phone_none in Hno. rewrite Hno. right. eauto.
  - rewrite (find_phone_first _ _ _ _ _ Hps Hpre Hq).
    destruct (Phone_init_total (PyStr new_phone)) as [(s & _ & ->) | ->].
    + rewrite (remove_phone_first _ _ _ _ _ Hps Hpre Hq). left.
      eexists. split; reflexivity.
    + right. eauto.
Qed.

Lemma add_birthday_method_cases (value : str) (self : RecordObj) :
  (exists b, Birthday_init value = Ret b
             /\ add_birthday_method value self
                = (Ret tt, set_birthday (Some b) self))
  \/ (add_birthday_method value self
      = (Raise (ValueError birthday_error), self)
      /\ ~ exists b, Birthday_init value = Ret b).
Proof.
  unfold add_birthday_method.
  destruct (Birthday_init_total value) as [[b Hb] | Hr].
  - rewrite Hb. left. eauto.
  - rewrite Hr. right. split; [reflexivity|]. intros [b Hb]. congruence.
Qed.

(** One turn of the loop of [get_upcoming_birthdays] raises the
    [ValueError] of the year substitution or goes on; the shift to
    Monday never leaves the range of dates. *)
Lemma upcoming_loop_cases (ys : year_style) (today : Calendar.date)
    (record : RecordObj) (todo : list RecordObj) (acc : list greeting) :
  upcoming_loop ys today (record :: todo) acc
  = Raise (ValueError Calendar.date_error)
  \/ exists acc', upcoming_loop ys today (record :: todo) acc
                  = upcoming_loop ys today todo acc'.
Proof.
  cbn [upcoming_loop]. destruct (birthday record) as [b|]; [|eauto].
  rewrite replace_year_occurrence.
  destruct (occurrence_in _ (Birthday_value b)) as [d1|] eqn:H1;
    [|left; reflexivity].
  cbn [obind].
  assert (Hsecond :
    (if Calendar.date_ltb d1 today
     then Calendar.replace_year d1 (Calendar.year today + 1)
     else Ret d1) = Raise (ValueError Calendar.date_error)
    \/ exists d, (if Calendar.date_ltb d1 today
                  then Calendar.replace_year d1 (Calendar.year today + 1)
                  else Ret d1) = Ret d /\ Calendar.valid_date d).
  { destruct (Calendar.date_ltb d1 today).
    - rewrite replace_year_occurrence.
      destruct (occurrence_in _ d1) as [d|] eqn:H2; [|left; reflexivity].
      right. exists d. split; [reflexivity|].
      apply (occurrence_in_Some _ _ _ H2).
    - right. exists d1. split; [reflexivity|].
      apply (occurrence_in_Some _ _ _ H1). }
  destruct Hsecond as [-> | (d & -> & Hv)]; [left; reflexivity|].
  cbn [obind].
  destruct (Calendar.sub_days d today <=? 7); [|eauto].
  destruct (Z.leb_spec 5 (Calendar.weekday d)) as [Hw | Hw].
  - rewrite (add_days_weekend d Hv Hw). cbn [obind]. eauto.
  - cbn [obind]. eauto.
Qed.

Lemma upcoming_loop_total (ys : year_style) (today : Calendar.date)
    (todo : list RecordObj) (acc : list greeting) :
  upcoming_loop ys today todo acc = Raise (ValueError Calendar.date_error)
  \/ exists gs, upcoming_loop ys today todo acc = Ret gs.
Proof.
  revert acc. induction todo as [|record todo IH]; intros acc.
  - right. eexists. reflexivity.
  - destruct (upcoming_loop_cases ys today record todo acc)
      as [-> | [acc' ->]]; [left; reflexivity | apply IH].
Qed.

Lemma input_error_answers (f : M pyval) (w : world) :
  (forall e w', f w = (Raise e, w') -> exists msg, e = ValueError msg) ->
  (forall v w', f w = (Ret v, w') -> v = PyNone \/ exists s, v = PyStr s) ->
  answers (input_error f w).
Proof.
  intros Hraise Hret. unfold answers, input_error.
  destruct (f w) as [[v | e] w'] eqn:Hf.
  - destruct (Hret v w' eq_refl) as [-> | [s ->]]; exact I.
  - destruct (Hraise e w' eq_refl) as [msg ->]. exact I.
Qed.

Ltac run_find w nm :=
  unfold mbind_world at 1; unfold find at 1; cbn beta iota;
  destruct (dict_get (data w) nm) as [?r|].

Lemma handlers_answer (ys : year_style) (today : Calendar.date)
    (args : list str) (w : world) :
  answers (add_contact args w)
  /\ answers (change_contact args w)
  /\ answers (show_phone args w)
  /\ answers (show_all ys w)
  /\ answers (add_birthday args w)
  /\ answers (show_birthday ys args w)
  /\ answers (birthdays ys today args w).
Proof.
  repeat split.
  - apply input_error_answers; unfold add_contact_func;
      destruct args as [|nm [|phone [|x args]]];
      try (intros ? ? H; injection H as <- <-; auto; fail);
      try (intros ? ? H; discriminate H).
    + run_find w nm.
      * unfold mbind_world, call, ret.
        destruct (add_phone_cases phone (deref w r)) as [-> | ->];
          intros e w' H; [discriminate | injection H as <- _; eauto].
      * unfold mbind_world, new_record, call, add_record, ret.
        match goal with
        | |- context [add_phone phone ?o] =>
            destruct (add_phone_cases phone o) as [-> | ->]
        end; intros e w' H; [discriminate | injection H as <- _; eauto].
    + run_find w nm.
      * unfold mbind_world, call, ret.
        destruct (add_phone_cases phone (deref w r)) as [-> | ->];
          intros v w' H; [injection H as <- _; eauto | discriminate].
      * unfold mbind_world, new_record, call, add_record, ret.
        match goal with
        | |- context [add_phone phone ?o] =>
            destruct (add_phone_cases phone o) as [-> | ->]
        end; intros v w' H; [injection H as <- _; eauto | discriminate].
  - apply input_error_answers; unfold change_contact_func;
      destruct args as [|nm [|old [|new [|x args]]]];
      try (intros ? ? H; injection H as <- <-; auto; fail);
      try (intros ? ? H; discriminate H).
    + run_find w nm; [|intros ? ? H; discriminate H].
      unfold mbind_world, call, ret.
      destruct (edit_phone_cases old new (deref w r))
        as [(self' & -> & _) | [msg ->]];
        intros e w' H; [discriminate | injection H as <- _; eauto].
    + run_find w nm; [|intros ? ? H; injection H as <- _; eauto].
      unfold mbind_world, call, ret.
      destruct (edit_phone_cases old new (deref w r))
        as [(self' & -> & _) | [msg ->]];
        intros v w' H; [injection H as <- _; eauto | discriminate].
  - apply input_error_answers; unfold show_phone_func;
      destruct args as [|nm [|x args]];
      try (intros ? ? H; injection H as <- <-; auto; fail);
      try (intros ? ? H; discriminate H).
    + run_find w nm; intros ? ? H; discriminate H.
    + run_find w nm; intros ? ? H; injection H as <- _; eauto.
  - apply input_error_answers; unfold show_all_func;
      destruct (negb (Nat.eqb (length (data w)) 0));
      intros ? ? H; try discriminate H; injection H as <- _; eauto.
  - apply input_error_answers; unfold add_birthday_func;
      destruct args as [|nm [|bd [|x args]]];
      try (intros ? ? H; injection H as <- <-; auto; fail);
      try (intros ? ? H; discriminate H).
    + run_find w nm; [|intros ? ? H; discriminate H].
      unfold mbind_world, call, ret.
      destruct (add_birthday_method_cases bd (deref w r))
        as [(b & _ & ->) | [-> _]];
        intros e w' H; [discriminate | injection H as <- _; eauto].
    + run_find w nm; [|intros ? ? H; injection H as <- _; eauto].
      unfold mbind_world, call, ret.
      destruct (add_birthday_method_cases bd (deref w r))
        as [(b & _ & ->) | [-> _]];
        intros v w' H; [injection H as <- _; eauto | discriminate].
  - apply input_error_answers; unfold show_birthday_func;
      destruct args as [|nm [|x args]];
      try (intros ? ? H; injection H as <- <-; auto; fail);
      try (intros ? ? H; discriminate H).
    + run_find w nm; [destruct (birthday (deref w r))|];
        intros ? ? H; discriminate H.
    + run_find w nm; [destruct (birthday (deref w r))|];
        intros ? ? H; injection H as <- _; eauto.
  - apply input_error_answers;
      unfold birthdays_func, mbind_world, get_upcoming_birthdays, ret;
      destruct (upcoming_loop_total ys today (values w) [])
        as [-> | [[|g gs] ->]];
      intros ? ? H; try discriminate H; injection H as <- _; eauto.
Qed.

Lemma answers_returns (r : outcome pyval * world) :
  answers r ->
  exists v w', r = (Ret v, w') /\ (v = PyNone \/ exists t, v = PyStr t).
Proof.
  unfold answers. destruct r as [[[| b | z | b | t] | e] w']; cbn [fst];
    intros H; try destruct H; eauto 6.
Qed.

(** X7: no command raises.  Whatever the arguments and the book, each of
    the seven handlers under [input_error] returns, and what it returns
    is a [str] or [None]. *)
Theorem handlers_always_answer (ys : year_style) (today : Calendar.date)
    (args : list str) (w : world) :
  Forall (fun r => exists v w',
                     r = (Ret v, w') /\ (v = PyNone \/ exists t, v = PyStr t))
    [ add_contact args w; change_contact args w; show_phone args w;
      show_all ys w; add_birthday args w; show_birthday ys args w;
      birthdays ys today args w ].
Proof.
  destruct (handlers_answer ys today args w)
    as (A1 & A2 & A3 & A4 & A5 & A6 & A7).
  repeat (constructor; [apply answers_returns; assumption|]).
  constructor.
Qed.

Lemma show_commands_read_only_aux (ys : year_style) (today : Calendar.date)
    (args : list str) (w : world) :
  snd (show_phone args w) = w
  /\ snd (show_birthday ys args w) = w
  /\ snd (birthdays ys today args w) = w.
Proof.
  unfold show_phone, show_birthday, birthdays.
  rewrite !input_error_world. repeat split.
  - unfold show_phone_func. destruct args as [|nm [|x args]]; try reflexivity.
    rewrite mbind_find_ok. destruct (dict_get (data w) nm); reflexivity.
  - unfold show_birthday_func.
    destruct args as [|nm [|x args]]; try reflexivity.
    rewrite mbind_find_ok. destruct (dict_get (data w) nm) as [r|];
      [destruct (birthday (deref w r))|]; reflexivity.
  - unfold birthdays_func, mbind_world, get_upcoming_birthdays.
    destruct (upcoming_loop ys today (values w) []) as [[|g gs] | e];
      reflexivity.
Qed.

Lemma show_all_world (ys : year_style) (w : world) : snd (show_all ys w) = w.
Proof.
  unfold show_all. rewrite input_error_world. unfold show_all_func.
  destruct (negb (Nat.eqb (length (data w)) 0)); reflexivity.
Qed.

(** X8: the commands that show something change nothing: [phone],
    [all], [show-birthday] and [birthdays] leave the book and every
    record as they were, whatever the arguments. *)
Theorem show_commands_read_only (ys : year_style) (today : Calendar.date)
    (args : list str) (w : world) :
  snd (show_phone args w) = w
  /\ snd (show_all ys w) = w
  /\ snd (show_birthday ys args w) = w
  /\ snd (birthdays ys today args w) = w.
Proof.
  destruct (show_commands_read_only_aux ys today args w) as (H1 & H2 & H3).
  pose proof (show_all_world ys w). auto.
Qed.

(** A property of records that the methods keep holds for every object
    of the heap after a command, when it held before. *)
Section HeapInvariant.
Variable Q : RecordObj -> Prop.
Hypothesis Q_new : forall nm, Q (Record_init nm).
Hypothesis Q_add_phone : forall v self, Q self -> Q (snd (add_phone v self)).
Hypothesis Q_edit_phone :
  forall o n self, Q self -> Q (snd (edit_phone o n self)).
Hypothesis Q_add_birthday :
  forall v self, Q self -> Q (snd (add_birthday_method v self)).

Lemma heap_all_deref (w : world) (r : ref) :
  Forall Q (heap w) -> Q (deref w r).
Proof.
  intros Hw. unfold deref.
  destruct (Nat.lt_ge_cases r (length (heap w))) as [Hlt | Hge].
  - rewrite Forall_lookup in Hw. apply (Hw r).
    apply list_lookup_lookup_total_lt. exact Hlt.
  - rewrite list_lookup_total_alt, lookup_ge_None_2 by exact Hge.
    apply (Q_new []).
Qed.

Lemma call_heap_all {A} (r : ref) (m : method A) (w : world) :
  (Q (deref w r) -> Q (snd (m (deref w r)))) ->
  Forall Q (heap w) -> Forall Q (heap (snd (call r m w))).
Proof.
  intros Hm Hw. pose proof (Hm (heap_all_deref w r Hw)) as Hself.
  unfold call. destruct (m (deref w r)) as [a self']. simpl.
  apply Forall_insert; assumption.
Qed.

Lemma call_then_ret_heap_all {A} (r : ref) (m : method A) (v : pyval)
    (w : world) :
  (Q (deref w r) -> Q (snd (m (deref w r)))) ->
  Forall Q (heap w) ->
  Forall Q (heap (snd (mbind_world (call r m) (fun _ => ret v) w))).
Proof.
  intros Hm Hw. pose proof (call_heap_all r m w Hm Hw) as Hc.
  unfold mbind_world. destruct (call r m w) as [[a | e] w']; exact Hc.
Qed.

Lemma handlers_keep_heap_all (ys : year_style) (today : Calendar.date)
    (args : list str) (w : world) :
  Forall Q (heap w) ->
  Forall Q (heap (snd (add_contact args w)))
  /\ Forall Q (heap (snd (change_contact args w)))
  /\ Forall Q (heap (snd (show_phone args w)))
  /\ Forall Q (heap (snd (show_all ys w)))
  /\ Forall Q (heap (snd (add_birthday args w)))
  /\ Forall Q (heap (snd (show_birthday ys args w)))
  /\ Forall Q (heap (snd (birthdays ys today args w))).
Proof.
  intros Hw.
  destruct (show_commands_read_only_aux ys today args w) as (R3 & R6 & R7).
  rewrite show_all_world, R3, R6, R7.
  split; [|split; [|split; [|split; [|split; [|split]]]]]; try exact Hw.
  - unfold add_contact. rewrite input_error_world. unfold add_contact_func.
    destruct args as [|nm [|phone [|x args]]]; try exact Hw.
    rewrite mbind_find_ok. destruct (dict_get (data w) nm) as [r|].
    + apply call_then_ret_heap_all; [apply Q_add_phone | exact Hw].
    + unfold mbind_world at 1. unfold new_record at 1. cbn beta iota.
      set (w1 := {| heap := heap w ++ [Record_init nm]; data := data w |}).
      assert (Hw1 : Forall Q (heap w1)).
      { unfold w1. simpl. apply Forall_app. split; [exact Hw|].
        constructor; [apply Q_new | constructor]. }
      pose proof (call_heap_all (length (heap w)) (add_phone phone) w1
                    (Q_add_phone _ _) Hw1) as Hc.
      unfold mbind_world at 1.
      destruct (call (length (heap w)) (add_phone phone) w1)
        as [[u | e] w2]; exact Hc.
  - unfold change_contact. rewrite input_error_world.
    unfold change_contact_func.
    destruct args as [|nm [|old [|new [|x args]]]]; try exact Hw.
    rewrite mbind_find_ok. destruct (dict_get (data w) nm) as [r|];
      [|exact Hw].
    apply call_then_ret_heap_all; [apply Q_edit_phone | exact Hw].
  - unfold add_birthday. rewrite input_error_world. unfold add_birthday_func.
    destruct args as [|nm [|bd [|x args]]]; try exact Hw.
    rewrite mbind_find_ok. destruct (dict_get (data w) nm) as [r|];
      [|exact Hw].
    apply call_then_ret_heap_all; [apply Q_add_birthday | exact Hw].
Qed.

End HeapInvariant.

Lemma add_phone_birthday (v : str) (self : RecordObj) :
  birthday (snd (add_phone v self)) = birthday self.
Proof. destruct (add_phone_cases v self) as [-> | ->]; reflexivity. Qed.

Lemma edit_phone_birthday (old_phone new_phone : str) (self : RecordObj) :
  birthday (snd (edit_phone old_phone new_phone self)) = birthday self.
Proof.
  destruct (edit_phone_cases old_phone new_phone self)
    as [(self' & -> & H) | [msg ->]]; [exact H | reflexivity].
Qed.

Lemma add_birthday_method_valid (value : str) (self : RecordObj)
    (b : Birthday) :
  (forall b0, birthday self = Some b0 ->
              Calendar.valid_date (Birthday_value b0)) ->
  birthday (snd (add_birthday_method value self)) = Some b ->
  Calendar.valid_date (Birthday_value b).
Proof.
  intros Hself.
  destruct (add_birthday_method_cases value self)
    as [(b' & Hb' & ->) | [-> _]]; cbn [snd].
  - cbn. intros H. injection H as <-. apply Birthday_init_Ret in Hb'.
    eapply strptime_valid. exact Hb'.
  - apply Hself.
Qed.

Lemma handlers_keep_birthdays_valid (ys : year_style) (today : Calendar.date)
    (args : list str) (w : world) :
  birthdays_valid w ->
  birthdays_valid (snd (add_contact args w))
  /\ birthdays_valid (snd (change_contact args w))
  /\ birthdays_valid (snd (show_phone args w))
  /\ birthdays_valid (snd (show_all ys w))
  /\ birthdays_valid (snd (add_birthday args w))
  /\ birthdays_valid (snd (show_birthday ys args w))
  /\ birthdays_valid (snd (birthdays ys today args w)).
Proof.
  apply handlers_keep_heap_all.
  - intros nm b Hb. discriminate Hb.
  - intros v self H b. rewrite add_phone_birthday. apply H.
  - intros o n self H b. rewrite edit_phone_birthday. apply H.
  - intros v self H b. apply add_birthday_method_valid. exact H.
Qed.

Lemma Phone_init_phone_ok (v : str) (p : Phone) :
  Phone_init (PyStr v) = Ret p -> phone_ok p.
Proof.
  rewrite Phone_init_str.
  destruct (forallb Unicode.isdigit v) eqn:Hd; [|discriminate].
  destruct (Nat.eqb (length v) 10) eqn:Hl; [|discriminate].
  intros H. injection H as <-. apply Nat.eqb_eq in Hl. split; assumption.
Qed.

Lemma add_phone_phones_ok (v : str) (self : RecordObj) :
  Forall phone_ok (phones self) ->
  Forall phone_ok (phones (snd (add_phone v self))).
Proof.
  intros H. unfold add_phone.
  destruct (Phone_init (PyStr v)) as [p | e] eqn:Hp; [|exact H].
  cbn. apply Forall_app. split; [exact H|].
  constructor; [apply (Phone_init_phone_ok v p Hp) | constructor].
Qed.

Lemma edit_phone_phones_ok (old_phone new_phone : str) (self : RecordObj) :
  Forall phone_ok (phones self) ->
  Forall phone_ok (phones (snd (edit_phone old_phone new_phone self))).
Proof.
  intros H. unfold edit_phone.
  destruct (first_phone_split old_phone (phones self))
    as [Hno | (pre & q & post & Hps & Hpre & Hq)].
  - apply find_phone_none in Hno. rewrite Hno. exact H.
  - rewrite (find_phone_first _ _ _ _ _ Hps Hpre Hq).
    destruct (Phone_init (PyStr new_phone)) as [p | [msg | | | |]] eqn:Hp;
      try exact H.
    rewrite (remove_phone_first _ _ _ _ _ Hps Hpre Hq). cbn.
    rewrite Hps in H. apply Forall_app in H. destruct H as [H1 H2].
    inversion H2; subst.
    repeat (apply Forall_app; split); try assumption.
    constructor; [apply (Phone_init_phone_ok new_phone p Hp) | constructor].
Qed.

Lemma add_birthday_method_phones (value : str) (self : RecordObj) :
  phones (snd (add_birthday_method value self)) = phones self.
Proof.
  unfold add_birthday_method. destruct (Birthday_init value); reflexivity.
Qed.

Lemma handlers_keep_phones_valid (ys : year_style) (today : Calendar.date)
    (args : list str) (w : world) :
  phones_valid w ->
  phones_valid (snd (add_contact args w))
  /\ phones_valid (snd (change_contact args w))
  /\ phones_valid (snd (show_phone args w))
  /\ phones_valid (snd (show_all ys w))
  /\ phones_valid (snd (add_birthday args w))
  /\ phones_valid (snd (show_birthday ys args w))
  /\ phones_valid (snd (birthdays ys today args w)).
Proof.
  apply (handlers_keep_heap_all
           (fun record => Forall phone_ok (phones record))).
  - intros nm. constructor.
  - intros v self. apply add_phone_phones_ok.
  - intros o n self. apply edit_phone_phones_ok.
  - intros v self H. rewrite add_birthday_method_phones. exact H.
Qed.

Lemma handlers_keep_book_ok (ys : year_style) (today : Calendar.date)
    (args : list str) (w : world) :
  book_ok w ->
  book_ok (snd (add_contact args w))
  /\ book_ok (snd (change_contact args w))
  /\ book_ok (snd (show_phone args w))
  /\ book_ok (snd (show_all ys w))
  /\ book_ok (snd (add_birthday args w))
  /\ book_ok (snd (show_birthday ys args w))
  /\ book_ok (snd (birthdays ys today args w)).
Proof.
  intros (Hok & Hbd & Hph).
  destruct (handlers_keep_world_ok ys today args w Hok)
    as (H1 & H2 & H3 & H5 & H6 & H7).
  destruct (handlers_keep_birthdays_valid ys today args w Hbd)
    as (B1 & B2 & B3 & B4 & B5 & B6 & B7).
  destruct (handlers_keep_phones_valid ys today args w Hph)
    as (P1 & P2 & P3 & P4 & P5 & P6 & P7).
  assert (H4 : world_ok (snd (show_all ys w)))
    by (rewrite show_all_world; exact Hok).
  unfold book_ok. tauto.
Qed.

(** X9: the commands keep the book well formed.  When every name is a key
    once, every reference of the book is to an object, every stored
    birthday is a calendar date and every stored phone is ten digits, the
    same holds after any of the seven commands, whatever its arguments;
    the empty book is well formed. *)
Theorem handlers_keep_invariants (ys : year_style) (today : Calendar.date)
    (args : list str) (w : world) :
  book_ok empty_world
  /\ (book_ok w ->
      Forall (fun r : outcome pyval * world => book_ok (snd r))
        [ add_contact args w; change_contact args w; show_phone args w;
          show_all ys w; add_birthday args w; show_birthday ys args w;
          birthdays ys today args w ]).
Proof.
  split.
  - split; [apply empty_world_ok | split; constructor].
  - intros Hok.
    destruct (handlers_keep_book_ok ys today args w Hok)
      as (H1 & H2 & H3 & H4 & H5 & H6 & H7).
    repeat (constructor; [assumption|]). constructor.
Qed.

Lemma handlers_keep_invariants_witness :
  Forall (fun r : outcome pyval * world => book_ok (snd r))
    [ add_contact [lit "bob"; lit "0991112233"] sample_world;
      change_contact [lit "bob"; lit "0991112233"] sample_world;
      show_phone [lit "bob"; lit "0991112233"] sample_world;
      show_all Y_plain sample_world;
      add_birthday [lit "bob"; lit "0991112233"] sample_world;
      show_birthday Y_plain [lit "bob"; lit "0991112233"] sample_world;
      birthdays Y_plain (mkdate 2024 3 10) [lit "bob"; lit "0991112233"]
        sample_world ].
Proof.
  apply (proj2 (handlers_keep_invariants Y_plain (mkdate 2024 3 10)
                  [lit "bob"; lit "0991112233"] sample_world)).
  split; [split; [apply NoDup_singleton | repeat constructor]|].
  split; [constructor; [intros b Hb; discriminate Hb | constructor]
         | repeat constructor].
Defined.

Lemma mbind_call_ret {A} (r : ref) (m : method A) (v : pyval) (w : world) :
  mbind_world (call r m) (fun _ => ret v) w
  = match m (deref w r) with
    | (Ret _, self') =>
        (Ret v, {| heap := <[r := self']> (heap w); data := data w |})
    | (Raise e, self') =>
        (Raise e, {| heap := <[r := self']> (heap w); data := data w |})
    end.
Proof.
  unfold mbind_world, call, ret. destruct (m (deref w r)) as [[a | e] self'];
    reflexivity.
Qed.

Lemma values_new_object (w : world) (record : RecordObj) :
  world_ok w ->
  values {| heap := heap w ++ [record]; data := data w |} = values w.
Proof.
  intros [_ Hrefs]. unfold values, deref. simpl. apply map_ext_in.
  intros [k r] Hin. rewrite Forall_forall in Hrefs.
  apply list_elem_of_In in Hin. specialize (Hrefs _ Hin). simpl in *.
  apply lookup_total_app_l. exact Hrefs.
Qed.

(** X10: a command that does not report success changes nothing.  After
    [change] or [add-birthday] with any answer but "Contact updated." or
    "Birthday added." the book and every record are as before; after
    [add] with any answer but its two success messages the book has the
    keys and the records it had. *)
Theorem failed_commands_change_nothing (args : list str) (w : world) :
  (forall v w', change_contact args w = (Ret v, w') ->
     v <> PyStr (lit "Contact updated.") -> w' = w)
  /\ (forall v w', add_birthday args w = (Ret v, w') ->
        v <> PyStr (lit "Birthday added.") -> w' = w)
  /\ (forall v w', add_contact args w = (Ret v, w') ->
        v <> PyStr (lit "Phone added to existing contact.") ->
        v <> PyStr (lit "New contact added.") ->
        data w' = data w /\ (world_ok w -> values w' = values w)).
Proof.
  split; [|split].
  - intros v w'. unfold change_contact, input_error, change_contact_func.
    destruct args as [|nm [|old [|new [|x args]]]];
      try (intros H _; injection H as _ <-; reflexivity).
    rewrite mbind_find_ok. destruct (dict_get (data w) nm) as [r|];
      [|intros H _; injection H as _ <-; reflexivity].
    rewrite mbind_call_ret.
    destruct (edit_phone_cases old new (deref w r))
      as [(self' & -> & _) | [msg ->]].
    + intros H Hv. injection H as <- _. congruence.
    + rewrite insert_deref. intros H _. injection H as _ <-. reflexivity.
  - intros v w'. unfold add_birthday, input_error, add_birthday_func.
    destruct args as [|nm [|bd [|x args]]];
      try (intros H _; injection H as _ <-; reflexivity).
    rewrite mbind_find_ok. destruct (dict_get (data w) nm) as [r|];
      [|intros H _; injection H as _ <-; reflexivity].
    rewrite mbind_call_ret.
    destruct (add_birthday_method_cases bd (deref w r))
      as [(b & _ & ->) | [-> _]].
    + intros H Hv. injection H as <- _. congruence.
    + rewrite insert_deref. intros H _. injection H as _ <-. reflexivity.
  - intros v w'. unfold add_contact, input_error, add_contact_func.
    destruct args as [|nm [|phone [|x args]]];
      try (intros H _ _; injection H as _ <-; split; reflexivity).
    rewrite mbind_find_ok. destruct (dict_get (data w) nm) as [r|].
    + rewrite mbind_call_ret.
      destruct (add_phone_cases phone (deref w r)) as [-> | ->].
      * intros H Hv _. injection H as <- _. congruence.
      * rewrite insert_deref. intros H _ _. injection H as _ <-.
        split; reflexivity.
    + unfold mbind_world at 1. unfold new_record at 1. cbn beta iota.
      set (w1 := {| heap := heap w ++ [Record_init nm]; data := data w |}).
      unfold mbind_world at 1. unfold call at 1.
      destruct (add_phone_cases phone (deref w1 (length (heap w))))
        as [-> | ->].
      * intros H _ Hv. unfold mbind_world, add_record, ret in H.
        injection H as <- _. congruence.
      * rewrite insert_deref. intros H _ _. injection H as _ <-.
        split; [reflexivity|]. apply values_new_object.
Qed.

Lemma failed_commands_change_nothing_witness :
  snd (change_contact [lit "ann"; lit "0000000000"; lit "0991112233"]
         sample_world) = sample_world.
Proof.
  apply (proj1 (failed_commands_change_nothing
                  [lit "ann"; lit "0000000000"; lit "0991112233"]
                  sample_world) (PyStr give_me)).
  - reflexivity.
  - intros H. vm_compute in H. discriminate.
Defined.

(** X11: [phone] after a successful [add] shows the phone added: alone
    for a new name, and as the last line after the phones the contact
    had. *)
Theorem add_then_show_phone (w : world) (nm phone : str) (p : Phone) :
  Phone_init (PyStr phone) = Ret p ->
  let w' := snd (add_contact [nm; phone] w) in
  (dict_get (data w) nm = None -> show_phone [nm] w' = (Ret (PyStr phone), w'))
  /\ (forall r, dict_get (data w) nm = Some r -> (r < length (heap w))%nat ->
      show_phone [nm] w'
      = (Ret (PyStr (join newline
                       (map Phone_str (phones (deref w r)) ++ [phone]))),
         w')).
Proof.
  intros Hp w'. destruct (add_phone_Ret phone p (Record_init nm) Hp) as [Hpv _].
  subst w'. split.
  - intros Hnone.
    assert (Hrun : snd (add_contact [nm; phone] w)
            = {| heap := heap w
                         ++ [ {| name := {| Name_value := nm |};
                                 phones := [p]; birthday := None |} ];
                 data := data w ++ [(nm, length (heap w))] |}).
    { unfold add_contact, input_error, add_contact_func, mbind_world, find,
        new_record, call, add_phone, add_record, ret, deref.
      rewrite Hnone, Hp. simpl.
      rewrite list_lookup_total_middle by reflexivity.
      rewrite (insert_app_r_alt (heap w)) by reflexivity.
      rewrite Nat.sub_diag. simpl.
      rewrite list_lookup_total_middle by reflexivity. simpl.
      rewrite dict_set_new by exact Hnone. reflexivity. }
    rewrite Hrun.
    unfold show_phone, input_error, show_phone_func, mbind_world, find, ret,
      deref.
    cbn [data heap].
    assert (Hget : dict_get (data w ++ [(nm, length (heap w))]) nm
                   = Some (length (heap w))).
    { pose proof (dict_get_set_eq (data w) nm (length (heap w))) as G.
      rewrite (dict_set_new (data w) nm (length (heap w)) Hnone) in G.
      exact G. }
    rewrite Hget. cbn [heap].
    rewrite list_lookup_total_middle by reflexivity.
    subst p. reflexivity.
  - intros r Hr Hlt.
    assert (Hrun : snd (add_contact [nm; phone] w)
            = {| heap := <[r := set_phones (phones (deref w r) ++ [p])
                                   (deref w r)]> (heap w);
                 data := data w |}).
    { unfold add_contact, input_error, add_contact_func, mbind_world, find,
        call, add_phone, ret.
      rewrite Hr, Hp. reflexivity. }
    rewrite Hrun.
    unfold show_phone, input_error, show_phone_func, mbind_world, find, ret,
      deref.
    cbn [data heap]. rewrite Hr. cbn [heap].
    rewrite list_lookup_total_insert_eq by exact Hlt.
    cbn [phones set_phones]. rewrite map_app. subst p. reflexivity.
Qed.

Lemma add_then_show_phone_witness :
  show_phone [lit "bob"]
    (snd (add_contact [lit "bob"; lit "0991112233"] sample_world))
  = (Ret (PyStr (lit "0991112233")),
     snd (add_contact [lit "bob"; lit "0991112233"] sample_world)).
Proof.
  apply (proj1 (add_then_show_phone sample_world (lit "bob")
                  (lit "0991112233") {| Phone_value := lit "0991112233" |}
                  eq_refl)).
  reflexivity.
Defined.

(** X12: [show-birthday] after [add-birthday] gives the text back.  For a
    contact of the book and a text of the shape DD.MM.YYYY that is a
    date, with a year from 1000 on (or any year where [%Y] is filled with
    zeros), [add-birthday] answers "Birthday added." and [show-birthday]
    then answers the very text; a birthday set before is replaced. *)
Theorem add_then_show_birthday (ys : year_style) (w : world) (nm s : str)
    (r : ref) (b : Birthday) :
  dict_get (data w) nm = Some r -> (r < length (heap w))%nat ->
  is_DDMMYYYY s -> Birthday_init s = Ret b ->
  ys = Y_zero_filled \/ 1000 <= Calendar.year (Birthday_value b) ->
  let w' := snd (add_birthday [nm; s] w) in
  add_birthday [nm; s] w
  = (Ret (PyStr (lit "Birthday added.")),
     {| heap := <[r := set_birthday (Some b) (deref w r)]> (heap w);
        data := data w |})
  /\ show_birthday ys [nm] w' = (Ret (PyStr s), w').
Proof.
  intros Hr Hlt Hshape Hb Hys w'.
  assert (Hrun : add_birthday [nm; s] w
          = (Ret (PyStr (lit "Birthday added.")),
             {| heap := <[r := set_birthday (Some b) (deref w r)]> (heap w);
                data := data w |})).
  { unfold add_birthday, input_error, add_birthday_func, mbind_world, find,
      call, add_birthday_method, ret.
    rewrite Hr, Hb. reflexivity. }
  subst w'. rewrite Hrun. split; [reflexivity|]. cbn [snd].
  unfold show_birthday, input_error, show_birthday_func, mbind_world, find,
    deref.
  cbn [data heap]. rewrite Hr. cbn [heap].
  rewrite list_lookup_total_insert_eq by exact Hlt.
  cbn [birthday set_birthday].
  rewrite (Birthday_render_parse ys s b Hshape Hb Hys). reflexivity.
Qed.

Lemma add_then_show_birthday_witness :
  show_birthday Y_plain [lit "ann"]
    (snd (add_birthday [lit "ann"; lit "12.03.1990"] sample_world))
  = (Ret (PyStr (lit "12.03.1990")),
     snd (add_birthday [lit "ann"; lit "12.03.1990"] sample_world)).
Proof.
  apply (proj2 (add_then_show_birthday Y_plain sample_world (lit "ann")
                  (lit "12.03.1990") 0%nat
                  {| Birthday_value := mkdate 1990 3 12 |}
                  eq_refl ltac:(simpl; lia)
                  ltac:(do 8 eexists; split; reflexivity) eq_refl
                  ltac:(right; simpl; lia))).
Defined.

(** ** More on the upcoming birthdays *)




(** The turn of the loop for a record whose birthday has no next
    occurrence raises. *)
Lemma upcoming_loop_no_occurrence (ys : year_style) (today : Calendar.date)
    (record : RecordObj) (b : Birthday) (todo : list RecordObj)
    (acc : list greeting) :
  Calendar.valid_date today -> birthday record = Some b ->
  next_occurrence today (Birthday_value b) = None ->
  upcoming_loop ys today (record :: todo) acc
  = Raise (ValueError Calendar.date_error).
Proof.
  intros Ht Hb Hnone. cbn [upcoming_loop]. rewrite Hb.
  unfold next_occurrence in Hnone. rewrite replace_year_occurrence.
  destruct (occurrence_in (Calendar.year today) (Birthday_value b))
    as [d1|] eqn:H1; [|reflexivity].
  cbn [obind].
  pose proof (occurrence_in_Some _ _ _ H1) as [_ Hv1].
  rewrite (date_ltb_toordinal d1 today Hv1 Ht).
  destruct (Calendar.toordinal d1 <? Calendar.toordinal today);
    [|discriminate].
  rewrite replace_year_occurrence.
  rewrite (occurrence_in_same (Calendar.year today) (Calendar.year today + 1)
             _ d1 H1), Hnone.
  reflexivity.
Qed.

Lemma upcoming_loop_raises (ys : year_style) (today : Calendar.date)
    (record : RecordObj) (b : Birthday) (todo : list RecordObj)
    (acc : list greeting) :
  Calendar.valid_date today -> In record todo -> birthday record = Some b ->
  next_occurrence today (Birthday_value b) = None ->
  upcoming_loop ys today todo acc = Raise (ValueError Calendar.date_error).
Proof.
  intros Ht Hin Hb Hnone. revert acc.
  induction todo as [|x todo IH]; intros acc; [destruct Hin|].
  destruct Hin as [-> | Hin].
  - apply (upcoming_loop_no_occurrence ys today record b todo acc Ht Hb Hnone).
  - destruct (upcoming_loop_cases ys today x todo acc) as [-> | [acc' ->]];
      [reflexivity | apply IH; exact Hin].
Qed.

(** X14: one stored birthday without a next occurrence (29 February
    against a year that is no leap year, or any day already past when
    today is in the year 9999) spoils the whole report:
    [get_upcoming_birthdays] raises the [ValueError] of the year
    substitution, whatever the other records are, and [birthdays]
    answers "Give me name and phone please.". *)
Theorem birthdays_without_occurrence (ys : year_style) (today : Calendar.date)
    (args : list str) (w : world) (record : RecordObj) (b : Birthday) :
  Calendar.valid_date today ->
  In record (values w) -> birthday record = Some b ->
  next_occurrence today (Birthday_value b) = None ->
  get_upcoming_birthdays ys today w
  = (Raise (ValueError Calendar.date_error), w)
  /\ birthdays ys today args w = (Ret (PyStr give_me), w).
Proof.
  intros Ht Hin Hb Hnone.
  unfold birthdays, input_error, birthdays_func, mbind_world,
    get_upcoming_birthdays.
  rewrite (upcoming_loop_raises ys today record b (values w) [] Ht Hin Hb
             Hnone).
  split; reflexivity.
Qed.

Lemma birthdays_without_occurrence_witness :
  birthdays Y_plain (mkdate 2025 2 25) [] leap_day_book
  = (Ret (PyStr give_me), leap_day_book).
Proof.
  apply (proj2 (birthdays_without_occurrence Y_plain (mkdate 2025 2 25) []
                  leap_day_book
                  (contact (lit "bob")
                     [ {| Phone_value := lit "0991112233" |} ] 2024 2 29)
                  {| Birthday_value := mkdate 2024 2 29 |}
                  ltac:(unfold Calendar.valid_date; cbv; repeat split;
                        discriminate)
                  ltac:(left; reflexivity) eq_refl eq_refl)).
Defined.

Lemma congratulation_day_bounds (d : Calendar.date) :
  Calendar.valid_date d ->
  Calendar.valid_date (congratulation_day d)
  /\ Calendar.weekday (congratulation_day d) <= 4
  /\ Calendar.toordinal d <= Calendar.toordinal (congratulation_day d)
     <= Calendar.toordinal d + 2.
Proof.
  intros Hv. pose proof (weekday_range d) as Hr.
  destruct (Z.ltb_spec (Calendar.weekday d) 5) as [Hw | Hw].
  - rewrite (congratulation_day_weekday d Hw). repeat split; try lia.
    all: apply Hv.
  - destruct (congratulation_day_weekend d Hv Hw) as (Hv' & Hmon & Hlo & _).
    split; [exact Hv'|]. split; [lia|]. split; [lia|].
    pose proof (toordinal_range d Hv) as Hd.
    unfold congratulation_day in *.
    destruct (Z.eqb_spec (Calendar.weekday d) 5) as [E | E].
    + assert (Hmax : Calendar.toordinal d + 2 <= Calendar._MAXORDINAL).
      { unfold Calendar.weekday, Calendar._MAXORDINAL in *.
        Z.div_mod_to_equations; lia. }
      destruct (fromordinal_toordinal (Calendar.toordinal d + 2)
                  ltac:(lia)) as [_ ->]. lia.
    + destruct (Z.eqb_spec (Calendar.weekday d) 6) as [E' | E']; [|lia].
      assert (Hmax : Calendar.toordinal d + 1 <= Calendar._MAXORDINAL).
      { unfold Calendar.weekday, Calendar._MAXORDINAL in *.
        Z.div_mod_to_equations; lia. }
      destruct (fromordinal_toordinal (Calendar.toordinal d + 1)
                  ltac:(lia)) as [_ ->]. lia.
Qed.

Lemma omap_length_le {A B} (f : A -> option B) (l : list A) :
  (length (omap f l) <= length l)%nat.
Proof.
  induction l as [|x l IH]; [reflexivity|]. cbn [omap list_omap].
  destruct (f x); simpl; lia.
Qed.

Lemma In_omap {A B} (f : A -> option B) (l : list A) (y : B) :
  In y (omap f l) -> exists x, In x l /\ f x = Some y.
Proof.
  induction l as [|x l IH]; [intros []|]. cbn [omap list_omap].
  destruct (f x) as [z|] eqn:Hx.
  - intros [<- | Hin].
    + exists x. split; [left; reflexivity | exact Hx].
    + destruct (IH Hin) as (x' & Hx' & Hf). exists x'. split; [right|]; auto.
  - intros Hin. destruct (IH Hin) as (x' & Hx' & Hf). exists x'.
    split; [right|]; auto.
Qed.

(** The entries that [omap] keeps come from a sublist of the list: one
    element each, in the order of the list. *)
Lemma omap_sublist {A B} (f : A -> option B) (l : list A) :
  exists l', l' `sublist_of` l
             /\ Forall2 (fun y x => f x = Some y) (omap f l) l'.
Proof.
  induction l as [|x l (l' & Hsub & Hall)]; cbn [omap list_omap].
  - exists []. split; constructor.
  - fold (omap f l). destruct (f x) as [y|] eqn:Hx.
    + exists (x :: l'). split; [constructor; exact Hsub|].
      constructor; [exact Hx | exact Hall].
    + exists l'. split; [constructor; exact Hsub | exact Hall].
Qed.

(** What an entry of the report says of its record. *)
Lemma greeting_of_Some (ys : year_style) (today : Calendar.date)
    (record : RecordObj) (g : greeting) :
  Calendar.valid_date today ->
  greeting_of ys today record = Some g ->
  exists b d,
    birthday record = Some b
    /\ greeting_name g = Name_value (name record)
    /\ next_occurrence today (Birthday_value b) = Some d
    /\ congratulation_date g = Strftime.strftime ys (congratulation_day d)
    /\ Calendar.valid_date (congratulation_day d)
    /\ Calendar.weekday (congratulation_day d) <= 4
    /\ Calendar.toordinal today <= Calendar.toordinal d
       <= Calendar.toordinal today + 7
    /\ Calendar.toordinal d
       <= Calendar.toordinal (congratulation_day d)
       <= Calendar.toordinal d + 2.
Proof.
  intros Ht Hgr. unfold greeting_of in Hgr.
  destruct (birthday record) as [b|] eqn:Hb; [|discriminate].
  destruct (next_occurrence today (Birthday_value b)) as [d|] eqn:Hd;
    [|discriminate].
  destruct (within_week today d) eqn:Hweek; [|discriminate].
  injection Hgr as <-.
  destruct (next_occurrence_not_before today _ d Ht Hd) as [Hv Hge].
  destruct (congratulation_day_bounds d Hv) as (Hv' & Hwd & Hord).
  unfold within_week in Hweek. rewrite andb_true_iff, !Z.leb_le in Hweek.
  exists b, d. cbn [greeting_name congratulation_date].
  do 4 (split; [auto; fail|]).
  split; [exact Hv'|]. split; [exact Hwd|]. split; [lia | exact Hord].
Qed.

(** X15: whenever [get_upcoming_birthdays] returns, it has at most one
    entry per record: the entries are those of a sublist of the records
    of the book, one entry for each record of the sublist and in the
    order of the book, so there are no more entries than records; they
    are exactly the entries for the records whose birthday's next
    occurrence is today or one of the seven days after it.  Every entry
    is for a record with a birthday and carries its name, and the date of
    an entry is a day from Monday to Friday: the birthday's next
    occurrence or up to two days later, so never before today and never
    more than nine days ahead. *)
Theorem upcoming_dates_are_weekdays (ys : year_style) (today : Calendar.date)
    (w : world) (gs : list greeting) :
  Calendar.valid_date today ->
  fst (get_upcoming_birthdays ys today w) = Ret gs ->
  gs = omap (greeting_of ys today) (values w)
  /\ (exists records,
         records `sublist_of` values w
         /\ Forall2
              (fun g record =>
                 exists b d,
                   birthday record = Some b
                   /\ greeting_name g = Name_value (name record)
                   /\ next_occurrence today (Birthday_value b) = Some d
                   /\ congratulation_date g
                      = Strftime.strftime ys (congratulation_day d)
                   /\ Calendar.toordinal today <= Calendar.toordinal d
                      <= Calendar.toordinal today + 7)
              gs records)
  /\ (length gs <= length (values w))%nat
  /\ forall g, In g gs ->
       exists record b d,
         In record (values w) /\ birthday record = Some b
         /\ greeting_name g = Name_value (name record)
         /\ next_occurrence today (Birthday_value b) = Some d
         /\ congratulation_date g
            = Strftime.strftime ys (congratulation_day d)
         /\ Calendar.valid_date (congratulation_day d)
         /\ Calendar.weekday (congratulation_day d) <= 4
         /\ Calendar.toordinal today <= Calendar.toordinal d
            <= Calendar.toordinal today + 7
         /\ Calendar.toordinal d
            <= Calendar.toordinal (congratulation_day d)
            <= Calendar.toordinal d + 2.
Proof.
  intros Ht Hrun. unfold get_upcoming_birthdays in Hrun. cbn [fst] in Hrun.
  assert (Hnext : forall record b,
            In record (values w) -> birthday record = Some b ->
            is_Some (next_occurrence today (Birthday_value b))).
  { intros record b Hin Hb.
    destruct (next_occurrence today (Birthday_value b)) as [d|] eqn:Hd;
      [eauto|].
    rewrite (upcoming_loop_raises ys today record b (values w) [] Ht Hin Hb Hd)
      in Hrun.
    discriminate. }
  rewrite (upcoming_loop_spec ys today (values w) [] Ht Hnext) in Hrun.
  injection Hrun as <-. cbn [app]. split; [reflexivity|].
  split; [|split; [apply omap_length_le|]].
  - destruct (omap_sublist (greeting_of ys today) (values w))
      as (records & Hsub & Hall).
    exists records. split; [exact Hsub|].
    apply (Forall2_impl _ _ _ _ Hall). intros g record Hgr.
    destruct (greeting_of_Some ys today record g Ht Hgr)
      as (b & d & Hb & Hn & Hd & Hc & _ & _ & Hw & _).
    exists b, d. auto.
  - intros g Hg. destruct (In_omap _ _ _ Hg) as (record & Hin & Hgr).
    destruct (greeting_of_Some ys today record g Ht Hgr)
      as (b & d & H).
    exists record, b, d. split; [exact Hin | exact H].
Qed.

Lemma upcoming_dates_are_weekdays_witness :
  values march_book
  = [ contact (lit "ann") [] 1990 3 16;
      {| name := {| Name_value := lit "cid" |}; phones := [];
         birthday := None |};
      contact (lit "bob") [] 1985 3 12 ]
  /\ fst (get_upcoming_birthdays Y_plain (mkdate 2024 3 10) march_book)
     = Ret [ {| greeting_name := lit "ann";
                congratulation_date := lit "18.03.2024" |};
             {| greeting_name := lit "bob";
                congratulation_date := lit "12.03.2024" |} ]
  /\ [ {| greeting_name := lit "ann";
          congratulation_date := lit "18.03.2024" |};
       {| greeting_name := lit "bob";
          congratulation_date := lit "12.03.2024" |} ]
     = omap (greeting_of Y_plain (mkdate 2024 3 10)) (values march_book)
  /\ (exists records,
         records `sublist_of` values march_book
         /\ Forall2
              (fun g record =>
                 exists b d,
                   birthday record = Some b
                   /\ greeting_name g = Name_value (name record)
                   /\ next_occurrence (mkdate 2024 3 10) (Birthday_value b)
                      = Some d
                   /\ congratulation_date g
                      = Strftime.strftime Y_plain (congratulation_day d)
                   /\ Calendar.toordinal (mkdate 2024 3 10)
                      <= Calendar.toordinal d
                      <= Calendar.toordinal (mkdate 2024 3 10) + 7)
              [ {| greeting_name := lit "ann";
                   congratulation_date := lit "18.03.2024" |};
                {| greeting_name := lit "bob";
                   congratulation_date := lit "12.03.2024" |} ]
              records)
  /\ (2 <= length (values march_book))%nat
  /\ forall g,
       In g [ {| greeting_name := lit "ann";
                 congratulation_date := lit "18.03.2024" |};
              {| greeting_name := lit "bob";
                 congratulation_date := lit "12.03.2024" |} ] ->
       exists record b d,
         In record (values march_book) /\ birthday record = Some b
         /\ greeting_name g = Name_value (name record)
         /\ next_occurrence (mkdate 2024 3 10) (Birthday_value b) = Some d
         /\ congratulation_date g
            = Strftime.strftime Y_plain (congratulation_day d)
         /\ Calendar.valid_date (congratulation_day d)
         /\ Calendar.weekday (congratulation_day d) <= 4
         /\ Calendar.toordinal (mkdate 2024 3 10) <= Calendar.toordinal d
            <= Calendar.toordinal (mkdate 2024 3 10) + 7
         /\ Calendar.toordinal d
            <= Calendar.toordinal (congratulation_day d)
            <= Calendar.toordinal d + 2.
Proof.
  split; [reflexivity|]. split; [reflexivity|].
  apply (upcoming_dates_are_weekdays Y_plain (mkdate 2024 3 10) march_book
           [ {| greeting_name := lit "ann";
                congratulation_date := lit "18.03.2024" |};
             {| greeting_name := lit "bob";
                congratulation_date := lit "12.03.2024" |} ]
           ltac:(unfold Calendar.valid_date; cbv; repeat split; discriminate)
           eq_refl).
Defined.

(** ** The whole book *)

Lemma join_cons_head (sep p : str) (rest : list str) (c : N) (p' : str) :
  p = c :: p' -> exists t, join sep (p :: rest) = c :: t.
Proof.
  intros ->. destruct rest as [|q rest]; cbn [join]; eexists; reflexivity.
Qed.

(** X16: [all] answers "Address book is empty." exactly when the book has
    no contact; otherwise it answers the contacts in the order of the
    book, each as [Record.__str__] prints it and one to a line, and that
    answer is never the text "Address book is empty.". *)
Theorem show_all_spec (ys : year_style) (w : world) :
  (data w = [] -> show_all ys w = (Ret (PyStr book_is_empty), w))
  /\ (data w <> [] ->
      show_all ys w
      = (Ret (PyStr (join newline (map (Record_str ys) (values w)))), w)
      /\ join newline (map (Record_str ys) (values w)) <> book_is_empty).
Proof.
  split.
  - intros Hd. unfold show_all, input_error, show_all_func. rewrite Hd.
    reflexivity.
  - intros Hd. unfold show_all, input_error, show_all_func.
    destruct (data w) as [|[k r] d] eqn:Hdata; [congruence|].
    cbn [length Nat.eqb negb]. split; [reflexivity|].
    unfold values. rewrite Hdata. cbn [map].
    destruct (join_cons_head newline
                (Record_str ys (deref w (snd (k, r))))
                (map (Record_str ys) (map (fun kv => deref w (snd kv)) d))
                67%N
                (tl (Record_str ys (deref w (snd (k, r)))))
                eq_refl) as [t ->].
    discriminate.
Qed.

Lemma show_all_spec_witness :
  show_all Y_plain empty_world = (Ret (PyStr book_is_empty), empty_world)
  /\ show_all Y_plain sample_world
     = (Ret (PyStr (lit "Contact name: ann, phones: 0501234567; "
                    ++ lit "0670000000; 0501234567")),
        sample_world).
Proof.
  split.
  - apply (proj1 (show_all_spec Y_plain empty_world)). reflexivity.
  - apply (proj2 (show_all_spec Y_plain sample_world)). discriminate.
Defined.

Lemma filter_keep_all (k : str) (d : dict) :
  ~ In k (map fst d) ->
  List.filter (fun kv => negb (str_eqb (fst kv) k)) d = d.
Proof.
  induction d as [|[k' v] d IH]; intros Hnot; [reflexivity|].
  cbn [List.filter fst]. cbn [map fst In] in Hnot.
  destruct (str_eqb k' k) eqn:Hk.
  - apply str_eqb_eq in Hk. exfalso. apply Hnot. left. exact Hk.
  - cbn [negb]. rewrite IH; [reflexivity|]. intros Hin. apply Hnot. right.
    exact Hin.
Qed.

(** X17: in a book where a name is a key once, [delete(name)] takes away
    the one entry of the name and keeps the other entries in their
    order; no object is touched. *)
Theorem delete_removes_one_entry (w : world) (nm : str) (r : ref)
    (pre post : dict) :
  NoDup (map fst (data w)) -> data w = pre ++ (nm, r) :: post ->
  delete nm w = (Ret tt, {| heap := heap w; data := pre ++ post |}).
Proof.
  intros Hnd Hdata. unfold delete.
  assert (Hin : In nm (map fst (data w))).
  { rewrite Hdata, map_app. apply in_or_app. right. left. reflexivity. }
  apply dict_contains_In in Hin. rewrite Hin.
  rewrite Hdata, map_app in Hnd. cbn [map fst] in Hnd.
  apply NoDup_app in Hnd. destruct Hnd as (_ & Hpre & Hpost).
  apply NoDup_cons in Hpost. destruct Hpost as [Hpost _].
  unfold dict_del. rewrite Hdata, List.filter_app. cbn [List.filter fst].
  rewrite str_eqb_refl. cbn [negb].
  rewrite !filter_keep_all; [reflexivity | |].
  - intros H. apply Hpost. apply list_elem_of_In. exact H.
  - intros H. apply list_elem_of_In in H. apply (Hpre nm H). left.
Qed.

Lemma delete_removes_one_entry_witness :
  delete (lit "ann") sample_world
  = (Ret tt, {| heap := heap sample_world; data := [] ++ [] |}).
Proof.
  apply (delete_removes_one_entry sample_world (lit "ann") 0%nat [] []).
  - apply NoDup_singleton.
  - reflexivity.
Defined.

(** ** Reading a command *)

Lemma split_loop_token (tok s word : str) :
  forallb (fun c => negb (isspace c)) tok = true ->
  split_loop (tok ++ s) word = split_loop s (word ++ tok).
Proof.
  revert word. induction tok as [|c tok IH]; intros word Htok.
  - rewrite app_nil_r. reflexivity.
  - cbn [forallb] in Htok. apply andb_true_iff in Htok.
    destruct Htok as [Hc Htok]. apply negb_true_iff in Hc.
    cbn [app split_loop]. rewrite Hc, IH by exact Htok.
    rewrite <- app_assoc. reflexivity.
Qed.

Lemma split_loop_nil (s word : str) :
  split_loop s word = [] <-> blank s /\ word = [].
Proof.
  unfold blank. revert word. induction s as [|c s IH]; intros word.
  - cbn. destruct word; split; try tauto; try discriminate.
    intros [_ H]. discriminate.
  - cbn [split_loop forallb]. destruct (isspace c) eqn:Hc.
    + destruct word as [|x word].
      * rewrite IH. cbn. tauto.
      * split; [discriminate | intros [_ H]; discriminate].
    + rewrite IH. cbn. split; [|intros [H _]; discriminate].
      intros [_ H]. destruct word; discriminate.
Qed.

Lemma split_loop_tokens (s word : str) :
  forallb (fun c => negb (isspace c)) word = true ->
  Forall is_token (split_loop s word).
Proof.
  revert word. induction s as [|c s IH]; intros word Hword.
  - cbn. destruct word as [|x word]; [constructor|].
    constructor; [split; [discriminate | exact Hword] | constructor].
  - cbn [split_loop]. destruct (isspace c) eqn:Hc.
    + destruct word as [|x word]; [apply IH; reflexivity|].
      constructor; [split; [discriminate | exact Hword]|].
      apply IH. reflexivity.
    + apply IH. rewrite forallb_app, Hword. cbn [forallb andb].
      rewrite Hc. reflexivity.
Qed.

Lemma split_join (ts : list str) :
  Forall is_token ts -> split (join [0x20%N] ts) = ts.
Proof.
  unfold split. induction ts as [|t ts IH]; intros Hts; [reflexivity|].
  inversion Hts as [|? ? [Hne Ht] Hrest]; subst.
  destruct ts as [|q ts].
  - cbn [join]. rewrite <- (app_nil_r t) at 1.
    rewrite split_loop_token by exact Ht. cbn. destruct t; congruence.
  - change (join [0x20%N] (t :: q :: ts))
      with (t ++ 0x20%N :: join [0x20%N] (q :: ts)).
    rewrite split_loop_token by exact Ht. cbn [app split_loop].
    change (isspace 0x20) with true. cbn iota.
    destruct t as [|x t]; [congruence|]. f_equal. apply IH. exact Hrest.
Qed.

Lemma str_lstrip_token (t : str) :
  forallb (fun c => negb (isspace c)) t = true -> str_lstrip t = t.
Proof.
  destruct t as [|c t]; [reflexivity|]. cbn [forallb str_lstrip].
  intros H. apply andb_true_iff in H. destruct H as [Hc _].
  apply negb_true_iff in Hc. rewrite Hc. reflexivity.
Qed.

Lemma str_strip_token (t : str) :
  forallb (fun c => negb (isspace c)) t = true -> str_strip t = t.
Proof.
  intros Ht. unfold str_strip, str_rstrip. rewrite (str_lstrip_token t Ht).
  rewrite str_lstrip_token; [apply rev_involutive|].
  rewrite forallb_forall in *. intros c Hc. apply Ht.
  apply in_rev. exact Hc.
Qed.

Lemma parse_input_cases (lower : str -> str) (s : str) :
  (blank s /\ parse_input lower s = Raise (ValueError unpack_error))
  \/ exists tok args,
       split s = tok :: args /\ Forall is_token (tok :: args)
       /\ parse_input lower s = Ret (lower tok, args).
Proof.
  unfold parse_input. destruct (split s) as [|tok args] eqn:Hs.
  - left. split; [|reflexivity]. apply (split_loop_nil s []). exact Hs.
  - right. exists tok, args. split; [reflexivity|].
    assert (Htoks : Forall is_token (tok :: args)).
    { rewrite <- Hs. apply split_loop_tokens. reflexivity. }
    split; [exact Htoks|]. inversion Htoks as [|? ? [_ Ht] _]; subst.
    rewrite (str_strip_token tok Ht). reflexivity.
Qed.

(** X18: [parse_input] raises [ValueError] exactly on a blank text (an
    empty one or one of whitespace only); any other text gives its first
    word, lowered, as the command and the other words as the arguments,
    and no word is empty or holds whitespace.  Words joined by single
    spaces are given back as they are. *)
Theorem parse_input_spec (lower : str -> str) (s : str) :
  (blank s -> parse_input lower s = Raise (ValueError unpack_error))
  /\ (~ blank s ->
      exists tok args,
        split s = tok :: args /\ Forall is_token (tok :: args)
        /\ parse_input lower s = Ret (lower tok, args))
  /\ (forall cmd args,
        Forall is_token (cmd :: args) -> s = join [0x20%N] (cmd :: args) ->
        parse_input lower s = Ret (lower cmd, args)).
Proof.
  split; [|split].
  - intros Hb. unfold parse_input.
    replace (split s) with (@nil str)
      by (symmetry; apply (split_loop_nil s []); auto).
    reflexivity.
  - intros Hnb. destruct (parse_input_cases lower s) as [[Hb _] | H];
      [contradiction | exact H].
  - intros cmd args Htoks ->. unfold parse_input.
    rewrite (split_join _ Htoks).
    inversion Htoks as [|? ? [_ Ht] _]; subst.
    rewrite (str_strip_token cmd Ht). reflexivity.
Qed.

Lemma parse_input_spec_witness :
  parse_input ascii_lower (lit "   ") = Raise (ValueError unpack_error)
  /\ parse_input ascii_lower (lit "ADD Bob 0991112233")
     = Ret (lit "add", [lit "Bob"; lit "0991112233"]).
Proof.
  split.
  - apply (proj1 (parse_input_spec ascii_lower (lit "   "))). reflexivity.
  - apply (proj2 (proj2 (parse_input_spec ascii_lower
                           (lit "ADD Bob 0991112233")))
             (lit "ADD") [lit "Bob"; lit "0991112233"]).
    + repeat constructor; discriminate.
    + reflexivity.
Defined.

(** ** The session *)

Lemma run_handler_says (h : M pyval) (book : world)
    (continue : world -> list event * session_end) :
  answers (h book) ->
  exists v, fst (h book) = Ret v
            /\ run_handler h book continue = say v (continue (snd (h book))).
Proof.
  unfold answers, run_handler. destruct (h book) as [[v | e] book'];
    cbn [fst snd]; [eauto | intros []].
Qed.

(** One line of the session: the program stops on a blank line, or
    leaves the loop on [close] and [exit], or prints one answer and goes
    on with the next line. *)
Lemma main_loop_cases (lower : str -> str) (ys : year_style) (line : str)
    (today : Calendar.date) (book : world) :
  (blank (lower (str_strip line))
   /\ forall rest,
        main_loop lower ys ((line, today) :: rest) book
        = ([Prompt], Crashed (ValueError unpack_error) book))
  \/ ((exists c args,
         parse_input lower (lower (str_strip line)) = Ret (c, args)
         /\ is_exit c = true)
      /\ forall rest,
           main_loop lower ys ((line, today) :: rest) book
           = ([Prompt; Print (PyStr good_bye)], Saved book))
  \/ ((exists c args,
         parse_input lower (lower (str_strip line)) = Ret (c, args)
         /\ is_exit c = false)
      /\ exists v book',
           (forall rest,
              main_loop lower ys ((line, today) :: rest) book
              = say v (main_loop lower ys rest book'))
           /\ (book_ok book -> book_ok book')).
Proof.
  cbn [main_loop].
  destruct (parse_input_cases lower (lower (str_strip line)))
    as [[Hb ->] | (tok & args & _ & _ & ->)].
  - left. split; [exact Hb | reflexivity].
  - right. fold (is_exit (lower tok)).
    destruct (is_exit (lower tok)) eqn:Hexit.
    + left. split; [eauto | reflexivity].
    + right. split; [eauto|].
      pose proof (handlers_answer ys today args book)
        as (A1 & A2 & A3 & A4 & A5 & A6 & A7).
      pose proof (handlers_keep_book_ok ys today args book) as Hinv.
      repeat match goal with
             | |- context [if str_eqb ?a ?b then _ else _] =>
                 destruct (str_eqb a b)
             end;
        try (exists (PyStr (lit "How can I help you?")), book;
             split; [reflexivity | auto]);
        try (exists (PyStr invalid_command), book;
             split; [reflexivity | auto]);
        match goal with
        | |- context [run_handler ?h book _] =>
            let A := fresh in
            assert (A : answers (h book)) by assumption;
            exists (match fst (h book) with Ret v => v | _ => PyNone end),
                   (snd (h book));
            split;
            [ intros rest;
              destruct (run_handler_says h book (main_loop lower ys rest) A)
                as (v & Hv & ->); rewrite Hv; reflexivity
            | intros Hok; specialize (Hinv Hok); tauto ]
        end.
Qed.

Lemma last_say (v : pyval) (r : list event * session_end) (x : event) :
  last (fst r) = Some x -> last (fst (say v r)) = Some x.
Proof.
  unfold say. cbn [fst]. destruct (fst r) as [|y l]; [discriminate|].
  intros H. exact H.
Qed.








Lemma main_loop_saved (lower : str -> str) (ys : year_style)
    (inputs : list (str * Calendar.date)) (book book' : world) :
  snd (main_loop lower ys inputs book) = Saved book' ->
  last (fst (main_loop lower ys inputs book)) = Some (Print (PyStr good_bye))
  /\ exists line today c args,
       In (line, today) inputs
       /\ parse_input lower (lower (str_strip line)) = Ret (c, args)
       /\ is_exit c = true.
Proof.
  revert book. induction inputs as [|[line today] rest IH]; intros book.
  - discriminate.
  - destruct (main_loop_cases lower ys line today book)
      as [[Hb Hrun] | [[(c & args & Hp & Hc) Hrun] | [_ (v & b1 & Hrun & _)]]];
      rewrite Hrun; cbn [snd].
    + discriminate.
    + intros _. split; [reflexivity|]. exists line, today, c, args.
      split; [left; reflexivity | auto].
    + unfold say at 1. cbn [snd]. intros H.
      destruct (IH b1 H) as (Hlast & l & t & c & a & Hin & Hp & Hc).
      split; [apply last_say; exact Hlast|].
      exists l, t, c, a. split; [right; exact Hin | auto].
Qed.

Lemma main_loop_after_exit (lower : str -> str) (ys : year_style)
    (pre : list (str * Calendar.date)) (line : str) (today : Calendar.date)
    (c : str) (args : list str) (rest rest' : list (str * Calendar.date))
    (book : world) :
  parse_input lower (lower (str_strip line)) = Ret (c, args) ->
  is_exit c = true ->
  main_loop lower ys (pre ++ (line, today) :: rest) book
  = main_loop lower ys (pre ++ (line, today) :: rest') book.
Proof.
  intros Hp Hc. revert book.
  induction pre as [|[l t] pre IH]; intros book; cbn [app].
  - destruct (main_loop_cases lower ys line today book)
      as [[_ Hrun] | [[_ Hrun] | [(c' & a' & Hp' & Hc') _]]].
    + rewrite !Hrun. reflexivity.
    + rewrite !Hrun. reflexivity.
    + congruence.
  - destruct (main_loop_cases lower ys l t book)
      as [[_ Hrun] | [[_ Hrun] | [_ (v & b1 & Hrun & _)]]];
      rewrite !Hrun; [reflexivity | reflexivity |].
    rewrite IH. reflexivity.
Qed.

(** X20: the book is saved on [close] and [exit] and on nothing else.  A
    session that saves ends with "Good bye!" after a line whose command
    is [close] or [exit]; the lines after such a line have no effect; and
    a session without such a line saves nothing, whatever was added. *)
Theorem main_saves_on_exit_only (lower : str -> str) (ys : year_style) :
  (forall inputs book book',
     snd (main lower ys inputs book) = Saved book' ->
     last (fst (main lower ys inputs book)) = Some (Print (PyStr good_bye))
     /\ exists line today c args,
          In (line, today) inputs
          /\ parse_input lower (lower (str_strip line)) = Ret (c, args)
          /\ is_exit c = true)
  /\ (forall pre line today c args rest rest' book,
        parse_input lower (lower (str_strip line)) = Ret (c, args) ->
        is_exit c = true ->
        main lower ys (pre ++ (line, today) :: rest) book
        = main lower ys (pre ++ (line, today) :: rest') book).
Proof.
  split.
  - intros inputs book book' H. unfold main in *. cbn [fst snd] in *.
    destruct (main_loop_saved lower ys inputs book book' H) as [Hlast Hex].
    split; [|exact Hex].
    destruct (fst (main_loop lower ys inputs book)); [discriminate|].
    exact Hlast.
  - intros pre line today c args rest rest' book Hp Hc. unfold main.
    rewrite (main_loop_after_exit lower ys pre line today c args rest rest'
               book Hp Hc).
    reflexivity.
Qed.

Lemma main_saves_on_exit_only_witness :
  main ascii_lower Y_plain
    ([(lit "add bob 0991112233", mkdate 2024 3 10)]
     ++ (lit "EXIT", mkdate 2024 3 10) :: [(lit "hello", mkdate 2024 3 10)])
    empty_world
  = main ascii_lower Y_plain
      ([(lit "add bob 0991112233", mkdate 2024 3 10)]
       ++ (lit "EXIT", mkdate 2024 3 10) :: [])
      empty_world.
Proof.
  apply (proj2 (main_saves_on_exit_only ascii_lower Y_plain)
           [(lit "add bob 0991112233", mkdate 2024 3 10)] (lit "EXIT")
           (mkdate 2024 3 10) (lit "exit") []).
  - reflexivity.
  - reflexivity.
Defined.

Lemma main_loop_invariants (lower : str -> str) (ys : year_style)
    (inputs : list (str * Calendar.date)) (book : world) :
  book_ok book ->
  book_ok (final_book (snd (main_loop lower ys inputs book))).
Proof.
  revert book. induction inputs as [|[line today] rest IH]; intros book Hok.
  - cbn. exact Hok.
  - destruct (main_loop_cases lower ys line today book)
      as [[_ Hrun] | [[_ Hrun] | [_ (v & b1 & Hrun & Hinv)]]];
      rewrite Hrun; cbn [snd final_book say]; auto.
Qed.

Lemma empty_world_book_ok : book_ok empty_world.
Proof. split; [apply empty_world_ok | split; constructor]. Qed.

(** X21: whatever is typed, the book a session ends with is well formed:
    from a book where every name is a key once, every reference is to an
    object, every birthday is a calendar date and every phone is ten
    digits (the empty book of a first run is one), the book that [main]
    saves, or is left with, is such a book again. *)
Theorem main_keeps_invariants (lower : str -> str) (ys : year_style)
    (inputs : list (str * Calendar.date)) (book : world) :
  book_ok book ->
  book_ok (final_book (snd (main lower ys inputs book))).
Proof. unfold main. cbn [snd]. apply main_loop_invariants. Qed.

Lemma main_keeps_invariants_witness :
  book_ok
    (final_book
       (snd (main ascii_lower Y_plain
               [(lit "add bob 0991112233", mkdate 2024 3 10);
                (lit "add-birthday bob 29.02.2024", mkdate 2024 3 10);
                (lit "exit", mkdate 2024 3 10)] empty_world))).
Proof.
  apply (main_keeps_invariants ascii_lower Y_plain _ empty_world).
  split; [split; constructor | split; constructor].
Defined.

(** X22: a [change] that finds the contact and the old phone, with a new
    phone the constructor accepts, answers "Contact updated."; the
    contact then shows its other phones in their order and the new phone
    last, wherever the old one stood. *)
Theorem change_then_show_phone (w : world) (nm old_phone new_phone : str)
    (r : ref) (pre post : list Phone) (q p : Phone) :
  dict_get (data w) nm = Some r -> (r < length (heap w))%nat ->
  phones (deref w r) = pre ++ q :: post -> no_phone old_phone pre ->
  Phone_value q = old_phone -> Phone_init (PyStr new_phone) = Ret p ->
  let w' := snd (change_contact [nm; old_phone; new_phone] w) in
  fst (change_contact [nm; old_phone; new_phone] w)
  = Ret (PyStr (lit "Contact updated."))
  /\ data w' = data w
  /\ phones (deref w' r) = pre ++ post ++ [ {| Phone_value := new_phone |} ]
  /\ show_phone [nm] w'
     = (Ret (PyStr (join newline
                      (map Phone_str (pre ++ post) ++ [new_phone]))), w').
Proof.
  intros Hr Hlt Hps Hpre Hq Hp w'.
  destruct (add_phone_Ret new_phone p (deref w r) Hp) as [Hpv _].
  assert (Hrun : change_contact [nm; old_phone; new_phone] w
          = (Ret (PyStr (lit "Contact updated.")),
             {| heap := <[r := set_phones (pre ++ post ++ [p]) (deref w r)]>
                          (heap w);
                data := data w |})).
  { unfold change_contact, input_error, change_contact_func.
    rewrite mbind_find_ok, Hr, mbind_call_ret. unfold edit_phone.
    rewrite (find_phone_first _ _ _ _ _ Hps Hpre Hq), Hp.
    rewrite (remove_phone_first _ _ _ _ _ Hps Hpre Hq).
    cbn [set_phones phones name birthday]. rewrite <- app_assoc.
    reflexivity. }
  subst w'. rewrite Hrun. cbn [fst snd data].
  split; [reflexivity|]. split; [reflexivity|].
  unfold show_phone, input_error, show_phone_func, mbind_world, find, ret,
    deref.
  cbn [data heap]. rewrite Hr. cbn [heap].
  rewrite list_lookup_total_insert_eq by exact Hlt.
  cbn [phones set_phones]. subst p. split; [reflexivity|].
  rewrite app_assoc, map_app. reflexivity.
Qed.

Lemma change_then_show_phone_witness :
  show_phone [lit "ann"]
    (snd (change_contact [lit "ann"; lit "0501234567"; lit "0991112233"]
            sample_world))
  = (Ret (PyStr (join newline
                   (map Phone_str
                      ([] ++ [ {| Phone_value := lit "0670000000" |};
                               {| Phone_value := lit "0501234567" |} ])
                    ++ [lit "0991112233"]))),
     snd (change_contact [lit "ann"; lit "0501234567"; lit "0991112233"]
            sample_world)).
Proof.
  apply (proj2 (proj2 (proj2
           (change_then_show_phone sample_world (lit "ann")
              (lit "0501234567") (lit "0991112233") 0%nat []
              [ {| Phone_value := lit "0670000000" |};
                {| Phone_value := lit "0501234567" |} ]
              {| Phone_value := lit "0501234567" |}
              {| Phone_value := lit "0991112233" |}
              eq_refl ltac:(simpl; lia) eq_refl ltac:(constructor)
              eq_refl eq_refl)))).
Defined.
